(** * site-interface: the content pipeline of [via_web_app.py]

    A shallow embedding of the crawler's link handling, the embedding-backed
    similarity ranking and the geographic recommender of [via_web_app.py],
    with the properties of the specification that concern them.

    Python values are rendered as follows.
    - [str] is [string]; the helpers of [PyStr] follow the [str] methods the
      source calls, on ASCII text.
    - [float] is the primitive binary64 [float] of Rocq, the format of Python
      and numpy floats; comparisons are the IEEE ones, so anything compared
      with NaN is false.
    - an article [dict] is the record [article]: the six keys the crawler
      always writes are fields, the two optional keys ([states], [embedding])
      are [option] fields.
    - a raised exception is the [Raised] case of [outcome].
    - the snapshot file and the counts of requests and shuffles served so
      far are the record [world], threaded through the monad [M]; the remote
      model, the C math library and the random generator are the records
      [OpenAI], [Libm] and [Random], passed as arguments.
    - the Streamlit calls ([st.warning] and the like) only draw on the page
      and are left out. *)

From Stdlib Require Import Bool Arith ZArith Lia String Ascii List.
From Stdlib Require Import Permutation Sorted DecimalString.
From Stdlib Require Import Floats.
Import ListNotations.

(** ** Exceptions and outcomes *)

Inductive exn : Type :=
| ValueError   (* numpy shape mismatch, math domain error *)
| IOError      (* the snapshot file cannot be opened for writing *)
| APIError.    (* any exception raised by the remote model call *)

Inductive outcome (A : Type) : Type :=
| Returned (a : A)
| Raised (e : exn).

Arguments Returned {A} a.
Arguments Raised {A} e.

Definition obind {A B} (o : outcome A) (k : A -> outcome B) : outcome B :=
  match o with
  | Returned a => k a
  | Raised e => Raised e
  end.

(** ** Python string operations *)

Module PyStr.

Local Open Scope string_scope.

(** [s.startswith(p)] *)
Definition startswith (s p : string) : bool := String.prefix p s.

(** [needle in hay]: [needle] occurs as a contiguous substring. *)
Fixpoint py_in (needle hay : string) : bool :=
  String.prefix needle hay ||
  match hay with
  | EmptyString => false
  | String _ rest => py_in needle rest
  end.

(** [s[:n]] for a non-negative literal [n]. *)
Definition slice_to (n : nat) (s : string) : string := String.substring 0 n s.

Definition lower_ascii (c : ascii) : ascii :=
  let n := nat_of_ascii c in
  if (65 <=? n)%nat && (n <=? 90)%nat then ascii_of_nat (n + 32) else c.

(** [s.lower()] *)
Fixpoint lower (s : string) : string :=
  match s with
  | EmptyString => EmptyString
  | String c rest => String (lower_ascii c) (lower rest)
  end.

(** The characters [str.strip()] removes. *)
Definition is_space (c : ascii) : bool :=
  let n := nat_of_ascii c in
  ((9 <=? n)%nat && (n <=? 13)%nat) || ((28 <=? n)%nat && (n <=? 32)%nat).

(** [not s.strip()]: nothing but white space. *)
Fixpoint blank (s : string) : bool :=
  match s with
  | EmptyString => true
  | String c rest => is_space c && blank rest
  end.

(** [sep.join(parts)] *)
Fixpoint join (sep : string) (parts : list string) : string :=
  match parts with
  | [] => ""
  | [p] => p
  | p :: rest => p ++ sep ++ join sep rest
  end.

(** [s.split('/')[-1]]: what follows the last slash. *)
Fixpoint last_segment_acc (acc s : string) : string :=
  match s with
  | EmptyString => acc
  | String c rest =>
      if Ascii.eqb c "/"%char then last_segment_acc "" rest
      else last_segment_acc (acc ++ String c "") rest
  end.

Definition last_segment (s : string) : string := last_segment_acc "" s.

(** Truthiness of a [str]. *)
Definition truthy (s : string) : bool := negb (String.eqb s "").

(** [a or b] on strings. *)
Definition or_else (a b : string) : string := if truthy a then a else b.

End PyStr.

(** ** Python list slicing *)

(** [l[:k]] for an [int] [k]: a negative [k] counts from the end. *)
Definition py_slice_to {A} (l : list A) (k : Z) : list A :=
  if (0 <=? k)%Z then firstn (Z.to_nat k) l
  else firstn (length l - Z.to_nat (- k)) l.

(** ** Vectors and cosine similarity *)

Definition vector := list float.

Local Open Scope float_scope.

(** The sum of products that [np.dot] computes on two 1-D arrays of one
    length, accumulated from the left. *)
Definition dot_value (a b : vector) : float :=
  fold_left (fun acc p => acc + fst p * snd p) (combine a b) 0.

(** [np.dot(a, b)]: 1-D arrays of different lengths are a [ValueError]. *)
Definition np_dot (a b : vector) : outcome float :=
  if (length a =? length b)%nat then Returned (dot_value a b)
  else Raised ValueError.

(** [np.linalg.norm(a)] of a 1-D array: [sqrt(dot(a, a))]. *)
Definition np_linalg_norm (a : vector) : float := sqrt (dot_value a a).

(** [cosine_similarity]: numpy scalars divide by zero without raising (the
    quotient is an infinity or NaN), so the only exception is the one of
    [np.dot]. *)
Definition cosine_similarity (a b : vector) : outcome float :=
  obind (np_dot a b) (fun d =>
  Returned (d / (np_linalg_norm a * np_linalg_norm b))).

(** ** Articles *)

(** One entry of the corpus.  [url], [title], [content], [description],
    [type] and [thumbnail] are written by the crawler for every article;
    [states] and [embedding] are keys that may be absent ([None]). *)
Record article : Type := mk_article {
  url : string;
  title : string;
  content : string;
  description : string;
  type : string;
  thumbnail : string;
  states : option (list string);
  embedding : option vector
}.

(** [article['embedding'] = e] *)
Definition set_embedding (a : article) (e : vector) : article :=
  {| url := url a; title := title a; content := content a;
     description := description a; type := type a; thumbnail := thumbnail a;
     states := states a; embedding := Some e |}.

(** [if embedding:] on an [Optional[List[float]]]: a non-empty list. *)
Definition truthy_vector (o : option vector) : bool :=
  match o with
  | Some (_ :: _) => true
  | _ => false
  end.

(** ['embedding' in article and article['embedding']] *)
Definition has_embedding (a : article) : bool := truthy_vector (embedding a).

(** ['states' in article and article.get('states')] *)
Definition has_states (a : article) : bool :=
  match states a with
  | Some (_ :: _) => true
  | _ => false
  end.

(** ** The outside world *)

Definition WEBSITE_URL : string := "https://ridewithvia.com".
Definition CONTENT_CACHE_FILE : string := "via_website_content.json".
Definition EMBEDDING_MODEL : string := "text-embedding-3-small".

(** What the process shares with its environment: the content of
    [CONTENT_CACHE_FILE] ([None] when the file does not exist), whether that
    file can be opened for writing, how many requests were sent to the remote
    model so far, and how many shuffles the random generator served. *)
Record world : Type := mk_world {
  cache_file : option (list article);
  disk_writable : bool;
  api_calls : nat;
  rng_draws : nat
}.

Record chat_request : Type := mk_chat_request {
  chat_model : string;
  chat_system : string;
  chat_user : string;
  chat_temperature : float;
  chat_max_tokens : nat
}.

(** The remote model.  Each method takes the number of requests sent before
    it, so that two calls on one input may differ; [None] stands for any
    exception raised while the request is made or its reply is unpacked. *)
Record OpenAI : Type := mk_OpenAI {
  embeddings_create : nat -> string -> string -> option vector;
  chat_completions_create : nat -> chat_request -> option string
}.

(** Computations that read and change the world and may raise. *)
Definition M (A : Type) : Type := world -> outcome A * world.

Definition ret {A} (a : A) : M A := fun w => (Returned a, w).

Definition raise {A} (e : exn) : M A := fun w => (Raised e, w).

Definition bind {A B} (m : M A) (k : A -> M B) : M B :=
  fun w =>
    match m w with
    | (Returned a, w') => k a w'
    | (Raised e, w') => (Raised e, w')
    end.

(** [try: m  except Exception: h] *)
Definition try_except {A} (m : M A) (h : exn -> M A) : M A :=
  fun w =>
    match m w with
    | (Returned a, w') => (Returned a, w')
    | (Raised e, w') => h e w'
    end.

Definition lift {A} (o : outcome A) : M A := fun w => (o, w).

Declare Scope py_scope.
Delimit Scope py_scope with py.
Notation "x <- m ;; k" := (bind m (fun x => k))
  (at level 61, m at next level, right associativity) : py_scope.
Notation "' p <- m ;; k" := (bind m (fun x => let p := x in k))
  (at level 61, p pattern, m at next level, right associativity) : py_scope.

Local Open Scope py_scope.

Definition count_request (w : world) : world :=
  {| cache_file := cache_file w; disk_writable := disk_writable w;
     api_calls := S (api_calls w); rng_draws := rng_draws w |}.

(** [client.embeddings.create(model=EMBEDDING_MODEL, input=text).data[0].embedding] *)
Definition request_embedding (client : OpenAI) (text : string) : M vector :=
  fun w =>
    match embeddings_create client (api_calls w) EMBEDDING_MODEL text with
    | Some e => (Returned e, count_request w)
    | None => (Raised APIError, count_request w)
    end.

(** [client.chat.completions.create(...).choices[0].message.content] *)
Definition request_chat (client : OpenAI) (req : chat_request) : M string :=
  fun w =>
    match chat_completions_create client (api_calls w) req with
    | Some s => (Returned s, count_request w)
    | None => (Raised APIError, count_request w)
    end.

(** [with open(CONTENT_CACHE_FILE, 'w') as f: json.dump(articles, f, indent=2)] *)
Definition dump_cache (articles : list article) : M unit :=
  fun w =>
    if disk_writable w then
      (Returned tt,
       {| cache_file := Some articles; disk_writable := disk_writable w;
          api_calls := api_calls w; rng_draws := rng_draws w |})
    else (Raised IOError, w).

(** ** Similarity index *)

(** The text sent to the embedding model: title, description and the first
    500 characters of the content, the empty ones left out. *)
Definition embedding_text (a : article) : string :=
  PyStr.join " "
    ((if PyStr.truthy (title a) then [title a] else []) ++
     (if PyStr.truthy (description a) then [description a] else []) ++
     (if PyStr.truthy (content a) then [PyStr.slice_to 500 (content a)] else [])).

(** [get_article_embedding(article, client, save_to_cache)].  The article is
    a mutable dict: the second component of the result is that same dict as
    it is when the call returns. *)
Definition get_article_embedding (a : article) (client : OpenAI)
    (save_to_cache : bool) : M (option vector * article) :=
  if has_embedding a then ret (embedding a, a)
  else
    let text := embedding_text a in
    if PyStr.blank text then ret (None, a)
    else
      try_except
        (e <- request_embedding client text ;;
         ret (Some e, if save_to_cache then set_embedding a e else a))
        (fun _ => ret (None, a)).

(** [list.sort(key=lambda x: x[0], reverse=True)].  The sort of Python is
    stable, also with [reverse=True], and compares keys with [<] only.  It is
    rendered as a stable insertion sort on [<]; every stable sort returns
    this same list when [<] is a strict weak order on the keys, which it is
    on floats other than NaN. *)
Fixpoint insert_by_score {A} (x : float * A) (l : list (float * A))
    : list (float * A) :=
  match l with
  | [] => [x]
  | y :: rest =>
      if fst x <? fst y then y :: insert_by_score x rest
      else x :: y :: rest
  end.

Definition sort_by_score_reverse {A} (l : list (float * A)) : list (float * A) :=
  fold_right insert_by_score [] l.

(** The [for article in articles] loop of [find_similar_articles]: the
    scored pairs, the counter [embeddings_generated], and the dicts of
    [articles] as the loop leaves them.  The counter is tested on the dict
    after [get_article_embedding] has returned, as in the source. *)
Fixpoint score_articles (query_embedding : vector) (client : OpenAI)
    (articles : list article) : M (list (float * article) * nat * list article) :=
  match articles with
  | [] => ret ([], 0%nat, [])
  | a :: rest =>
      '(emb, a') <- get_article_embedding a client true ;;
      match emb with
      | Some ((_ :: _) as e) =>
          similarity <- lift (cosine_similarity query_embedding e) ;;
          let generated := if negb (has_embedding a') then 1%nat else 0%nat in
          '(scores, embeddings_generated, arts) <-
             score_articles query_embedding client rest ;;
          ret ((similarity, a') :: scores,
               (generated + embeddings_generated)%nat, a' :: arts)
      | _ =>
          '(scores, embeddings_generated, arts) <-
             score_articles query_embedding client rest ;;
          ret ((0, a') :: scores, embeddings_generated, a' :: arts)
      end
  end.

(** [find_similar_articles(query, articles, client, top_k)].  Returns the
    ranked articles together with the list [articles] as the call leaves it
    (its dicts are updated in place). *)
Definition find_similar_articles (query : string) (articles : list article)
    (client : OpenAI) (top_k : Z) : M (list article * list article) :=
  q <- try_except
         (query_embedding <- request_embedding client query ;;
          ret (Some query_embedding))
         (fun _ => ret None) ;;
  match q with
  | None => ret (py_slice_to articles top_k, articles)
  | Some query_embedding =>
      '(article_scores, embeddings_generated, arts) <-
         score_articles query_embedding client articles ;;
      _ <- (if (0 <? embeddings_generated)%nat
            then try_except (dump_cache arts) (fun _ => ret tt)
            else ret tt) ;;
      ret (map snd (py_slice_to (sort_by_score_reverse article_scores) top_k),
           arts)
  end.

(** ** URLs *)

(** The components the specification speaks of: the authority and the path
    of a URL, split as [urllib.parse.urlsplit] does for the URLs met here
    (RFC 3986, section 3). *)
Module Url.

Local Open Scope string_scope.

Fixpoint span (p : ascii -> bool) (s : string) : string * string :=
  match s with
  | EmptyString => ("", "")
  | String c rest =>
      if p c then let (a, b) := span p rest in (String c a, b)
      else ("", s)
  end.

Definition is_scheme_char (c : ascii) : bool :=
  let n := nat_of_ascii c in
  ((97 <=? n)%nat && (n <=? 122)%nat) || ((65 <=? n)%nat && (n <=? 90)%nat) ||
  ((48 <=? n)%nat && (n <=? 57)%nat) ||
  Ascii.eqb c "+" || Ascii.eqb c "-" || Ascii.eqb c ".".

Definition ends_authority (c : ascii) : bool :=
  Ascii.eqb c "/" || Ascii.eqb c "?" || Ascii.eqb c "#".

Definition ends_path (c : ascii) : bool :=
  Ascii.eqb c "?" || Ascii.eqb c "#".

(** The scheme and what follows its colon. *)
Definition split_scheme (u : string) : string * string :=
  match span is_scheme_char u with
  | (String c sch, String ":" rest) => (String c sch, rest)
  | _ => ("", u)
  end.

(** The authority and what follows it. *)
Definition split_authority (s : string) : string * string :=
  match s with
  | String "/" (String "/" rest) => span (fun c => negb (ends_authority c)) rest
  | _ => ("", s)
  end.

Definition netloc (u : string) : string :=
  fst (split_authority (snd (split_scheme u))).

Definition path (u : string) : string :=
  fst (span (fun c => negb (ends_path c)) (snd (split_authority (snd (split_scheme u))))).

End Url.

(** ** Crawler: link discovery *)

Module Crawler.

Local Open Scope string_scope.

(** An [<a href=...>] element: [link.get('href')],
    [link.get_text(strip=True)], [link.get('title', '')] and
    [link.get('aria-label', '')]. *)
Record anchor : Type := mk_anchor {
  href : string;
  anchor_text : string;
  title_attr : string;
  aria_label : string
}.

(** The three collections of phase 1 of [scrape_website_content];
    [seen_urls] is a set, kept as a list and asked for membership only. *)
Record crawl_state : Type := mk_crawl_state {
  urls_to_visit : list string;
  seen_urls : list string;
  articles : list article
}.

Definition in_set (x : string) (s : list string) : bool :=
  existsb (String.eqb x) s.

Definition content_paths : list string :=
  ["/blog/"; "/resources/"; "/solutions/"; "/audience/"; "/case-studies/";
   "/about/"].

(** The [if]/[elif] chain that sets [article_type]. *)
Definition article_type (full_url : string) : string :=
  if PyStr.py_in "/blog/" full_url then "blog"
  else if PyStr.py_in "/resources/" full_url then "resource"
  else if PyStr.py_in "/case-studies/" full_url then "case-study"
  else if PyStr.py_in "/solutions/" full_url then "solution"
  else if PyStr.py_in "/audience/" full_url then "audience"
  else "page".

Section Discovery.

(** [urllib.parse.urljoin], a library function. *)
Variable urljoin : string -> string -> string.

(** "Normalize URL": [None] is the [continue] of the last branch. *)
Definition normalize_url (href : string) : option string :=
  if PyStr.startswith href "/" then Some (urljoin WEBSITE_URL href)
  else if PyStr.startswith href "http" && PyStr.py_in "ridewithvia.com" href
  then Some href
  else None.

(** The title of a discovered link: its text or attributes, else the
    title of the page that carries it, else the last URL segment. *)
Definition link_title (soup_title : option string) (link : anchor)
    (full_url : string) : string :=
  let title :=
    PyStr.or_else (anchor_text link)
      (PyStr.or_else (title_attr link) (aria_label link)) in
  if negb (PyStr.truthy title) || (String.length title <? 5)%nat then
    match soup_title with
    | Some t => t
    | None => PyStr.last_segment full_url
    end
  else title.

(** The body of [for link in soup.find_all('a', href=True)]. *)
Definition discover_link (soup_title : option string) (st : crawl_state)
    (link : anchor) : crawl_state :=
  if negb (PyStr.truthy (href link)) then st
  else
    match normalize_url (href link) with
    | None => st
    | Some full_url =>
        if PyStr.py_in "ridewithvia.com" full_url &&
           negb (in_set full_url (seen_urls st)) then
          if existsb (fun p => PyStr.py_in p full_url) content_paths then
            let title := link_title soup_title link full_url in
            {| urls_to_visit := urls_to_visit st ++ [full_url];
               seen_urls := full_url :: seen_urls st;
               articles :=
                 if PyStr.truthy title && (5 <? String.length title)%nat &&
                    (String.length title <? 300)%nat
                 then
                   articles st ++
                     [ {| url := full_url; title := title; content := "";
                          description := "";
                          type := article_type full_url;
                          thumbnail := ""; states := None;
                          embedding := None |} ]
                 else articles st |}
          else st
        else st
    end.

(** All the links of one fetched page, in document order. *)
Definition discover_page (soup_title : option string) (links : list anchor)
    (st : crawl_state) : crawl_state :=
  fold_left (discover_link soup_title) links st.

End Discovery.

End Crawler.

(** ** Geography *)

Set Warnings "-inexact-float".

Local Open Scope string_scope.
Local Open Scope float_scope.

(** Approximate centre of every state, as (latitude, longitude); the
    decimal constants denote the nearest binary64 values, as in Python. *)
Definition STATE_COORDINATES : list (string * (float * float)) :=
  [
    ("AL", (32.806671, -86.791130));
    ("AK", (61.370716, -152.404419));
    ("AZ", (33.729759, -111.431221));
    ("AR", (34.969704, -92.373123));
    ("CA", (36.116203, -119.681564));
    ("CO", (39.059811, -105.311104));
    ("CT", (41.597782, -72.755371));
    ("DE", (39.318523, -75.507141));
    ("FL", (27.766279, -81.686783));
    ("GA", (33.040619, -83.643074));
    ("HI", (21.094318, -157.498337));
    ("ID", (44.240459, -114.478828));
    ("IL", (40.349457, -88.986137));
    ("IN", (39.849426, -86.258278));
    ("IA", (42.011539, -93.210526));
    ("KS", (38.526600, -96.726486));
    ("KY", (37.668140, -84.670067));
    ("LA", (31.169546, -91.867805));
    ("ME", (44.323535, -69.765261));
    ("MD", (39.063946, -76.802101));
    ("MA", (42.230171, -71.530106));
    ("MI", (43.326618, -84.536095));
    ("MN", (45.694454, -93.900192));
    ("MS", (32.741646, -89.678696));
    ("MO", (38.572954, -92.189283));
    ("MT", (46.921925, -110.454353));
    ("NE", (41.125370, -98.268082));
    ("NV", (38.313515, -117.055374));
    ("NH", (43.452492, -71.563896));
    ("NJ", (40.298904, -74.521011));
    ("NM", (34.840515, -106.248482));
    ("NY", (42.165726, -74.948051));
    ("NC", (35.630066, -79.806419));
    ("ND", (47.528912, -99.784012));
    ("OH", (40.388783, -82.764915));
    ("OK", (35.565342, -96.928917));
    ("OR", (44.572021, -122.070938));
    ("PA", (40.590752, -77.209755));
    ("RI", (41.680893, -71.51178));
    ("SC", (33.856892, -80.945007));
    ("SD", (44.299782, -99.438828));
    ("TN", (35.747845, -86.692345));
    ("TX", (31.054487, -97.563461));
    ("UT", (40.150032, -111.892622));
    ("VT", (44.045876, -72.710686));
    ("VA", (37.769337, -78.169968));
    ("WA", (47.400902, -121.490494));
    ("WV", (38.491226, -80.954453));
    ("WI", (44.268543, -89.616508));
    ("WY", (42.755966, -107.302490));
    ("DC", (38.907192, -77.036873))
  ]%float.

(** [d.get(k)] on a dict with [str] keys, kept as an association list. *)
Fixpoint dict_get {V} (d : list (string * V)) (k : string) : option V :=
  match d with
  | [] => None
  | (k', v) :: rest => if String.eqb k k' then Some v else dict_get rest k
  end.

(** The functions of the C math library behind [math.sin], [math.cos],
    [math.atan2] and the [**] of floats. *)
Record Libm : Type := mk_Libm {
  libm_sin : float -> float;
  libm_cos : float -> float;
  libm_atan2 : float -> float -> float;
  libm_pow : float -> float -> float
}.

(** [math.sqrt]: a negative argument is a [ValueError]. *)
Definition math_sqrt (x : float) : outcome float :=
  if x <? 0 then Raised ValueError else Returned (sqrt x).

(** [math.radians]: multiplication by pi/180. *)
Definition radians (x : float) : float := x * 0.017453292519943295.

(** [calculate_distance]: the Haversine formula, in miles. *)
Definition calculate_distance (m : Libm) (lat1 lon1 lat2 lon2 : float)
    : outcome float :=
  let R := 3959 in
  let lat1 := radians lat1 in
  let lon1 := radians lon1 in
  let lat2 := radians lat2 in
  let lon2 := radians lon2 in
  let dlat := lat2 - lat1 in
  let dlon := lon2 - lon1 in
  let a := libm_pow m (libm_sin m (dlat / 2)) 2
           + libm_cos m lat1 * libm_cos m lat2
             * libm_pow m (libm_sin m (dlon / 2)) 2 in
  obind (math_sqrt a) (fun sa =>
  obind (math_sqrt (1 - a)) (fun sb =>
  let c := 2 * libm_atan2 m sa sb in
  Returned (R * c))).

(** [x <= n] for a float [x] and an int [n]: Python compares the two exact
    values. *)
Definition float_le_int (x : float) (n : Z) : bool :=
  match Prim2SF x with
  | S754_nan => false
  | S754_infinity s => s
  | S754_zero _ => (0 <=? n)%Z
  | S754_finite s mant e =>
      let v := if s then Z.neg mant else Z.pos mant in
      if (0 <=? e)%Z then (v * 2 ^ e <=? n)%Z
      else (v <=? n * 2 ^ (- e))%Z
  end.

(** [random.shuffle], as the permutation it leaves behind; the first
    argument is the number of shuffles served before. *)
Record Random : Type := mk_Random {
  random_shuffle : nat -> list article -> list article
}.

Definition shuffle (rng : Random) (l : list article) : M (list article) :=
  fun w =>
    (Returned (random_shuffle rng (rng_draws w) l),
     {| cache_file := cache_file w; disk_writable := disk_writable w;
        api_calls := api_calls w; rng_draws := S (rng_draws w) |}).

(** The [for state in article['states']] loop with its [break]: is one of
    the states within [max_distance] miles? *)
Fixpoint any_state_within (m : Libm) (user_lat user_lon : float)
    (max_distance : Z) (sts : list string) : outcome bool :=
  match sts with
  | [] => Returned false
  | state :: rest =>
      match dict_get STATE_COORDINATES state with
      | Some (state_lat, state_lon) =>
          obind (calculate_distance m user_lat user_lon state_lat state_lon)
            (fun distance =>
               if float_le_int distance max_distance then Returned true
               else any_state_within m user_lat user_lon max_distance rest)
      | None => any_state_within m user_lat user_lon max_distance rest
      end
  end.

(** The [for article in articles_with_states] loop that fills [filtered]. *)
Fixpoint location_matches (m : Libm) (user_lat user_lon : float)
    (max_distance : Z) (articles_with_states : list article)
    : outcome (list article) :=
  match articles_with_states with
  | [] => Returned []
  | a :: rest =>
      obind (any_state_within m user_lat user_lon max_distance
               (match states a with Some sts => sts | None => [] end))
        (fun near =>
      obind (location_matches m user_lat user_lon max_distance rest)
        (fun filtered =>
      Returned (if near then a :: filtered else filtered)))
  end.

(** [get_articles_by_location(articles, user_state, max_distance)] *)
Definition get_articles_by_location (m : Libm) (rng : Random)
    (articles : list article) (user_state : string) (max_distance : Z)
    : M (list article) :=
  match dict_get STATE_COORDINATES user_state with
  | None => ret articles
  | Some (user_lat, user_lon) =>
      let articles_with_states := filter has_states articles in
      let articles_without_states :=
        filter (fun a => negb (has_states a)) articles in
      filtered <- lift (location_matches m user_lat user_lon max_distance
                          articles_with_states) ;;
      if (4 <=? length filtered)%nat then ret filtered
      else if (0 <? length filtered)%nat then
        let remaining_needed := (4 - length filtered)%nat in
        ret (filtered ++ firstn remaining_needed articles_without_states)%list
      else
        shuffled <- shuffle rng articles_without_states ;;
        ret (firstn 10 shuffled)
  end.

(** ** Recommender *)

Definition option_eqb {A} (eqb : A -> A -> bool) (x y : option A) : bool :=
  match x, y with
  | Some a, Some b => eqb a b
  | None, None => true
  | _, _ => false
  end.

Fixpoint list_eqb {A} (eqb : A -> A -> bool) (l1 l2 : list A) : bool :=
  match l1, l2 with
  | [], [] => true
  | a :: r1, b :: r2 => eqb a b && list_eqb eqb r1 r2
  | _, _ => false
  end.

(** Equality of two article dicts: the same keys with equal values. *)
Definition article_eqb (a b : article) : bool :=
  String.eqb (url a) (url b) && String.eqb (title a) (title b) &&
  String.eqb (content a) (content b) &&
  String.eqb (description a) (description b) &&
  String.eqb (type a) (type b) && String.eqb (thumbnail a) (thumbnail b) &&
  option_eqb (list_eqb String.eqb) (states a) (states b) &&
  option_eqb (list_eqb PrimFloat.Leibniz.eqb) (embedding a) (embedding b).

(** [a in l] on a list of dicts. *)
Definition py_list_in (a : article) (l : list article) : bool :=
  existsb (article_eqb a) l.

(** The dict that [recommend_articles] returns; [None] in [case_studies] is
    the [None] of Python. *)
Record recommendation : Type := mk_recommendation {
  general : list article;
  case_studies : option (list article)
}.

Definition city_keywords : list string :=
  ["microtransit"; "paratransit"; "city"; "municipal"; "urban"].

Definition agency_keywords : list string :=
  ["paratransit"; "transit"; "agency"; "public transportation"].

(** One of the keywords occurs in the lowered content, title or
    description. *)
Definition mentions_any (keywords : list string) (a : article) : bool :=
  existsb
    (fun keyword =>
       PyStr.py_in keyword (PyStr.lower (content a)) ||
       PyStr.py_in keyword (PyStr.lower (title a)) ||
       PyStr.py_in keyword (PyStr.lower (description a)))
    keywords.

(** The condition of the [case_studies] comprehension. *)
Definition is_case_study (a : article) : bool :=
  PyStr.py_in "case-study" (PyStr.lower (type a)) ||
  PyStr.py_in "case study" (PyStr.lower (title a)) ||
  PyStr.py_in "case study" (PyStr.slice_to 500 (PyStr.lower (content a))) ||
  PyStr.py_in "/case-studies/" (PyStr.lower (url a)) ||
  PyStr.py_in "-case-study" (PyStr.lower (url a)) ||
  PyStr.py_in "case-study" (PyStr.lower (url a)) ||
  (PyStr.py_in "success story" (PyStr.lower (title a)) ||
   PyStr.py_in "success story" (PyStr.slice_to 500 (PyStr.lower (content a)))).

Definition nl : string := String (ascii_of_nat 10) "".

(** [str(n)] *)
Definition decimal (n : nat) : string :=
  NilEmpty.string_of_uint (Nat.to_uint n).

Fixpoint enumerate_from {A} (i : nat) (l : list A) : list (nat * A) :=
  match l with
  | [] => []
  | a :: rest => (i, a) :: enumerate_from (S i) rest
  end.

Definition is_digit (c : ascii) : bool :=
  let n := nat_of_ascii c in (48 <=? n)%nat && (n <=? 57)%nat.

(** [re.findall(r'\d+', s)]: the maximal runs of digits; [cur] is the run
    being read. *)
Fixpoint digit_runs (cur s : string) : list string :=
  match s with
  | EmptyString => if PyStr.truthy cur then [cur] else []
  | String c rest =>
      if is_digit c then digit_runs (cur ++ String c "") rest
      else ((if PyStr.truthy cur then [cur] else []) ++ digit_runs "" rest)%list
  end.

(** [int(x)] for a run of digits. *)
Fixpoint int_of_digits_acc (acc : Z) (x : string) : Z :=
  match x with
  | EmptyString => acc
  | String c rest =>
      int_of_digits_acc (10 * acc + Z.of_nat (nat_of_ascii c - 48)) rest
  end.

Definition int_of_digits (x : string) : Z := int_of_digits_acc 0 x.

(** [[int(x) - 1 for x in numbers[:n] if 0 <= int(x) - 1 < size]] *)
Definition selected_indices (n : nat) (reply : string) (size : nat) : list nat :=
  flat_map
    (fun x =>
       let i := (int_of_digits x - 1)%Z in
       if (0 <=? i)%Z && (i <? Z.of_nat size)%Z then [Z.to_nat i] else [])
    (firstn n (digit_runs "" reply)).

(** [[candidates[i] for i in indices]] for indices within range. *)
Definition pick (candidates : list article) (indices : list nat) : list article :=
  flat_map
    (fun i => match nth_error candidates i with Some a => [a] | None => [] end)
    indices.

(** What is kept of the candidates after the model replied: the articles
    it numbered, or the first [n] when it numbered none. *)
Definition select_from_reply (n : nat) (candidates : list article)
    (reply : string) : list article :=
  match selected_indices n reply (length candidates) with
  | [] => firstn n candidates
  | indices => pick candidates (firstn n indices)
  end.

Definition general_prompt (user_type user_state : string)
    (general_articles : list article) : string :=
  let articles_summary :=
    PyStr.join nl
      (map (fun ia => decimal (fst ia + 1) ++ ". " ++ title (snd ia) ++ " - "
                      ++ description (snd ia))
           (enumerate_from 0 (firstn 30 general_articles))) in
  let user_type_display :=
    if String.eqb user_type "city" then "city" else "transit agency" in
  "Select the top 3 most relevant articles for a " ++ user_type_display
  ++ " in " ++ user_state ++ ":" ++ nl ++ nl ++ articles_summary ++ nl ++ nl
  ++ "Return only the numbers (1-30) of the top 3 articles, separated by commas.".

Definition case_study_prompt (user_state : string)
    (location_case_studies : list article) : string :=
  let articles_summary :=
    PyStr.join nl
      (map (fun ia =>
              decimal (fst ia + 1) ++ ". " ++ title (snd ia) ++ " - Location: "
              ++ match states (snd ia) with
                 | Some (s :: _) => s
                 | _ => "Unknown"
                 end
              ++ " - " ++ description (snd ia))
           (enumerate_from 0 (firstn 30 location_case_studies))) in
  "Select the top 4 most relevant case studies for " ++ user_state
  ++ ". Prioritize case studies from " ++ user_state ++ " or nearby states:"
  ++ nl ++ nl ++ articles_summary ++ nl ++ nl
  ++ "Return only the numbers (1-30) of the top 4 articles, separated by commas.".

Definition selection_request (prompt : string) : chat_request :=
  {| chat_model := "gpt-4";
     chat_system := "Return only numbers separated by commas, no other text.";
     chat_user := prompt;
     chat_temperature := 0.3;
     chat_max_tokens := 30 |}.

(** [recommend_articles(articles, user_type, user_state, client)] *)
Definition recommend_articles (m : Libm) (rng : Random)
    (articles : list article) (user_type user_state : string)
    (client : OpenAI) : M recommendation :=
  match articles with
  | [] => ret {| general := []; case_studies := Some [] |}
  | _ :: _ =>
      let relevant_articles :=
        if String.eqb user_type "city"
        then filter (mentions_any city_keywords) articles
        else if String.eqb user_type "transit_agency"
        then filter (mentions_any agency_keywords) articles
        else articles in
      let studies := filter is_case_study relevant_articles in
      let general_articles :=
        filter (fun a => negb (py_list_in a studies)) relevant_articles in
      selected_general <-
        (if (length general_articles <=? 3)%nat then ret general_articles
         else
           try_except
             (reply <- request_chat client
                         (selection_request
                            (general_prompt user_type user_state general_articles)) ;;
              ret (select_from_reply 3 general_articles reply))
             (fun _ => ret (firstn 3 general_articles))) ;;
      selected_case_studies <-
        (match studies with
         | [] => ret None
         | _ :: _ =>
             location_case_studies <-
               get_articles_by_location m rng studies user_state 500 ;;
             match location_case_studies with
             | [] => ret None
             | _ :: _ =>
                 if (length location_case_studies <=? 4)%nat
                 then ret (Some location_case_studies)
                 else
                   try_except
                     (reply <- request_chat client
                                 (selection_request
                                    (case_study_prompt user_state
                                       location_case_studies)) ;;
                      ret (Some (select_from_reply 4 location_case_studies reply)))
                     (fun _ => ret (Some (firstn 4 location_case_studies)))
             end
         end) ;;
      ret {| general := selected_general;
             case_studies := selected_case_studies |}
  end.

(** ** Vocabulary of the properties *)

(** The score the ranking loop gives an article, read off the dict as the
    loop leaves it: the cosine of its vector with the query's, and [0.0]
    when it carries no vector. *)
Definition similarity_score (q : vector) (a : article) : float :=
  match embedding a with
  | Some ((_ :: _) as e) =>
      match cosine_similarity q e with
      | Returned r => r
      | Raised _ => 0
      end
  | _ => 0
  end.

(** A stored or returned vector can be scored against the query vector
    [q]: it has the dimension of [q] and its cosine with [q] is a number.
    A missing or empty vector needs no scoring. *)
Definition scorable (q : vector) (o : option vector) : bool :=
  match o with
  | Some ((_ :: _) as e) =>
      match cosine_similarity q e with
      | Returned r => negb (is_nan r)
      | Raised _ => false
      end
  | _ => true
  end.

(** [a'] is the dict [a], possibly with an embedding stored in it. *)
Definition same_document (a a' : article) : Prop :=
  a' = a \/ exists e, a' = set_embedding a e.

(** [ranking] lists the articles [arts] by non-increasing score, articles
    of equal score in the order they have in [arts]. *)
Record ranking_of (q : vector) (arts ranking : list article) : Prop := {
  ranking_perm : Permutation ranking arts;
  ranking_sorted :
    StronglySorted
      (fun a b => (similarity_score q b <=? similarity_score q a) = true)
      ranking;
  ranking_stable :
    forall s, filter (fun a => similarity_score q a =? s) ranking
              = filter (fun a => similarity_score q a =? s) arts
}.

(** The state [state] has no coordinates, or lies further from the user
    than [max_distance] miles. *)
Definition beyond_bound (m : Libm) (user_lat user_lon : float)
    (max_distance : Z) (state : string) : Prop :=
  match dict_get STATE_COORDINATES state with
  | None => True
  | Some (state_lat, state_lon) =>
      exists d,
        calculate_distance m user_lat user_lon state_lat state_lon = Returned d /\
        float_le_int d max_distance = false
  end.

(** The first scored pair has at least the score of the second. *)
Definition score_ge {A} (x y : float * A) : Prop := (fst y <=? fst x) = true.

Definition not_nan (x : float) : Prop := is_nan x = false.

Definition sf_zero (x : float) : Prop := exists s, Prim2SF x = S754_zero s.

Definition sf_zero_or_nan (x : float) : Prop :=
  match Prim2SF x with
  | S754_zero _ | S754_nan => True
  | _ => False
  end.

Definition sf_not_finite (x : float) : Prop :=
  match Prim2SF x with
  | S754_infinity _ | S754_nan => True
  | _ => False
  end.

(** A key whose lexicographic order is the order of the floats that are
    not NaN. *)
Definition float_key (x : spec_float) : Z * Z * Z :=
  match x with
  | S754_zero _ => (0, 0, 0)
  | S754_infinity s => (if s then -2 else 2, 0, 0)
  | S754_nan => (0, 0, 0)
  | S754_finite s m e => if s then (-1, - e, Z.neg m) else (1, e, Z.pos m)
  end%Z.

Definition key_compare (k1 k2 : Z * Z * Z) : comparison :=
  let '(a1, b1, c1) := k1 in
  let '(a2, b2, c2) := k2 in
  match (a1 ?= a2)%Z with
  | Eq => match (b1 ?= b2)%Z with Eq => (c1 ?= c2)%Z | r => r end
  | r => r
  end.

Definition key_le (k1 k2 : Z * Z * Z) : Prop :=
  let '(a1, b1, c1) := k1 in
  let '(a2, b2, c2) := k2 in
  (a1 < a2 \/ (a1 = a2 /\ (b1 < b2 \/ (b1 = b2 /\ c1 <= c2))))%Z.

(** ** Sample data *)

Module Samples.

Definition blog_post : article :=
  {| url := "https://ridewithvia.com/blog/microtransit-101";
     title := "Microtransit 101";
     content := "How on-demand transit works in a mid-sized city.";
     description := "An introduction to microtransit";
     type := "blog"; thumbnail := ""; states := None; embedding := None |}.

Definition aligned_post : article :=
  {| url := "https://ridewithvia.com/resources/paratransit-guide";
     title := "Paratransit guide";
     content := "Planning paratransit for a transit agency.";
     description := "";
     type := "resource"; thumbnail := ""; states := None;
     embedding := Some [1; 0] |}.

Definition opposite_post : article :=
  {| url := "https://ridewithvia.com/solutions/school-buses";
     title := "School bus routing";
     content := "Routing software for school districts.";
     description := "";
     type := "solution"; thumbnail := ""; states := None;
     embedding := Some [-1] |}.

Definition far_study : article :=
  {| url := "https://ridewithvia.com/case-studies/san-juan";
     title := "Case study: San Juan";
     content := "On-demand transit in San Juan.";
     description := "";
     type := "case-study"; thumbnail := ""; states := Some ["PR"];
     embedding := None |}.

Definition maine_study : article :=
  {| url := "https://ridewithvia.com/case-studies/portland-me";
     title := "Case study: Portland";
     content := "Paratransit in Portland, Maine.";
     description := "";
     type := "case-study"; thumbnail := ""; states := Some ["ME"];
     embedding := None |}.

Definition untagged_study : article :=
  {| url := "https://ridewithvia.com/case-studies/on-demand";
     title := "Case study: on-demand transit";
     content := "A city replaces fixed routes.";
     description := "";
     type := "case-study"; thumbnail := ""; states := None;
     embedding := None |}.

(** An article stored with the zero vector as its embedding. *)
Definition zero_post : article :=
  {| url := "https://ridewithvia.com/blog/empty-draft";
     title := "Draft";
     content := "";
     description := "";
     type := "blog"; thumbnail := ""; states := None;
     embedding := Some [0; 0] |}.

Definition matching_post : article :=
  {| url := "https://ridewithvia.com/blog/what-is-microtransit";
     title := "What is microtransit";
     content := "Microtransit, explained.";
     description := "";
     type := "blog"; thumbnail := ""; states := None;
     embedding := Some [0.6; 0.8] |}.

(** A case study whose ['states'] key is present and holds the empty list. *)
Definition empty_tags_study : article :=
  {| url := "https://ridewithvia.com/case-studies/rural-transit";
     title := "Case study: rural transit";
     content := "Demand-responsive transit in rural counties.";
     description := "";
     type := "case-study"; thumbnail := ""; states := Some [];
     embedding := None |}.

(** A model that embeds every text as the same unit vector. *)
Definition steady_client : OpenAI :=
  {| embeddings_create := fun _ _ _ => Some [0.6; 0.8];
     chat_completions_create := fun _ _ => None |}.

(** A model that embeds the query below and fails on any other text. *)
Definition query_only_client : OpenAI :=
  {| embeddings_create :=
       fun _ _ text =>
         if String.eqb text "school bus routing" then Some [1] else None;
     chat_completions_create := fun _ _ => None |}.

Definition fresh_world : world :=
  {| cache_file := None; disk_writable := true; api_calls := 0;
     rng_draws := 0 |}.

(** The snapshot holds the blog post, without an embedding. *)
Definition cached_world : world :=
  {| cache_file := Some [blog_post]; disk_writable := true; api_calls := 0;
     rng_draws := 0 |}.

(** A share button as blog pages carry them. *)
Definition share_link : Crawler.anchor :=
  {| Crawler.href :=
       "https://www.linkedin.com/shareArticle?url=https://ridewithvia.com/blog/microtransit-101";
     Crawler.anchor_text := "Share on LinkedIn";
     Crawler.title_attr := "";
     Crawler.aria_label := "" |}.

Definition empty_crawl : Crawler.crawl_state :=
  {| Crawler.urls_to_visit := []; Crawler.seen_urls := [];
     Crawler.articles := [] |}.

(** Small-angle stand-ins for the math library. *)
Definition crude_libm : Libm :=
  {| libm_sin := fun x => x; libm_cos := fun _ => 1;
     libm_atan2 := fun y x => y / x; libm_pow := fun x _ => x * x |}.

Definition reversing_rng : Random :=
  {| random_shuffle := fun _ l => rev l |}.

End Samples.

(** * Further parts of the program

    The discovery loop of the crawler, the loop of phase 2 that fills the
    discovered articles, the answers of [query_website_content] with their
    log, and the export script [export_cache_list.py].

    - the site is the function [Crawl.Site] from a URL to what phase 1 reads
      off the page fetched from it, and the function [Scrape.Pages] from a
      URL to what phase 2 reads off it;
    - the name [re] is a local variable of [scrape_website_content], since
      the function imports the module in its body (line 382): whether it is
      bound is part of the state of the loop of phase 2;
    - the session log and the log file are the record [journal]; the clock,
      the spreadsheet service and the state of the disk are the record
      [Logger]. *)

From Stdlib Require DecimalNat.

(** ** Crawler: the discovery loop *)

Module Crawl.

(** What phase 1 reads off a fetched page: the text of its [<title>]
    element, if it has one, and its anchors with an [href], in document
    order. *)
Record page : Type := mk_page {
  page_title : option string;
  page_links : list Crawler.anchor
}.

(** The site as the crawler sees it: [requests.get] followed by
    [raise_for_status], the test of the content type and the parse.  [None]
    stands for a request that raises and for a reply that is not HTML; the
    loop goes on to the next URL in both cases. *)
Definition Site : Type := string -> option page.

Definition seed_urls : list string :=
  ["/"; "/audience/"; "/solutions/"; "/solutions/microtransit/";
   "/solutions/paratransit/"; "/solutions/on-demand-transit/"; "/resources/";
   "/blog/"; "/case-studies/"; "/about/"].

Definition max_pages : nat := 200.

(** The variables of the [while] loop, and the URLs requested so far. *)
Record discovery : Type := mk_discovery {
  crawl : Crawler.crawl_state;
  visited_count : nat;
  requested : list string
}.

(** The [while urls_to_visit and visited_count < max_pages] loop of phase
    1, run for at most [fuel] iterations; [None] when they do not
    suffice. *)
Fixpoint discover (fuel : nat) (urljoin : string -> string -> string)
    (site : Site) (d : discovery) : option discovery :=
  match fuel with
  | O => None
  | S fuel' =>
      match Crawler.urls_to_visit (crawl d) with
      | [] => Some d
      | current_url :: rest =>
          if (visited_count d <? max_pages)%nat then
            if Crawler.in_set current_url (Crawler.seen_urls (crawl d)) then
              discover fuel' urljoin site
                {| crawl :=
                     {| Crawler.urls_to_visit := rest;
                        Crawler.seen_urls := Crawler.seen_urls (crawl d);
                        Crawler.articles := Crawler.articles (crawl d) |};
                   visited_count := visited_count d;
                   requested := requested d |}
            else
              let popped :=
                {| Crawler.urls_to_visit := rest;
                   Crawler.seen_urls := current_url :: Crawler.seen_urls (crawl d);
                   Crawler.articles := Crawler.articles (crawl d) |} in
              discover fuel' urljoin site
                {| crawl :=
                     match site current_url with
                     | Some pg =>
                         Crawler.discover_page urljoin (page_title pg)
                           (page_links pg) popped
                     | None => popped
                     end;
                   visited_count := S (visited_count d);
                   requested := (requested d ++ [current_url])%list |}
          else Some d
      end
  end.

(** Phase 1 from its start: the seeds queued, nothing seen, no article. *)
Definition start (urljoin : string -> string -> string) : discovery :=
  {| crawl :=
       {| Crawler.urls_to_visit := map (urljoin WEBSITE_URL) seed_urls;
          Crawler.seen_urls := [];
          Crawler.articles := [] |};
     visited_count := 0;
     requested := [] |}.

End Crawl.

(** ** Crawler: state tags

    Lines 358 to 412 of the loop of phase 2, which follow the patterns of
    lines 324 to 356; what these patterns leave in [location_text] is an
    argument, as is the order in which a [set] is listed.  [Scrape] below
    places them in the loop. *)

Module States.

Definition full_state_names : list (string * string) :=
  [("alabama", "AL"); ("alaska", "AK"); ("arizona", "AZ");
   ("arkansas", "AR"); ("california", "CA"); ("colorado", "CO");
   ("connecticut", "CT"); ("delaware", "DE"); ("florida", "FL");
   ("georgia", "GA"); ("hawaii", "HI"); ("idaho", "ID"); ("illinois", "IL");
   ("indiana", "IN"); ("iowa", "IA"); ("kansas", "KS"); ("kentucky", "KY");
   ("louisiana", "LA"); ("maine", "ME"); ("maryland", "MD");
   ("massachusetts", "MA"); ("michigan", "MI"); ("minnesota", "MN");
   ("mississippi", "MS"); ("missouri", "MO"); ("montana", "MT");
   ("nebraska", "NE"); ("nevada", "NV"); ("new hampshire", "NH");
   ("new jersey", "NJ"); ("new mexico", "NM"); ("new york", "NY");
   ("north carolina", "NC"); ("north dakota", "ND"); ("ohio", "OH");
   ("oklahoma", "OK"); ("oregon", "OR"); ("pennsylvania", "PA");
   ("rhode island", "RI"); ("south carolina", "SC"); ("south dakota", "SD");
   ("tennessee", "TN"); ("texas", "TX"); ("utah", "UT"); ("vermont", "VT");
   ("virginia", "VA"); ("washington", "WA"); ("west virginia", "WV");
   ("wisconsin", "WI"); ("wyoming", "WY"); ("district of columbia", "DC");
   ("washington dc", "DC"); ("dc", "DC")].

(** A character that [\w] matches in ASCII text. *)
Definition is_word_char (c : ascii) : bool :=
  let n := nat_of_ascii c in
  ((48 <=? n)%nat && (n <=? 57)%nat) || ((65 <=? n)%nat && (n <=? 90)%nat) ||
  ((97 <=? n)%nat && (n <=? 122)%nat) || (n =? 95)%nat.

(** [word] is read at the start of [s] and no word character follows it. *)
Fixpoint matches_here (ignore_case : bool) (word s : string) : bool :=
  match word, s with
  | EmptyString, EmptyString => true
  | EmptyString, String c _ => negb (is_word_char c)
  | String _ _, EmptyString => false
  | String a word', String c s' =>
      (if ignore_case
       then Ascii.eqb (PyStr.lower_ascii a) (PyStr.lower_ascii c)
       else Ascii.eqb a c)
      && matches_here ignore_case word' s'
  end.

Fixpoint search_from (ignore_case : bool) (word : string) (after_word_char : bool)
    (s : string) : bool :=
  (negb after_word_char && matches_here ignore_case word s) ||
  match s with
  | EmptyString => false
  | String c s' => search_from ignore_case word (is_word_char c) s'
  end.

(** [re.search(r'\b' + re.escape(word) + r'\b', text)], with
    [re.IGNORECASE] when [ignore_case] is set, for a [word] that begins and
    ends with a letter: [word] occurs in [text] with no word character
    before it and none after it. *)
Definition re_search_word (word text : string) (ignore_case : bool) : bool :=
  search_from ignore_case word false text.

(** [mentioned_states] after the structured location was looked up;
    [location_text] is what the patterns found on the page, if anything. *)
Definition location_states (location_text : option string) : list string :=
  match location_text with
  | Some text =>
      if PyStr.truthy text then
        match dict_get full_state_names (PyStr.lower text) with
        | Some state_abbr => [state_abbr]
        | None => []
        end
      else []
  | None => []
  end.

(** The [for state_abbr in STATE_COORDINATES.keys()] loop. *)
Definition abbreviations_in (content_full : string) : list string :=
  filter (fun state_abbr => re_search_word state_abbr content_full true)
    (map fst STATE_COORDINATES).

(** The [for state_name, state_abbr in full_state_names.items()] loop. *)
Fixpoint names_in (content_lower : string) (names : list (string * string))
    (mentioned_states : list string) : list string :=
  match names with
  | [] => mentioned_states
  | (state_name, state_abbr) :: rest =>
      if re_search_word state_name content_lower false
         && negb (Crawler.in_set state_abbr mentioned_states)
      then names_in content_lower rest (mentioned_states ++ [state_abbr])%list
      else names_in content_lower rest mentioned_states
  end.

(** [mentioned_states] when the article is about to be tagged. *)
Definition mentioned_states (location_text : option string) (content : string)
    : list string :=
  match location_states location_text with
  | [] => names_in (PyStr.lower content) full_state_names (abbreviations_in content)
  | found => found
  end.

(** [article['states'] = sts] *)
Definition set_states (a : article) (sts : list string) : article :=
  {| url := url a; title := title a; content := content a;
     description := description a; type := type a; thumbnail := thumbnail a;
     states := Some sts; embedding := embedding a |}.

(** [if mentioned_states: article['states'] = list(set(mentioned_states))].
    [list_of_set] is the order in which the set is listed. *)
Definition tag_states (list_of_set : list string -> list string)
    (location_text : option string) (a : article) : article :=
  match mentioned_states location_text (content a) with
  | [] => a
  | found => set_states a (list_of_set found)
  end.

End States.

(** ** Crawler: the content of the pages *)

Module Scrape.

(** An [<img>] element that has a [src]: the attribute, and what
    [img.get('width', '')] and [img.get('height', '')] return. *)
Record img : Type := mk_img {
  img_src : string;
  img_width : string;
  img_height : string
}.

(** What phase 2 reads off a fetched page, one field for each query of the
    parsed page:
    - [title_elem]: the stripped text of the [<title>] element;
    - [main_content]: the text of the first of [<main>], [<article>],
      [<div class="content">] and [<body>], once its scripts, styles,
      navigation, header, footer and asides are removed;
    - [meta_desc], [og_desc]: [get('content', '')] of the meta elements
      [description] and [og:description];
    - [og_image], [twitter_image]: [get('content')] of the meta elements
      [og:image] and [twitter:image];
    - [img_tags]: the [<img>] elements with a [src], in document order;
    - [location_text]: what the three patterns of lines 324 to 356 leave in
      the variable of this name.
    [None] stands for an element that is not found and, in [og_image] and
    [twitter_image], for an attribute that is missing as well. *)
Record document : Type := mk_document {
  title_elem : option string;
  main_content : option string;
  meta_desc : option string;
  og_desc : option string;
  og_image : option string;
  twitter_image : option string;
  img_tags : list img;
  location_text : option string
}.

(** The site as phase 2 sees it: [requests.get] followed by
    [raise_for_status], the test of the content type and the parse.  [None]
    stands for a request that raises and for a reply that is not HTML. *)
Definition Pages : Type := string -> option document.

(** How one iteration of the loop ends: at the [continue] of line 254 or
    with a failed request, with a [ValueError] of [int] (line 312), with
    the [UnboundLocalError] of the name [re] (line 324), or after line
    412. *)
Inductive ending : Type :=
| not_fetched
| caught_ValueError
| caught_UnboundLocalError
| completed.

Definition set_title (a : article) (t : string) : article :=
  {| url := url a; title := t; content := content a;
     description := description a; type := type a; thumbnail := thumbnail a;
     states := states a; embedding := embedding a |}.

Definition set_content (a : article) (c : string) : article :=
  {| url := url a; title := title a; content := c;
     description := description a; type := type a; thumbnail := thumbnail a;
     states := states a; embedding := embedding a |}.

Definition set_description (a : article) (d : string) : article :=
  {| url := url a; title := title a; content := content a;
     description := d; type := type a; thumbnail := thumbnail a;
     states := states a; embedding := embedding a |}.

Definition set_thumbnail (a : article) (t : string) : article :=
  {| url := url a; title := title a; content := content a;
     description := description a; type := type a; thumbnail := t;
     states := states a; embedding := embedding a |}.

Definition skip_words : list string := ["icon"; "logo"; "avatar"; "button"].

(** An attribute that is there and not empty. *)
Definition attribute (o : option string) : option string :=
  match o with
  | Some c => if PyStr.truthy c then Some c else None
  | None => None
  end.

Section Phase2.

(** [urllib.parse.urljoin], a library function. *)
Variable urljoin : string -> string -> string.

(** [int(s)] for a string [s]: [None] when it raises [ValueError]. *)
Variable py_int : string -> option Z.

(** The order in which [list] lists a [set]. *)
Variable list_of_set : list string -> list string.

(** Lines 257 to 260. *)
Definition page_title (soup : document) (a : article) : article :=
  if negb (PyStr.truthy (title a))
     || String.eqb (title a) (PyStr.last_segment (url a))
  then
    match title_elem soup with
    | Some t => set_title a t
    | None => a
    end
  else a.

(** Lines 263 to 270. *)
Definition page_content (soup : document) (a : article) : article :=
  match main_content soup with
  | Some content_text => set_content a (PyStr.slice_to 5000 content_text)
  | None => a
  end.

(** Lines 272 to 279. *)
Definition page_description (soup : document) (a : article) : article :=
  match meta_desc soup with
  | Some d => set_description a d
  | None =>
      match og_desc soup with
      | Some d => set_description a d
      | None => a
      end
  end.

(** Lines 286 to 287 and 294 to 295. *)
Definition absolute (image_url : string) : string :=
  if PyStr.startswith image_url "/" then urljoin WEBSITE_URL image_url
  else image_url.

(** [(width and int(width) > 200) or (height and int(height) > 200) or not
    (width or height)], evaluated from left to right. *)
Definition reasonable_size (width height : string) : outcome bool :=
  let neither := negb (PyStr.truthy width || PyStr.truthy height) in
  let by_height :=
    if PyStr.truthy height then
      match py_int height with
      | Some h => Returned ((200 <? h)%Z || neither)
      | None => Raised ValueError
      end
    else Returned neither in
  if PyStr.truthy width then
    match py_int width with
    | Some w => if (200 <? w)%Z then Returned true else by_height
    | None => Raised ValueError
    end
  else by_height.

(** The [for img in img_tags] loop: the [src] it stops at, if any. *)
Fixpoint first_large_image (article_url : string) (imgs : list img)
    : outcome (option string) :=
  match imgs with
  | [] => Returned None
  | i :: rest =>
      let src := img_src i in
      if PyStr.truthy src
         && negb (existsb (fun skip => PyStr.py_in skip (PyStr.lower src))
                    skip_words)
      then
        let src :=
          if PyStr.startswith src "/" then urljoin WEBSITE_URL src
          else if negb (PyStr.startswith src "http") then urljoin article_url src
          else src in
        obind (reasonable_size (img_width i) (img_height i)) (fun large =>
          if large then Returned (Some src)
          else first_large_image article_url rest)
      else first_large_image article_url rest
  end.

(** Lines 281 to 314. *)
Definition page_thumbnail (soup : document) (a : article) : outcome article :=
  match attribute (og_image soup) with
  | Some image_url => Returned (set_thumbnail a (absolute image_url))
  | None =>
      match attribute (twitter_image soup) with
      | Some image_url => Returned (set_thumbnail a (absolute image_url))
      | None =>
          obind (first_large_image (url a) (img_tags soup)) (fun found =>
            Returned (match found with
                      | Some src => set_thumbnail a src
                      | None => a
                      end))
      end
  end.

(** The body of the [for idx, article in enumerate(articles)] loop, lines
    250 to 415.  The article is a dict that the body changes in place: what
    was assigned before an exception stays.  [re_bound] tells whether the
    local name [re] is bound when the iteration starts; line 324 reads it,
    and the only statement that binds it is the import of line 382.  The
    result is the article, whether [re] is bound afterwards, and how the
    iteration ended. *)
Definition scrape_page (re_bound : bool) (a : article)
    (response : option document) : article * bool * ending :=
  match response with
  | None => (a, re_bound, not_fetched)
  | Some soup =>
      let a := page_title soup a in
      let a := page_content soup a in
      let a := page_description soup a in
      match page_thumbnail soup a with
      | Raised _ => (a, re_bound, caught_ValueError)
      | Returned a =>
          if re_bound then
            let mentioned_states :=
              States.location_states (location_text soup) in
            (States.tag_states list_of_set (location_text soup) a,
             match mentioned_states with [] => true | _ => re_bound end,
             completed)
          else (a, re_bound, caught_UnboundLocalError)
      end
  end.

(** The loop of phase 2 over the discovered articles. *)
Fixpoint scrape_pages (pages : Pages) (re_bound : bool) (articles : list article)
    : list article * bool * list ending :=
  match articles with
  | [] => ([], re_bound, [])
  | a :: rest =>
      let '(a', re_bound', e) := scrape_page re_bound a (pages (url a)) in
      let '(rest', re_bound'', es) := scrape_pages pages re_bound' rest in
      (a' :: rest', re_bound'', e :: es)
  end.

(** Phase 2 as [scrape_website_content] runs it: nothing has bound [re]
    when the loop starts. *)
Definition phase_2 (pages : Pages) (articles : list article)
    : list article * bool * list ending :=
  scrape_pages pages false articles.

End Phase2.

End Scrape.

(** ** Answering questions *)

Definition QA_LOG_FILE : string := "qa_log.csv".

(** One entry of [st.session_state.qa_logs]. *)
Record log_entry : Type := mk_log_entry {
  log_timestamp : string;
  log_question : string;
  log_answer : string
}.

(** What [log_qa_pair] depends on besides its arguments, for its [n]-th
    call: the text of [datetime.now().strftime(...)]; whether the Google
    Sheets block runs to its end and sets [google_sheets_success] (it does not
    when [gspread] is missing, when there is no client or no spreadsheet id,
    or when one of its calls raises); whether [to_csv] can write
    [QA_LOG_FILE]. *)
Record Logger : Type := mk_Logger {
  strftime_now : nat -> string;
  sheets_logged : nat -> string -> string -> bool;
  csv_writable : nat -> bool
}.

(** What [log_qa_pair] writes to: the list under ['qa_logs'] of the session
    state ([None]: no such key yet) and the rows of [QA_LOG_FILE], the header
    row included ([None]: no such file).  [log_calls] counts the calls. *)
Record journal : Type := mk_journal {
  session_qa_logs : option (list log_entry);
  qa_log_file : option (list (list string));
  log_calls : nat
}.

(** [log_qa_pair(question, answer)]: the flag it returns and the journal it
    leaves. *)
Definition log_qa_pair (lg : Logger) (question answer : string) (j : journal)
    : bool * journal :=
  let timestamp := strftime_now lg (log_calls j) in
  let entry :=
    {| log_timestamp := timestamp; log_question := question;
       log_answer := answer |} in
  let qa_logs :=
    match session_qa_logs j with Some l => l | None => [] end in
  let google_sheets_success := sheets_logged lg (log_calls j) question answer in
  let file :=
    if google_sheets_success then qa_log_file j
    else if csv_writable lg (log_calls j) then
      match qa_log_file j with
      | Some rows => Some (rows ++ [[timestamp; question; answer]])%list
      | None =>
          Some [["timestamp"; "question"; "answer"]; [timestamp; question; answer]]
      end
    else qa_log_file j in
  (google_sheets_success,
   {| session_qa_logs := Some (qa_logs ++ [entry])%list;
      qa_log_file := file;
      log_calls := S (log_calls j) |}).

(** The dict that [query_website_content] returns. *)
Record answer_record : Type := mk_answer_record {
  answer : string;
  sources : list article;
  logged_to_sheets : bool
}.

(** The query asks for case studies. *)
Definition mentions_case_studies (query : string) : bool :=
  let query_lower := PyStr.lower query in
  PyStr.py_in "case study" query_lower ||
  PyStr.py_in "case studies" query_lower ||
  PyStr.py_in "success story" query_lower.

(** The condition of the [case_studies] comprehension of
    [query_website_content]. *)
Definition boosted (a : article) : bool :=
  PyStr.py_in "case-study" (PyStr.lower (type a)) ||
  PyStr.py_in "case study" (PyStr.lower (title a)) ||
  PyStr.py_in "/case-studies/" (PyStr.lower (url a)).

Definition prioritize (query : string) (similar_articles : list article)
    : list article :=
  if mentions_case_studies query then
    let studies := filter boosted similar_articles in
    let other_articles :=
      filter (fun a => negb (py_list_in a studies)) similar_articles in
    (studies ++ other_articles)%list
  else similar_articles.

Definition context_of (context_articles : list article) : string :=
  PyStr.join (nl ++ nl)
    (map (fun a => "Title: " ++ title a ++ nl ++ "URL: " ++ url a ++ nl
                   ++ "Content: " ++ PyStr.slice_to 500 (content a))
         context_articles).

Definition answer_prompt (query context : string) : string :=
  "You are a helpful assistant that answers questions about ridewithvia.com based on the following content:"
  ++ nl ++ nl ++ context ++ nl ++ nl ++ "Question: " ++ query ++ nl ++ nl
  ++ "Answer based only on the content provided above. Include specific URLs when mentioning articles or case studies. If the answer is not in the content, say so.".

Definition answer_request (prompt : string) : chat_request :=
  {| chat_model := "gpt-4";
     chat_system :=
       "You are a helpful assistant for ridewithvia.com. Answer questions based only on the provided content. Include URLs when mentioning specific articles.";
     chat_user := prompt;
     chat_temperature := 0.7;
     chat_max_tokens := 600 |}.

(** [query_website_content(query, articles, client)].  [str_of] is [str] on
    exceptions.  The result comes with the list [articles] as the call
    leaves it, the world and the journal. *)
Definition query_website_content (lg : Logger) (str_of : exn -> string)
    (query : string) (articles : list article) (client : OpenAI)
    (w : world) (j : journal)
    : outcome (answer_record * list article) * world * journal :=
  match find_similar_articles query articles client 25 w with
  | (Raised e, w1) => (Raised e, w1, j)
  | (Returned (similar_articles, arts), w1) =>
      let prioritized := prioritize query similar_articles in
      let context_articles := firstn 20 prioritized in
      let prompt := answer_prompt query (context_of context_articles) in
      match request_chat client (answer_request prompt) w1 with
      | (Returned reply, w2) =>
          let '(logged, j') := log_qa_pair lg query reply j in
          (Returned ({| answer := reply;
                        sources := firstn 5 context_articles;
                        logged_to_sheets := logged |}, arts), w2, j')
      | (Raised e, w2) =>
          let error_msg := "Error: " ++ str_of e in
          let '(logged, j') := log_qa_pair lg query error_msg j in
          (Returned ({| answer := error_msg;
                        sources := [];
                        logged_to_sheets := logged |}, arts), w2, j')
      end
  end.

(** ** Exporting the snapshot ([export_cache_list.py]) *)

Module ExportCacheList.

Definition upper_ascii (c : ascii) : ascii :=
  let n := nat_of_ascii c in
  if (97 <=? n)%nat && (n <=? 122)%nat then ascii_of_nat (n - 32) else c.

(** [s.upper()] *)
Fixpoint upper (s : string) : string :=
  match s with
  | EmptyString => EmptyString
  | String c rest => String (upper_ascii c) (upper rest)
  end.

(** [c * n] for a one-character string [c]. *)
Fixpoint repeat_char (c : ascii) (n : nat) : string :=
  match n with
  | O => EmptyString
  | S n' => String c (repeat_char c n')
  end.

(** [by_type[article_type].append(article)], after the key was added with
    an empty list if it was missing.  The dict keeps its keys in the order
    they were added. *)
Fixpoint dict_append (by_type : list (string * list article))
    (article_type : string) (a : article) : list (string * list article) :=
  match by_type with
  | [] => [(article_type, [a])]
  | (k, l) :: rest =>
      if String.eqb article_type k then (k, (l ++ [a])%list) :: rest
      else (k, l) :: dict_append rest article_type a
  end.

(** The [for article in articles] loop that fills [by_type]. *)
Definition group_by_type (articles : list article)
    : list (string * list article) :=
  fold_left (fun by_type a => dict_append by_type (type a) a) articles [].

(** [sorted(by_type.items())].  The keys of a dict differ, so the items are
    ordered by their keys alone; the sort is rendered as a stable insertion
    sort on [<]. *)
Fixpoint insert_by_key {V} (x : string * V) (l : list (string * V))
    : list (string * V) :=
  match l with
  | [] => [x]
  | y :: rest =>
      if String.ltb (fst y) (fst x) then y :: insert_by_key x rest
      else x :: y :: rest
  end.

Definition sorted_items {V} (d : list (string * V)) : list (string * V) :=
  fold_right insert_by_key [] d.

(** The rows of the summary: each type with the number of its articles. *)
Definition summary_by_type (articles : list article) : list (string * nat) :=
  map (fun kv => (fst kv, length (snd kv))) (sorted_items (group_by_type articles)).

Definition rule (c : ascii) : string := repeat_char c 80.

Definition summary_line (row : string * nat) : string :=
  upper (fst row) ++ ": " ++ decimal (snd row) ++ " articles" ++ nl.

(** What the detailed list holds for the article numbered [idx]. *)
Definition article_block (idx : nat) (a : article) : string :=
  nl ++ rule "=" ++ nl
  ++ "ARTICLE #" ++ decimal idx ++ nl
  ++ rule "=" ++ nl
  ++ "Type: " ++ type a ++ nl
  ++ "Title: " ++ title a ++ nl
  ++ "URL: " ++ url a ++ nl
  ++ (if PyStr.truthy (description a)
      then "Description: " ++ description a ++ nl else "")
  ++ (match states a with
      | Some ((_ :: _) as sts) =>
          "States Mentioned: " ++ PyStr.join ", " sts ++ nl
      | _ => ""
      end)
  ++ (if PyStr.truthy (content a)
      then "Content Preview: " ++ PyStr.slice_to 300 (content a) ++ "..." ++ nl
      else "")
  ++ nl.

(** The text written to [OUTPUT_FILE]; [generated] is the time of the
    export as [strftime] prints it. *)
Definition export_text (generated : string) (articles : list article) : string :=
  rule "=" ++ nl
  ++ "VIA WEBSITE CONTENT CACHE - ARTICLE LIST" ++ nl
  ++ rule "=" ++ nl
  ++ "Generated: " ++ generated ++ nl
  ++ "Total Articles: " ++ decimal (length articles) ++ nl
  ++ rule "=" ++ nl ++ nl
  ++ "SUMMARY BY TYPE" ++ nl
  ++ rule "-" ++ nl
  ++ String.concat "" (map summary_line (summary_by_type articles))
  ++ nl ++ rule "=" ++ nl ++ nl
  ++ String.concat ""
       (map (fun ia => article_block (fst ia) (snd ia)) (enumerate_from 1 articles)).

(** [export_cache_to_file()]: the text it writes to [OUTPUT_FILE], [None]
    when it writes no file (there is no snapshot, or [OUTPUT_FILE] cannot
    be opened for writing). *)
Definition export_cache_to_file (generated : string) (output_writable : bool)
    (w : world) : option string :=
  match cache_file w with
  | None => None
  | Some articles =>
      if output_writable then Some (export_text generated articles) else None
  end.

End ExportCacheList.

(** ** More vocabulary of the properties *)

(** The article has no stored embedding and a text to embed: the ranking
    loop sends a request for it. *)
Definition needs_request (a : article) : bool :=
  negb (has_embedding a) && negb (PyStr.blank (embedding_text a)).

(** From [w] to [w'] nothing changed but the count of requests, which did
    not decrease. *)
Definition same_files (w w' : world) : Prop :=
  cache_file w' = cache_file w /\ disk_writable w' = disk_writable w /\
  rng_draws w' = rng_draws w /\ (api_calls w <= api_calls w')%nat.

(** Every distance from the user's coordinates to a state of one of the
    articles can be computed: no [math.sqrt] of a negative number. *)
Definition distances_defined (m : Libm) (user_lat user_lon : float)
    (articles : list article) : Prop :=
  forall a sts s lat lon,
    In a articles -> states a = Some sts -> In s sts ->
    dict_get STATE_COORDINATES s = Some (lat, lon) ->
    exists d, calculate_distance m user_lat user_lon lat lon = Returned d.

(** One of the states of [a] lies within [max_distance] miles of the user. *)
Definition within_bound (m : Libm) (user_lat user_lon : float)
    (max_distance : Z) (a : article) : Prop :=
  exists sts s lat lon d,
    states a = Some sts /\ In s sts /\
    dict_get STATE_COORDINATES s = Some (lat, lon) /\
    calculate_distance m user_lat user_lon lat lon = Returned d /\
    float_le_int d max_distance = true.

(** The test of the matching loop, as a boolean. *)
Definition location_match (m : Libm) (user_lat user_lon : float)
    (max_distance : Z) (a : article) : bool :=
  match any_state_within m user_lat user_lon max_distance
          (match states a with Some sts => sts | None => [] end) with
  | Returned true => true
  | _ => false
  end.

(** What the distance to a state of the user's own needs of the math
    library: [sin(0.0)], [0.0 ** 2] and [atan2(0.0, 1.0)] are [0.0], and
    the product of the cosines of two numbers is a number.  Nothing is
    asked of the cosine of an infinity or of NaN, which is NaN in a
    library that follows IEEE 754. *)
Record exact_at_zero (m : Libm) : Prop := {
  sin_zero : libm_sin m 0 = 0;
  pow_zero : libm_pow m 0 2 = 0;
  atan2_zero : libm_atan2 m 0 1 = 0;
  cos_product_finite :
    forall x y, is_finite x = true -> is_finite y = true ->
      is_finite (libm_cos m x * libm_cos m y) = true
}.

(** The world after one shuffle. *)
Definition count_shuffle (w : world) : world :=
  {| cache_file := cache_file w; disk_writable := disk_writable w;
     api_calls := api_calls w; rng_draws := S (rng_draws w) |}.

(** The articles that pass the keyword filter of the user type. *)
Definition relevant_articles (user_type : string) (articles : list article)
    : list article :=
  if String.eqb user_type "city" then filter (mentions_any city_keywords) articles
  else if String.eqb user_type "transit_agency"
  then filter (mentions_any agency_keywords) articles
  else articles.

(** The articles that [recommend_articles] selects the general list and
    the case studies from: the relevant articles that fail, respectively
    pass, the test of the [case_studies] comprehension. *)
Definition general_candidates (user_type : string) (articles : list article)
    : list article :=
  filter (fun a => negb (is_case_study a)) (relevant_articles user_type articles).

Definition case_study_candidates (user_type : string) (articles : list article)
    : list article :=
  filter is_case_study (relevant_articles user_type articles).

(** Every character of a string passes the test. *)
Fixpoint forallb_string (p : ascii -> bool) (s : string) : bool :=
  match s with
  | EmptyString => true
  | String c rest => p c && forallb_string p rest
  end.

(** The articles of a crawl state have pairwise distinct URLs, all of them
    marked as seen. *)
Definition urls_unique (st : Crawler.crawl_state) : Prop :=
  NoDup (map url (Crawler.articles st)) /\
  Forall (fun a => In (url a) (Crawler.seen_urls st)) (Crawler.articles st).

(** Every queued URL is a URL of [queue] or is marked as seen. *)
Definition queued_from (queue : list string) (st : Crawler.crawl_state) : Prop :=
  Forall (fun u => In u queue \/ In u (Crawler.seen_urls st))
    (Crawler.urls_to_visit st).

(** An article as link discovery creates it. *)
Definition stub_article (a : article) : Prop :=
  PyStr.py_in "ridewithvia.com" (url a) = true /\
  existsb (fun p => PyStr.py_in p (url a)) Crawler.content_paths = true /\
  (5 < String.length (title a) < 300)%nat /\
  content a = "" /\ description a = "" /\ thumbnail a = "" /\
  states a = None /\ embedding a = None /\
  type a = Crawler.article_type (url a).

(** What the discovery loop keeps true of its variables; [queue] is the
    queue the loop started from. *)
Record crawl_invariant (queue : list string) (d : Crawl.discovery) : Prop := {
  inv_unique : urls_unique (Crawl.crawl d);
  inv_stubs : Forall stub_article (Crawler.articles (Crawl.crawl d));
  inv_queue : queued_from queue (Crawl.crawl d);
  inv_requested : incl (Crawl.requested d) queue;
  inv_requested_seen : incl (Crawl.requested d) (Crawler.seen_urls (Crawl.crawl d));
  inv_requested_once : NoDup (Crawl.requested d);
  inv_count : Crawl.visited_count d = length (Crawl.requested d)
}.

(** The journal after a call of [log_qa_pair]. *)
Definition logged_once (lg : Logger) (question reply : string) (flag : bool)
    (j j' : journal) : Prop :=
  session_qa_logs j'
  = Some ((match session_qa_logs j with Some l => l | None => [] end)
          ++ [{| log_timestamp := strftime_now lg (log_calls j);
                 log_question := question; log_answer := reply |}])%list /\
  log_calls j' = S (log_calls j) /\
  flag = sheets_logged lg (log_calls j) question reply /\
  (flag = true -> qa_log_file j' = qa_log_file j) /\
  (flag = false -> csv_writable lg (log_calls j) = false ->
   qa_log_file j' = qa_log_file j) /\
  (flag = false -> csv_writable lg (log_calls j) = true ->
   exists rows,
     qa_log_file j'
     = Some (rows ++ [[strftime_now lg (log_calls j); question; reply]])%list /\
     match qa_log_file j with
     | Some old => rows = old
     | None => rows = [["timestamp"; "question"; "answer"]]
     end).

(** The articles of one type, in the order of the list. *)
Definition of_type (t : string) (articles : list article) : list article :=
  filter (fun a => String.eqb t (type a)) articles.

(** What the grouping loop keeps true: the keys differ, the list under a
    key holds the articles of that type met so far, in order, and the sizes
    of the lists add up to the number of articles met. *)
Definition grouped (seen : list article) (by_type : list (string * list article))
    : Prop :=
  NoDup (map fst by_type) /\
  (forall k, dict_get by_type k
             = match of_type k seen with [] => None | l => Some l end) /\
  list_sum (map (fun kv => length (snd kv)) by_type) = length seen.

(** ** More sample data *)

Module MoreSamples.

Definition nevada_study : article :=
  {| url := "https://ridewithvia.com/case-studies/reno";
     title := "Case study: Reno";
     content := "Microtransit for the city of Reno.";
     description := "";
     type := "case-study"; thumbnail := ""; states := Some ["NV"; "ZZ"];
     embedding := None |}.

(** A case study filed under the resources, as the crawler lists it. *)
Definition arlington_study : article :=
  {| url := "https://ridewithvia.com/resources/case-studies/arlington-tx";
     title := "Arlington replaces its bus network";
     content := "";
     description := "";
     type := "resource"; thumbnail := ""; states := None;
     embedding := None |}.

Definition about_page : article :=
  {| url := "https://ridewithvia.com/about/team";
     title := "About the team";
     content := "Who builds the transit software.";
     description := "The people behind the product";
     type := "page"; thumbnail := ""; states := None;
     embedding := Some [0; 1] |}.

Definition corpus : list article :=
  [Samples.blog_post; Samples.aligned_post; about_page; Samples.far_study;
   Samples.maine_study; Samples.untagged_study; nevada_study].

(** A model that embeds every text as one unit vector and numbers the
    second and the first candidate of every selection. *)
Definition chatty_client : OpenAI :=
  {| embeddings_create := fun _ _ _ => Some [0.6; 0.8];
     chat_completions_create := fun _ _ => Some "2, 1" |}.

(** [urljoin] on the site's root and an absolute path. *)
Definition join_path (base href : string) : string := base ++ href.

Definition home_page : Crawl.page :=
  {| Crawl.page_title := Some "Via Transportation";
     Crawl.page_links :=
       [ {| Crawler.href := "/blog/microtransit-101";
            Crawler.anchor_text := "Microtransit 101";
            Crawler.title_attr := ""; Crawler.aria_label := "" |};
         {| Crawler.href := "/blog/";
            Crawler.anchor_text := "Blog";
            Crawler.title_attr := ""; Crawler.aria_label := "" |};
         Samples.share_link;
         {| Crawler.href := "mailto:info@ridewithvia.com";
            Crawler.anchor_text := "Contact us";
            Crawler.title_attr := ""; Crawler.aria_label := "" |};
         {| Crawler.href := "/blog/microtransit-101";
            Crawler.anchor_text := "Read more about microtransit";
            Crawler.title_attr := ""; Crawler.aria_label := "" |} ] |}.

(** A site that answers for its home page only. *)
Definition small_site : Crawl.Site :=
  fun u => if String.eqb u "https://ridewithvia.com/" then Some home_page else None.

(** [int] on the strings of decimal digits; it raises on the empty string
    and on any other character. *)
Definition decimal_int (s : string) : option Z :=
  if PyStr.truthy s && forallb_string is_digit s then Some (int_of_digits s)
  else None.

(** A blog page with a description, a logo and a picture. *)
Definition blog_page : Scrape.document :=
  {| Scrape.title_elem := Some "Microtransit 101 | Via";
     Scrape.main_content :=
       Some "Microtransit in Charleston, West Virginia: how on-demand transit works.";
     Scrape.meta_desc := None;
     Scrape.og_desc := Some "An introduction to microtransit";
     Scrape.og_image := None;
     Scrape.twitter_image := Some "";
     Scrape.img_tags :=
       [ {| Scrape.img_src := "/assets/logo.png"; Scrape.img_width := "400";
            Scrape.img_height := "" |};
         {| Scrape.img_src := "/assets/thumb.png"; Scrape.img_width := "120";
            Scrape.img_height := "90" |};
         {| Scrape.img_src := "/assets/shuttle.jpg"; Scrape.img_width := "150";
            Scrape.img_height := "640" |} ];
     Scrape.location_text := Some "West Virginia" |}.

(** A page whose picture gives its width in percent. *)
Definition index_page : Scrape.document :=
  {| Scrape.title_elem := None;
     Scrape.main_content := Some "The Via blog.";
     Scrape.meta_desc := Some "";
     Scrape.og_desc := Some "News from Via";
     Scrape.og_image := None;
     Scrape.twitter_image := None;
     Scrape.img_tags :=
       [ {| Scrape.img_src := "https://cdn.ridewithvia.com/team.jpg";
            Scrape.img_width := "100%"; Scrape.img_height := "300" |} ];
     Scrape.location_text := None |}.

(** A site that answers phase 2 for two of its pages. *)
Definition small_pages : Scrape.Pages :=
  fun u =>
    if String.eqb u "https://ridewithvia.com/blog/microtransit-101"
    then Some blog_page
    else if String.eqb u "https://ridewithvia.com/blog/"
    then Some index_page
    else None.

(** A logger whose spreadsheet is out of reach and whose disk is writable. *)
Definition file_logger : Logger :=
  {| strftime_now := fun _ => "2025-01-01 12:00:00";
     sheets_logged := fun _ _ _ => false;
     csv_writable := fun _ => true |}.

Definition empty_journal : journal :=
  {| session_qa_logs := None; qa_log_file := None; log_calls := 0 |}.

(** Small-angle stand-ins for the math library which, as a library that
    follows IEEE 754 does, answer NaN for the sine or the cosine of an
    infinity or of NaN. *)
Definition guarded_libm : Libm :=
  {| libm_sin := fun x => if is_finite x then x else nan;
     libm_cos := fun x => if is_finite x then 1 else nan;
     libm_atan2 := fun y x => y / x;
     libm_pow := fun x _ => x * x |}.

Definition str_of_exn (e : exn) : string :=
  match e with
  | ValueError => "shapes not aligned"
  | IOError => "Permission denied"
  | APIError => "Connection error."
  end.

End MoreSamples.

(** * Properties *)

(** ** The model on small inputs *)

Example py_in_example :
  PyStr.py_in "/blog/" "https://ridewithvia.com/blog/x" = true /\
  PyStr.py_in "/blog/" "https://ridewithvia.com/blogs/x" = false.
Proof. split; reflexivity. Qed.

Example last_segment_example :
  PyStr.last_segment "https://ridewithvia.com/about/team" = "team".
Proof. reflexivity. Qed.

Example urlsplit_example :
  Url.netloc "https://ridewithvia.com/blog/x?ref=/about/#top" = "ridewithvia.com" /\
  Url.path "https://ridewithvia.com/blog/x?ref=/about/#top" = "/blog/x" /\
  Url.netloc "/blog/x" = "" /\ Url.path "/blog/x" = "/blog/x".
Proof. repeat split; reflexivity. Qed.

Example py_slice_to_example :
  py_slice_to [1; 2; 3; 4]%nat 2 = [1; 2]%nat /\
  py_slice_to [1; 2; 3; 4]%nat (-1) = [1; 2; 3]%nat /\
  py_slice_to [1; 2; 3; 4]%nat 9 = [1; 2; 3; 4]%nat.
Proof. repeat split; reflexivity. Qed.

Example cosine_similarity_example :
  cosine_similarity [3; 4] [3; 4] = Returned 1 /\
  cosine_similarity [1; 0] [0; 1] = Returned 0 /\
  cosine_similarity [1] [1; 2] = Raised ValueError.
Proof. repeat split; reflexivity. Qed.

Example sort_by_score_reverse_example :
  sort_by_score_reverse [(0.5, 1%nat); (0.9, 2%nat); (0.5, 3%nat); (0.7, 4%nat)]
  = [(0.9, 2%nat); (0.7, 4%nat); (0.5, 1%nat); (0.5, 3%nat)].
Proof. reflexivity. Qed.

Example selected_indices_example :
  selected_indices 3 "2, 5 and 1, then 4" 6 = [1; 4; 0]%nat /\
  selected_indices 3 "9, 0" 6 = []%nat.
Proof. split; reflexivity. Qed.

Example float_le_int_example :
  float_le_int 499.99 500 = true /\ float_le_int 500 500 = true /\
  float_le_int 500.5 500 = false /\ float_le_int nan 500 = false.
Proof. repeat split; reflexivity. Qed.

Example find_similar_articles_example :
  fst (find_similar_articles "what is microtransit"
         [Samples.aligned_post; Samples.blog_post] Samples.steady_client 1
         Samples.fresh_world)
  = Returned ([set_embedding Samples.blog_post [0.6; 0.8]],
              [Samples.aligned_post; set_embedding Samples.blog_post [0.6; 0.8]]).
Proof. vm_compute. reflexivity. Qed.

(** ** The order of floats *)

Section FloatOrder.

Local Open Scope Z_scope.

Lemma SFcompare_key x y :
  x <> S754_nan -> y <> S754_nan ->
  SFcompare x y = Some (key_compare (float_key x) (float_key y)).
Proof.
  destruct x as [s1|s1| |s1 m1 e1], y as [s2|s2| |s2 m2 e2];
    intros Hx Hy; try congruence;
    try destruct s1; try destruct s2; try reflexivity; simpl.
  rewrite Z.compare_opp, (Z.compare_antisym e1 e2).
  destruct (e1 ?= e2); reflexivity.
Qed.

Lemma key_compare_refl k : key_compare k k = Eq.
Proof. destruct k as [[a b] c]; simpl; now rewrite !Z.compare_refl. Qed.

Lemma key_compare_antisym k1 k2 : key_compare k2 k1 = CompOpp (key_compare k1 k2).
Proof.
  destruct k1 as [[a1 b1] c1], k2 as [[a2 b2] c2]; simpl.
  rewrite (Z.compare_antisym a1 a2), (Z.compare_antisym b1 b2), (Z.compare_antisym c1 c2).
  destruct (a1 ?= a2), (b1 ?= b2), (c1 ?= c2); reflexivity.
Qed.

Lemma key_compare_le k1 k2 : key_compare k1 k2 <> Gt <-> key_le k1 k2.
Proof.
  destruct k1 as [[a1 b1] c1], k2 as [[a2 b2] c2]; simpl.
  destruct (Z.compare_spec a1 a2), (Z.compare_spec b1 b2), (Z.compare_spec c1 c2);
    split; intros; try congruence; try lia.
Qed.

Lemma key_le_trans k1 k2 k3 : key_le k1 k2 -> key_le k2 k3 -> key_le k1 k3.
Proof.
  destruct k1 as [[a1 b1] c1], k2 as [[a2 b2] c2], k3 as [[a3 b3] c3]; simpl; lia.
Qed.

Lemma key_le_total k1 k2 : key_le k1 k2 \/ key_le k2 k1.
Proof.
  destruct k1 as [[a1 b1] c1], k2 as [[a2 b2] c2]; simpl; lia.
Qed.

End FloatOrder.

Lemma is_nan_spec x :
  is_nan x = match Prim2SF x with S754_nan => true | _ => false end.
Proof.
  unfold is_nan. rewrite eqb_spec. unfold SFeqb.
  destruct (Prim2SF x) as [s|s| |s m e] eqn:E; try reflexivity.
  all: rewrite SFcompare_key by discriminate.
  all: now rewrite key_compare_refl.
Qed.

Lemma not_nan_spec x : not_nan x <-> Prim2SF x <> S754_nan.
Proof.
  unfold not_nan. rewrite is_nan_spec.
  destruct (Prim2SF x); split; congruence.
Qed.

(** The comparisons of floats other than NaN, read on their keys. *)
Lemma leb_key x y :
  not_nan x -> not_nan y ->
  ((x <=? y) = true <-> key_le (float_key (Prim2SF x)) (float_key (Prim2SF y))).
Proof.
  intros Hx%not_nan_spec Hy%not_nan_spec.
  rewrite leb_spec. unfold SFleb.
  rewrite SFcompare_key by assumption.
  rewrite <- key_compare_le.
  destruct (key_compare _ _); split; congruence.
Qed.

Lemma ltb_key x y :
  not_nan x -> not_nan y ->
  ((x <? y) = false <-> key_le (float_key (Prim2SF y)) (float_key (Prim2SF x))).
Proof.
  intros Hx%not_nan_spec Hy%not_nan_spec.
  rewrite ltb_spec. unfold SFltb.
  rewrite SFcompare_key by assumption.
  rewrite <- key_compare_le, (key_compare_antisym (float_key (Prim2SF x))).
  destruct (key_compare _ _); simpl; split; congruence.
Qed.

Lemma eqb_key x y :
  not_nan x -> not_nan y ->
  ((x =? y) = true <-> key_le (float_key (Prim2SF x)) (float_key (Prim2SF y)) /\
                       key_le (float_key (Prim2SF y)) (float_key (Prim2SF x))).
Proof.
  intros Hx%not_nan_spec Hy%not_nan_spec.
  rewrite eqb_spec. unfold SFeqb.
  rewrite SFcompare_key by assumption.
  rewrite <- !key_compare_le, (key_compare_antisym (float_key (Prim2SF x))).
  destruct (key_compare _ _); simpl; intuition congruence.
Qed.

Lemma eqb_refl_not_nan (u : float) : not_nan u -> (u =? u) = true.
Proof.
  unfold not_nan, is_nan. now intros ->%negb_false_iff.
Qed.

Lemma leb_antisym_eqb (u v : float) :
  not_nan u -> not_nan v -> (u <=? v) = true -> (v <=? u) = true -> (u =? v) = true.
Proof.
  intros Hu Hv H1 H2. apply eqb_key; auto. split; now apply leb_key.
Qed.

Lemma leb_refl_not_nan (u : float) : not_nan u -> (u <=? u) = true.
Proof.
  intros H. apply leb_key; auto.
  destruct (key_le_total (float_key (Prim2SF u)) (float_key (Prim2SF u))); auto.
Qed.

(** ** Zero norms *)

Lemma is_zero_spec x : is_zero x = true <-> sf_zero x.
Proof.
  unfold is_zero, sf_zero. rewrite eqb_spec.
  change (Prim2SF zero) with (S754_zero false). unfold SFeqb.
  destruct (Prim2SF x) as [s|s| |s m e]; simpl; split;
    try discriminate; eauto; try (intros [? ?]; discriminate).
  all: destruct s; discriminate.
Qed.

Lemma sf_zero_weaken x : sf_zero x -> sf_zero_or_nan x.
Proof. intros [s H]. unfold sf_zero_or_nan. now rewrite H. Qed.

Lemma mul_zero_l x y : sf_zero x -> sf_zero_or_nan (x * y).
Proof.
  intros [s H]. unfold sf_zero_or_nan. rewrite mul_spec, H.
  unfold SF64mul, SFmul. destruct (Prim2SF y); exact I.
Qed.

Lemma mul_zero_r x y : sf_zero y -> sf_zero_or_nan (x * y).
Proof.
  intros [s H]. unfold sf_zero_or_nan. rewrite mul_spec, H.
  unfold SF64mul, SFmul. destruct (Prim2SF x); exact I.
Qed.

Lemma mul_zero_zero x y : sf_zero x -> sf_zero y -> sf_zero (x * y).
Proof.
  intros [s H] [t H']. unfold sf_zero. rewrite mul_spec, H, H'. simpl. eauto.
Qed.

Lemma add_zero_zero x y : sf_zero x -> sf_zero y -> sf_zero (x + y).
Proof.
  intros [s H] [t H']. unfold sf_zero. rewrite add_spec, H, H'.
  destruct s, t; simpl; eauto.
Qed.

Lemma add_zero_or_nan x y :
  sf_zero_or_nan x -> sf_zero_or_nan y -> sf_zero_or_nan (x + y).
Proof.
  unfold sf_zero_or_nan. rewrite add_spec.
  destruct (Prim2SF x) as [s| | |], (Prim2SF y) as [t| | |]; simpl; try tauto.
  destruct s, t; simpl; tauto.
Qed.

Lemma sqrt_zero x : sf_zero x -> sf_zero (sqrt x).
Proof. intros [s H]. unfold sf_zero. rewrite sqrt_spec, H. simpl. eauto. Qed.

Lemma div_zero_or_nan x y :
  sf_zero_or_nan x -> sf_zero_or_nan y -> x / y = nan.
Proof.
  unfold sf_zero_or_nan. intros Hx Hy. apply Prim2SF_inj. rewrite div_spec.
  change (Prim2SF nan) with S754_nan.
  destruct (Prim2SF x), (Prim2SF y); simpl; tauto.
Qed.

Lemma div_by_zero_or_nan x y : sf_zero_or_nan y -> sf_not_finite (x / y).
Proof.
  unfold sf_zero_or_nan, sf_not_finite. rewrite div_spec.
  destruct (Prim2SF x), (Prim2SF y); simpl; tauto.
Qed.

Lemma sf_not_finite_spec x : sf_not_finite x -> is_finite x = false.
Proof.
  unfold sf_not_finite, is_finite. intros H.
  rewrite is_nan_spec. unfold is_infinity. rewrite eqb_spec, abs_spec.
  change (Prim2SF infinity) with (S754_infinity false).
  destruct (Prim2SF x) as [s|s| |s m e]; try tauto; reflexivity.
Qed.

Lemma dot_zero_vectors a : forall b acc,
  sf_zero acc -> Forall (fun x => is_zero x = true) a ->
  Forall (fun x => is_zero x = true) b ->
  sf_zero (fold_left (fun acc p => acc + fst p * snd p) (combine a b) acc).
Proof.
  induction a as [|x a IH]; intros [|y b] acc Hacc Ha Hb; simpl; auto.
  inversion Ha; inversion Hb; subst.
  apply IH; auto.
  apply add_zero_zero; auto. apply mul_zero_zero; now apply is_zero_spec.
Qed.

Lemma dot_zero_vector a : forall b acc,
  sf_zero_or_nan acc ->
  Forall (fun x => is_zero x = true) a \/ Forall (fun x => is_zero x = true) b ->
  sf_zero_or_nan (fold_left (fun acc p => acc + fst p * snd p) (combine a b) acc).
Proof.
  induction a as [|x a IH]; intros [|y b] acc Hacc Hab; simpl; auto.
  apply IH.
  - apply add_zero_or_nan; auto.
    destruct Hab as [H|H]; inversion H; subst.
    + apply mul_zero_l. now apply is_zero_spec.
    + apply mul_zero_r. now apply is_zero_spec.
  - destruct Hab as [H|H]; inversion H; auto.
Qed.

Lemma zero_is_sf_zero : sf_zero 0.
Proof. exists false. reflexivity. Qed.

Lemma norm_zero_vector a :
  Forall (fun x => is_zero x = true) a -> sf_zero (np_linalg_norm a).
Proof.
  intros H. apply sqrt_zero. apply dot_zero_vectors; auto using zero_is_sf_zero.
Qed.

(** C9. [cosine_similarity] divides by the product of the two norms without
    testing it for zero.  On two vectors of one length, if all components
    of one of them are zero the quotient is 0/0 and the result is NaN; and
    whenever one of the norms is zero (a pair of zero-norm vectors
    included) the function returns without raising and its result is an
    infinity or NaN, not a finite number. *)
Theorem cosine_similarity_no_zero_guard (a b : vector) :
  length a = length b ->
  (Forall (fun x => is_zero x = true) a \/ Forall (fun x => is_zero x = true) b ->
   cosine_similarity a b = Returned nan) /\
  (is_zero (np_linalg_norm a) = true \/ is_zero (np_linalg_norm b) = true ->
   exists r, cosine_similarity a b = Returned r /\ is_finite r = false).
Proof.
  intros Hlen. unfold cosine_similarity, np_dot.
  rewrite Hlen, Nat.eqb_refl. simpl. split.
  - intros H. f_equal. apply div_zero_or_nan.
    + apply dot_zero_vector; auto. apply sf_zero_weaken, zero_is_sf_zero.
    + destruct H as [H|H].
      * apply mul_zero_l. now apply norm_zero_vector.
      * apply mul_zero_r. now apply norm_zero_vector.
  - intros H. eexists; split; [reflexivity|].
    apply sf_not_finite_spec, div_by_zero_or_nan.
    destruct H as [H|H]; apply is_zero_spec in H.
    + now apply mul_zero_l.
    + now apply mul_zero_r.
Qed.

Lemma cosine_similarity_no_zero_guard_witness :
  cosine_similarity [0; 0; 0] [0.25; -0.5; 1] = Returned nan /\
  exists r, cosine_similarity [0; 0; 0] [0.25; -0.5; 1] = Returned r /\ is_finite r = false.
Proof.
  destruct (@cosine_similarity_no_zero_guard [0; 0; 0] [0.25; -0.5; 1] eq_refl) as [H1 H2].
  split.
  - apply H1. left. repeat constructor.
  - apply H2. left. reflexivity.
Defined.

(** ** Ranking *)

Section Sorting.

Context {A : Type}.
Implicit Types (x y : float * A) (l : list (float * A)).

Lemma insert_by_score_perm x l : Permutation (insert_by_score x l) (x :: l).
Proof.
  induction l as [|y l IH]; simpl; auto.
  destruct (fst x <? fst y); auto.
  rewrite IH. apply perm_swap.
Qed.

Lemma sort_by_score_reverse_perm l : Permutation (sort_by_score_reverse l) l.
Proof.
  induction l as [|x l IH]; simpl; auto.
  rewrite insert_by_score_perm. now constructor.
Qed.

Lemma ltb_true_not_nan (u v : float) : (u <? v) = true -> not_nan u /\ not_nan v.
Proof.
  rewrite ltb_spec. unfold SFltb, not_nan. rewrite !is_nan_spec.
  destruct (Prim2SF u), (Prim2SF v); simpl; try discriminate; auto.
Qed.

Lemma eqb_true_not_nan (u v : float) : (u =? v) = true -> not_nan u /\ not_nan v.
Proof.
  rewrite eqb_spec. unfold SFeqb, not_nan. rewrite !is_nan_spec.
  destruct (Prim2SF u), (Prim2SF v); simpl; try discriminate; auto.
Qed.

Lemma leb_trans (u v w : float) :
  not_nan u -> not_nan v -> not_nan w ->
  (u <=? v) = true -> (v <=? w) = true -> (u <=? w) = true.
Proof.
  intros Hu Hv Hw. rewrite !leb_key by assumption.
  apply key_le_trans.
Qed.

Lemma ltb_true_leb (u v : float) : (u <? v) = true -> (u <=? v) = true.
Proof.
  intros H. destruct (ltb_true_not_nan _ _ H) as [Hu Hv].
  apply leb_key; auto.
  destruct (key_le_total (float_key (Prim2SF u)) (float_key (Prim2SF v)))
    as [K|K]; auto.
  apply ltb_key in K; auto. congruence.
Qed.

Lemma ltb_false_leb (u v : float) :
  not_nan u -> not_nan v -> (u <? v) = false -> (v <=? u) = true.
Proof.
  intros Hu Hv H. apply leb_key; auto. now apply ltb_key.
Qed.

Lemma ltb_eqb_exclusive (u v s : float) :
  (u <? v) = true -> (u =? s) = true -> (v =? s) = true -> False.
Proof.
  intros Hlt Hu Hv.
  destruct (ltb_true_not_nan _ _ Hlt) as [Nu Nv].
  destruct (eqb_true_not_nan _ _ Hu) as [_ Ns].
  apply eqb_key in Hu; auto. apply eqb_key in Hv; auto.
  assert (K : key_le (float_key (Prim2SF v)) (float_key (Prim2SF u))).
  { eapply key_le_trans; [apply Hv | apply Hu]. }
  apply ltb_key in K; auto. congruence.
Qed.

Lemma insert_by_score_sorted x l :
  not_nan (fst x) -> Forall (fun y => not_nan (fst y)) l ->
  StronglySorted score_ge l -> StronglySorted score_ge (insert_by_score x l).
Proof.
  intros Hx Hl Hs. induction Hs as [|y l Hs IH Hy]; simpl.
  - repeat constructor.
  - inversion Hl as [|? ? Ny Nl]; subst.
    destruct (fst x <? fst y) eqn:E.
    + constructor; auto.
      eapply Permutation_Forall; [symmetry; apply insert_by_score_perm|].
      constructor; auto. unfold score_ge. now apply ltb_true_leb.
    + assert (Hxy : score_ge x y) by (unfold score_ge; now apply ltb_false_leb).
      constructor; [now constructor|].
      constructor; auto.
      rewrite Forall_forall in *. intros z Hz.
      unfold score_ge in *.
      apply (leb_trans (fst z) (fst y) (fst x)); auto.
Qed.

Lemma sort_by_score_reverse_sorted l :
  Forall (fun y => not_nan (fst y)) l ->
  StronglySorted score_ge (sort_by_score_reverse l).
Proof.
  induction l as [|x l IH]; simpl; intros H.
  - constructor.
  - inversion H; subst. apply insert_by_score_sorted; auto.
    eapply Permutation_Forall; [symmetry; apply sort_by_score_reverse_perm|]; auto.
Qed.

Lemma insert_by_score_stable (s : float) x l :
  filter (fun p => fst p =? s) (insert_by_score x l)
  = filter (fun p => fst p =? s) (x :: l).
Proof.
  induction l as [|y l IH]; auto.
  cbn [insert_by_score]. destruct (fst x <? fst y) eqn:E; auto.
  cbn [filter] in *. rewrite IH.
  destruct (fst x =? s) eqn:Ex, (fst y =? s) eqn:Ey; auto.
  exfalso. eapply ltb_eqb_exclusive; eauto.
Qed.

Lemma sort_by_score_reverse_stable (s : float) l :
  filter (fun p => fst p =? s) (sort_by_score_reverse l)
  = filter (fun p => fst p =? s) l.
Proof.
  induction l as [|x l IH]; auto.
  cbn [sort_by_score_reverse fold_right].
  rewrite insert_by_score_stable. cbn [filter].
  unfold sort_by_score_reverse in IH. now rewrite IH.
Qed.

End Sorting.

(** ** The scoring loop *)

Local Open Scope py_scope.

Lemma get_article_embedding_returns a client w :
  exists emb a' w',
    get_article_embedding a client true w = (Returned (emb, a'), w') /\
    truthy_vector emb = has_embedding a' /\
    (truthy_vector emb = true -> embedding a' = emb) /\
    same_document a a' /\
    cache_file w' = cache_file w /\ disk_writable w' = disk_writable w /\
    (forall q,
       scorable q (embedding a) = true ->
       (forall n text, scorable q (embeddings_create client n EMBEDDING_MODEL text) = true) ->
       scorable q (embedding a') = true).
Proof.
  unfold get_article_embedding.
  destruct (has_embedding a) eqn:Hhas.
  - exists (embedding a), a, w. unfold same_document, has_embedding in *. simpl. auto 10.
  - destruct (PyStr.blank (embedding_text a)).
    + exists None, a, w. unfold same_document. simpl. rewrite Hhas.
      repeat split; auto; discriminate.
    + unfold try_except, bind, request_embedding, ret.
      destruct (embeddings_create client (api_calls w) EMBEDDING_MODEL (embedding_text a))
        as [e|] eqn:E.
      * exists (Some e), (set_embedding a e), (count_request w).
        unfold same_document, has_embedding. simpl. repeat split; eauto.
        intros q _ Hc. specialize (Hc (api_calls w) (embedding_text a)).
        rewrite E in Hc. exact Hc.
      * exists None, a, (count_request w). unfold same_document. simpl.
        rewrite Hhas. repeat split; auto; discriminate.
Qed.

Lemma score_articles_cons q client a rest w :
  score_articles q client (a :: rest) w =
  match get_article_embedding a client true w with
  | (Returned (emb, a'), w1) =>
      match emb with
      | Some ((_ :: _) as e) =>
          match cosine_similarity q e with
          | Returned similarity =>
              match score_articles q client rest w1 with
              | (Returned (scores, g, arts), w2) =>
                  (Returned ((similarity, a') :: scores,
                             ((if negb (has_embedding a') then 1 else 0) + g)%nat,
                             a' :: arts), w2)
              | (Raised ex, w2) => (Raised ex, w2)
              end
          | Raised ex => (Raised ex, w1)
          end
      | _ =>
          match score_articles q client rest w1 with
          | (Returned (scores, g, arts), w2) =>
              (Returned ((0, a') :: scores, g, a' :: arts), w2)
          | (Raised ex, w2) => (Raised ex, w2)
          end
      end
  | (Raised ex, w1) => (Raised ex, w1)
  end.
Proof.
  cbn [score_articles]. unfold bind, lift, ret.
  destruct (get_article_embedding a client true w) as [[[emb a']|ex] w1]; auto.
  destruct emb as [[|x e]|].
  - destruct (score_articles q client rest w1) as [[[[sc g] ar]|ex] w2]; auto.
  - destruct (cosine_similarity q (x :: e)); auto.
    destruct (score_articles q client rest w1) as [[[[sc g] ar]|ex] w2]; auto.
  - destruct (score_articles q client rest w1) as [[[[sc g] ar]|ex] w2]; auto.
Qed.

Lemma score_articles_inert q client : forall articles w,
  cache_file (snd (score_articles q client articles w)) = cache_file w /\
  disk_writable (snd (score_articles q client articles w)) = disk_writable w /\
  match fst (score_articles q client articles w) with
  | Returned (_, embeddings_generated, _) => embeddings_generated = 0%nat
  | Raised _ => True
  end.
Proof.
  induction articles as [|a rest IH]; intros w; [simpl; auto|].
  destruct (get_article_embedding_returns a client w)
    as (emb & a' & w1 & E & Ht & _ & _ & Hcf & Hdw & _).
  destruct (IH w1) as (IHc & IHd & IHg).
  rewrite score_articles_cons, E.
  destruct emb as [[|x e]|].
  - destruct (score_articles q client rest w1) as [[[[sc g] ar]|ex] w2]; simpl in *;
      repeat split; auto; congruence.
  - destruct (cosine_similarity q (x :: e)) as [r|ex]; [|simpl; auto].
    simpl in Ht. rewrite <- Ht.
    destruct (score_articles q client rest w1) as [[[[sc g] ar]|ex] w2]; simpl in *;
      repeat split; auto; congruence.
  - destruct (score_articles q client rest w1) as [[[[sc g] ar]|ex] w2]; simpl in *;
      repeat split; auto; congruence.
Qed.

Lemma similarity_score_falsy q a : has_embedding a = false -> similarity_score q a = 0.
Proof.
  unfold has_embedding, similarity_score.
  destruct (embedding a) as [[|x e]|]; simpl; auto; discriminate.
Qed.

Lemma score_articles_returns q client : forall articles w,
  Forall (fun a => scorable q (embedding a) = true) articles ->
  (forall n text, scorable q (embeddings_create client n EMBEDDING_MODEL text) = true) ->
  exists arts w',
    score_articles q client articles w
      = (Returned (map (fun a => (similarity_score q a, a)) arts, 0%nat, arts), w') /\
    Forall2 same_document articles arts /\
    Forall (fun a => scorable q (embedding a) = true) arts /\
    cache_file w' = cache_file w /\ disk_writable w' = disk_writable w.
Proof.
  induction articles as [|a rest IH]; intros w Hs Hc.
  - exists [], w. simpl. repeat split; constructor.
  - inversion Hs as [|? ? Ha Hrest]; subst.
    destruct (get_article_embedding_returns a client w)
      as (emb & a' & w1 & E & Ht & He & Hsame & Hcf & Hdw & Hsc).
    specialize (Hsc q Ha Hc).
    destruct (IH w1 Hrest Hc) as (arts & w2 & E2 & HF2 & HF & Hcf2 & Hdw2).
    exists (a' :: arts), w2.
    split; [|repeat split; try constructor; auto; congruence].
    rewrite score_articles_cons, E, E2.
    destruct emb as [[|x e]|].
    + simpl. rewrite similarity_score_falsy by (now rewrite <- Ht). reflexivity.
    + specialize (He eq_refl).
      assert (Hr : exists r, cosine_similarity q (x :: e) = Returned r /\
                             similarity_score q a' = r).
      { unfold similarity_score, scorable in *. rewrite He in *.
        destruct (cosine_similarity q (x :: e)); [eauto|discriminate]. }
      destruct Hr as (r & Hr1 & Hr2). rewrite Hr1. cbn [map]. rewrite Hr2.
      simpl in Ht. rewrite <- Ht. reflexivity.
    + simpl. rewrite similarity_score_falsy by (now rewrite <- Ht). reflexivity.
Qed.

(** ** Ranking of the scored articles *)

Lemma scorable_not_nan q a :
  scorable q (embedding a) = true -> not_nan (similarity_score q a).
Proof.
  unfold scorable, similarity_score, not_nan.
  destruct (embedding a) as [[|x e]|]; try reflexivity.
  destruct (cosine_similarity q (x :: e)); [|discriminate].
  now intros ->%negb_true_iff.
Qed.

Lemma sorted_scores_articles q (l : list (float * article)) :
  StronglySorted score_ge l ->
  Forall (fun p => fst p = similarity_score q (snd p)) l ->
  StronglySorted
    (fun a b => (similarity_score q b <=? similarity_score q a) = true)
    (map snd l).
Proof.
  induction 1 as [|p l Hl IH Hp]; intros Hinv; simpl; constructor;
    inversion Hinv as [|? ? Ep El]; subst; auto.
  apply Forall_map. rewrite Forall_forall in *. intros y Hy.
  rewrite <- Ep, <- (El y Hy). now apply Hp.
Qed.

Lemma sorted_scores_ranking q arts :
  Forall (fun a => scorable q (embedding a) = true) arts ->
  ranking_of q arts
    (map snd (sort_by_score_reverse
                (map (fun a => (similarity_score q a, a)) arts))).
Proof.
  intros Hs.
  set (scored := map (fun a => (similarity_score q a, a)) arts).
  assert (Hsnd : map snd scored = arts).
  { unfold scored. rewrite map_map. simpl. apply map_id. }
  assert (Hinv : Forall (fun p => fst p = similarity_score q (snd p)) scored).
  { unfold scored. apply Forall_map. simpl. now apply Forall_forall. }
  assert (Hinv' : Forall (fun p => fst p = similarity_score q (snd p))
                    (sort_by_score_reverse scored)).
  { eapply Permutation_Forall; [symmetry; apply sort_by_score_reverse_perm|]; auto. }
  assert (Hnan : Forall (fun p => not_nan (fst p)) scored).
  { unfold scored. apply Forall_map. simpl.
    eapply Forall_impl; [|exact Hs]. intros a. apply scorable_not_nan. }
  split.
  - apply Permutation_trans with (map snd scored).
    + apply Permutation_map, sort_by_score_reverse_perm.
    + now rewrite Hsnd.
  - apply sorted_scores_articles; auto.
    now apply sort_by_score_reverse_sorted.
  - intros s.
    assert (Hmap : forall l, Forall (fun p => fst p = similarity_score q (snd p)) l ->
              filter (fun a => similarity_score q a =? s) (map snd l)
              = map snd (filter (fun p : float * article => fst p =? s) l)).
    { induction 1 as [|p l Ep Hl IH]; simpl; auto.
      rewrite <- Ep. destruct (fst p =? s); simpl; now rewrite IH. }
    rewrite Hmap by assumption.
    rewrite sort_by_score_reverse_stable, <- Hmap by assumption.
    now rewrite Hsnd.
Qed.

(** Two rankings by non-increasing score that agree on the articles of
    every score are one list: the order of a stable sort does not depend
    on how the sort proceeds. *)
Lemma sorted_stable_unique q (r1 : list article) : forall r2,
  Forall (fun a => not_nan (similarity_score q a)) r1 ->
  Forall (fun a => not_nan (similarity_score q a)) r2 ->
  StronglySorted
    (fun a b => (similarity_score q b <=? similarity_score q a) = true) r1 ->
  StronglySorted
    (fun a b => (similarity_score q b <=? similarity_score q a) = true) r2 ->
  (forall s, filter (fun a => similarity_score q a =? s) r1
             = filter (fun a => similarity_score q a =? s) r2) ->
  r1 = r2.
Proof.
  induction r1 as [|x r1 IH]; intros [|y r2] N1 N2 S1 S2 Hf; auto.
  - specialize (Hf (similarity_score q y)). simpl in Hf.
    rewrite eqb_refl_not_nan in Hf by (now inversion N2). discriminate.
  - specialize (Hf (similarity_score q x)). simpl in Hf.
    rewrite eqb_refl_not_nan in Hf by (now inversion N1). discriminate.
  - inversion N1 as [|? ? Nx N1']; inversion N2 as [|? ? Ny N2']; subst.
    inversion S1 as [|? ? S1' Hx]; inversion S2 as [|? ? S2' Hy]; subst.
    assert (Hin : forall (l l' : list article) z,
              not_nan (similarity_score q z) ->
              (forall s, filter (fun a => similarity_score q a =? s) l
                         = filter (fun a => similarity_score q a =? s) l') ->
              In z l -> In z l').
    { intros l l' z Nz H Hz.
      assert (Hz' : In z (filter (fun a => similarity_score q a =? similarity_score q z) l)).
      { apply filter_In. split; auto. now apply eqb_refl_not_nan. }
      rewrite H in Hz'. now apply filter_In in Hz'. }
    assert (Hyx : (similarity_score q x <=? similarity_score q y) = true).
    { destruct (Hin _ _ x Nx Hf (or_introl eq_refl)) as [<-|Hx'].
      - now apply leb_refl_not_nan.
      - rewrite Forall_forall in Hy. now apply Hy. }
    assert (Hxy : (similarity_score q y <=? similarity_score q x) = true).
    { destruct (Hin _ _ y Ny (fun s => eq_sym (Hf s)) (or_introl eq_refl)) as [<-|Hy'].
      - now apply leb_refl_not_nan.
      - rewrite Forall_forall in Hx. now apply Hx. }
    assert (Heq : (similarity_score q y =? similarity_score q x) = true)
      by now apply leb_antisym_eqb.
    assert (x = y).
    { specialize (Hf (similarity_score q x)). simpl in Hf.
      rewrite eqb_refl_not_nan, Heq in Hf by assumption. congruence. }
    subst y. f_equal. apply IH; auto.
    intros s. specialize (Hf s). simpl in Hf.
    destruct (similarity_score q x =? s); congruence.
Qed.

Lemma ranking_of_unique q arts r1 r2 :
  Forall (fun a => scorable q (embedding a) = true) arts ->
  ranking_of q arts r1 -> ranking_of q arts r2 -> r1 = r2.
Proof.
  intros Hs [P1 S1 F1] [P2 S2 F2].
  assert (N : Forall (fun a => not_nan (similarity_score q a)) arts).
  { eapply Forall_impl; [|exact Hs]. intros a. apply scorable_not_nan. }
  apply (sorted_stable_unique q); auto.
  - eapply Permutation_Forall; [symmetry; exact P1|exact N].
  - eapply Permutation_Forall; [symmetry; exact P2|exact N].
  - intros s. now rewrite F1, F2.
Qed.

(** ** [find_similar_articles] *)

Lemma find_similar_articles_eq query articles client top_k w :
  find_similar_articles query articles client top_k w =
  match embeddings_create client (api_calls w) EMBEDDING_MODEL query with
  | None => (Returned (py_slice_to articles top_k, articles), count_request w)
  | Some q =>
      match score_articles q client articles (count_request w) with
      | (Returned (scores, g, arts), w2) =>
          (Returned
             (map snd (py_slice_to (sort_by_score_reverse scores) top_k), arts),
           if (0 <? g)%nat
           then snd (try_except (dump_cache arts) (fun _ => ret tt) w2)
           else w2)
      | (Raised ex, w2) => (Raised ex, w2)
      end
  end.
Proof.
  unfold find_similar_articles, bind, try_except, request_embedding, ret.
  destruct (embeddings_create client (api_calls w) EMBEDDING_MODEL query) as [q|]; auto.
  destruct (score_articles q client articles (count_request w))
    as [[[[sc g] ar]|ex] w2]; auto.
  destruct (0 <? g)%nat; auto.
  unfold dump_cache. destruct (disk_writable w2); auto.
Qed.

Lemma py_slice_to_nonneg {A} (l : list A) (k : Z) :
  (0 <= k)%Z -> py_slice_to l k = firstn (Z.to_nat k) l.
Proof. intros H. unfold py_slice_to. now apply Z.leb_le in H as ->. Qed.

Lemma same_document_refl a : same_document a a.
Proof. now left. Qed.

Lemma Forall2_same_document_refl l : Forall2 same_document l l.
Proof. induction l; constructor; auto using same_document_refl. Qed.

(** The snapshot file is never rewritten by a ranking call. *)
Lemma find_similar_articles_never_dumps query articles client top_k w :
  cache_file (snd (find_similar_articles query articles client top_k w))
  = cache_file w.
Proof.
  rewrite find_similar_articles_eq.
  destruct (embeddings_create client (api_calls w) EMBEDDING_MODEL query) as [q|]; auto.
  destruct (score_articles_inert q client articles (count_request w)) as (Hc & _ & Hg).
  destruct (score_articles q client articles (count_request w))
    as [[[[sc g] ar]|ex] w2]; simpl in *; auto.
  subst g. simpl. exact Hc.
Qed.

(** What a ranking call does when the query was embedded as [q] and every
    vector it meets can be scored against [q]. *)
Lemma find_similar_articles_scored query articles client top_k w q :
  (0 <= top_k)%Z ->
  embeddings_create client (api_calls w) EMBEDDING_MODEL query = Some q ->
  Forall (fun a => scorable q (embedding a) = true) articles ->
  (forall n text, scorable q (embeddings_create client n EMBEDDING_MODEL text) = true) ->
  exists arts ranking w',
    find_similar_articles query articles client top_k w
      = (Returned (firstn (Z.to_nat top_k) ranking, arts), w') /\
    Forall2 same_document articles arts /\
    Forall (fun a => scorable q (embedding a) = true) arts /\
    ranking_of q arts ranking.
Proof.
  intros Hk Hq Hs Hc.
  destruct (score_articles_returns q client articles (count_request w) Hs Hc)
    as (arts & w' & E & HF2 & HF & _ & _).
  exists arts,
    (map snd (sort_by_score_reverse (map (fun a => (similarity_score q a, a)) arts))),
    w'.
  split; [|split; [|split]]; auto using sorted_scores_ranking.
  rewrite find_similar_articles_eq, Hq, E. simpl.
  now rewrite py_slice_to_nonneg, firstn_map by assumption.
Qed.

(** C4, as amended.  A ranking call with [top_k >= 0] returns, and returns
    at most [top_k] articles.  When the query was embedded, they are the first
    [top_k] of a list that holds every article of the input, ordered by
    non-increasing similarity score, articles of equal score in their input
    order.  The ordering is relative to the query vector [q]; it is stated
    for calls in which every stored vector and every vector the model
    returns has the dimension of [q] and a cosine with [q] that is not
    NaN. *)
Theorem find_similar_articles_top_k_sorted query articles client top_k w :
  (0 <= top_k)%Z ->
  (forall q,
     embeddings_create client (api_calls w) EMBEDDING_MODEL query = Some q ->
     Forall (fun a => scorable q (embedding a) = true) articles /\
     forall n text, scorable q (embeddings_create client n EMBEDDING_MODEL text) = true) ->
  exists result arts w',
    find_similar_articles query articles client top_k w
      = (Returned (result, arts), w') /\
    (length result <= Z.to_nat top_k)%nat /\
    Forall2 same_document articles arts /\
    forall q,
      embeddings_create client (api_calls w) EMBEDDING_MODEL query = Some q ->
      exists ranking,
        result = firstn (Z.to_nat top_k) ranking /\ ranking_of q arts ranking.
Proof.
  intros Hk H.
  destruct (embeddings_create client (api_calls w) EMBEDDING_MODEL query) as [q|] eqn:Hq.
  - destruct (H q eq_refl) as [Hs Hc].
    destruct (find_similar_articles_scored query articles client top_k w q Hk Hq Hs Hc)
      as (arts & ranking & w' & E & HF2 & _ & Hr).
    exists (firstn (Z.to_nat top_k) ranking), arts, w'.
    repeat split; auto using firstn_le_length.
    intros q' [= <-]. eauto.
  - exists (firstn (Z.to_nat top_k) articles), articles, (count_request w).
    repeat split; auto using firstn_le_length, Forall2_same_document_refl.
    + rewrite find_similar_articles_eq, Hq. now rewrite py_slice_to_nonneg.
    + discriminate.
Qed.

Lemma find_similar_articles_top_k_sorted_witness :
  exists result arts w',
    find_similar_articles "what is microtransit"
      [Samples.aligned_post; Samples.blog_post] Samples.steady_client 1
      Samples.fresh_world
      = (Returned (result, arts), w') /\
    (length result <= Z.to_nat 1)%nat /\
    Forall2 same_document [Samples.aligned_post; Samples.blog_post] arts /\
    forall q,
      embeddings_create Samples.steady_client (api_calls Samples.fresh_world)
        EMBEDDING_MODEL "what is microtransit" = Some q ->
      exists ranking,
        result = firstn (Z.to_nat 1) ranking /\ ranking_of q arts ranking.
Proof.
  apply find_similar_articles_top_k_sorted.
  - lia.
  - intros q H. simpl in H. injection H as <-. split.
    + repeat constructor.
    + intros n text. reflexivity.
Defined.

(** C4 fails as stated.  With the query embedded as [[0.6; 0.8]], the
    stored vector [[1; 0]] scores [0.6], the stored zero vector scores NaN
    (the quotient of two zeros) and the stored vector [[0.6; 0.8]] scores
    [1].  The sort compares NaN with its neighbours, finds nothing to move,
    and the article of score [0.6] is returned before the article of score
    [1].  A stored vector of another dimension makes the call raise, so
    that nothing is returned. *)
Lemma stored_zero_vector_breaks_the_order :
  cosine_similarity [0.6; 0.8] [1; 0] = Returned 0.6 /\
  cosine_similarity [0.6; 0.8] [0; 0] = Returned nan /\
  cosine_similarity [0.6; 0.8] [0.6; 0.8] = Returned 1 /\
  (0.6 <? 1) = true /\
  fst (find_similar_articles "what is microtransit"
         [Samples.aligned_post; Samples.zero_post; Samples.matching_post]
         Samples.steady_client 25 Samples.fresh_world)
  = Returned ([Samples.aligned_post; Samples.zero_post; Samples.matching_post],
              [Samples.aligned_post; Samples.zero_post; Samples.matching_post]) /\
  fst (find_similar_articles "what is microtransit"
         [Samples.opposite_post] Samples.steady_client 25 Samples.fresh_world)
  = Raised ValueError.
Proof. repeat split; vm_compute; reflexivity. Qed.

(** C5. When the embedding of the query fails, a ranking call returns the
    first [top_k] articles in corpus order and raises nothing; the articles
    and the snapshot file are left as they were. *)
Theorem find_similar_articles_fails_open query articles client top_k w :
  (0 <= top_k)%Z ->
  embeddings_create client (api_calls w) EMBEDDING_MODEL query = None ->
  find_similar_articles query articles client top_k w
  = (Returned (firstn (Z.to_nat top_k) articles, articles), count_request w).
Proof.
  intros Hk Hq. rewrite find_similar_articles_eq, Hq.
  now rewrite py_slice_to_nonneg.
Qed.

Lemma find_similar_articles_fails_open_witness :
  find_similar_articles "bike lanes"
    [Samples.opposite_post; Samples.blog_post] Samples.query_only_client 1
    Samples.fresh_world
  = (Returned (firstn (Z.to_nat 1) [Samples.opposite_post; Samples.blog_post],
               [Samples.opposite_post; Samples.blog_post]),
     count_request Samples.fresh_world).
Proof.
  apply find_similar_articles_fails_open; [lia|reflexivity].
Defined.

Lemma StronglySorted_split {A} (R : A -> A -> Prop) l1 x l2 :
  StronglySorted R (l1 ++ x :: l2)%list ->
  Forall (fun b => R b x) l1 /\ Forall (R x) l2.
Proof.
  induction l1 as [|b l1 IH]; simpl; intros H.
  - inversion H; subst. auto.
  - inversion H as [|? ? H' Hb]; subst.
    destruct (IH H') as [H1 H2]. split; auto.
    constructor; auto.
    rewrite Forall_forall in Hb. apply Hb, in_or_app. right. now left.
Qed.

(** C2, as amended.  A document for which no vector could be obtained (it
    carries none when the call returns) is given the score [0.0] and stays
    in the ranking, which is a permutation of all the articles; every
    article whose score is greater than [0.0] comes before it, and every
    article whose score is less than [0.0] comes after it. *)
Theorem failed_embedding_scores_zero query articles client top_k w q :
  (0 <= top_k)%Z ->
  embeddings_create client (api_calls w) EMBEDDING_MODEL query = Some q ->
  Forall (fun a => scorable q (embedding a) = true) articles ->
  (forall n text, scorable q (embeddings_create client n EMBEDDING_MODEL text) = true) ->
  exists arts ranking w',
    find_similar_articles query articles client top_k w
      = (Returned (firstn (Z.to_nat top_k) ranking, arts), w') /\
    Forall2 same_document articles arts /\
    Permutation ranking arts /\
    forall d,
      In d arts -> has_embedding d = false ->
      similarity_score q d = 0 /\
      forall before after,
        ranking = (before ++ d :: after)%list ->
        forall a, In a ranking ->
          ((0 <? similarity_score q a) = true -> In a before) /\
          ((similarity_score q a <? 0) = true -> In a after).
Proof.
  intros Hk Hq Hs Hc.
  destruct (find_similar_articles_scored query articles client top_k w q Hk Hq Hs Hc)
    as (arts & ranking & w' & E & HF2 & HF & [Hperm Hsorted _]).
  exists arts, ranking, w'.
  split; [exact E|]. split; [exact HF2|]. split; [exact Hperm|].
  intros d Hd_in Hd_emb.
  assert (Hd : similarity_score q d = 0) by now apply similarity_score_falsy.
  split; [exact Hd|].
  intros before after -> a Ha.
  apply StronglySorted_split in Hsorted as [Hbefore Hafter].
  rewrite Forall_forall in Hbefore, Hafter.
  split; intros Hcmp.
  - apply in_app_or in Ha as [Ha|[<-|Ha]]; auto; exfalso.
    + rewrite Hd in Hcmp. discriminate.
    + specialize (Hafter a Ha). simpl in Hafter. rewrite Hd in Hafter.
      destruct (ltb_true_not_nan _ _ Hcmp) as [N0 Na].
      apply leb_key in Hafter; auto. apply ltb_key in Hafter; auto. congruence.
  - apply in_app_or in Ha as [Ha|[<-|Ha]]; auto; exfalso.
    + specialize (Hbefore a Ha). simpl in Hbefore. rewrite Hd in Hbefore.
      destruct (ltb_true_not_nan _ _ Hcmp) as [Na N0].
      apply leb_key in Hbefore; auto. apply ltb_key in Hbefore; auto. congruence.
    + rewrite Hd in Hcmp. discriminate.
Qed.

Lemma failed_embedding_scores_zero_witness :
  exists arts ranking w',
    find_similar_articles "school bus routing"
      [Samples.opposite_post; Samples.blog_post] Samples.query_only_client 25
      Samples.fresh_world
      = (Returned (firstn (Z.to_nat 25) ranking, arts), w') /\
    Forall2 same_document [Samples.opposite_post; Samples.blog_post] arts /\
    Permutation ranking arts /\
    forall d,
      In d arts -> has_embedding d = false ->
      similarity_score [1] d = 0 /\
      forall before after,
        ranking = (before ++ d :: after)%list ->
        forall a, In a ranking ->
          ((0 <? similarity_score [1] a) = true -> In a before) /\
          ((similarity_score [1] a <? 0) = true -> In a after).
Proof.
  apply failed_embedding_scores_zero.
  - lia.
  - reflexivity.
  - repeat constructor.
  - intros n text. simpl.
    destruct (String.eqb text "school bus routing"); reflexivity.
Defined.

(** C2 fails as stated: the blog post, for which the model returns no
    vector, is ranked before the article whose computed cosine is [-1]. *)
Lemma failed_embedding_ranked_before_negative_score :
  fst (get_article_embedding Samples.blog_post Samples.query_only_client true
         Samples.fresh_world) = Returned (None, Samples.blog_post) /\
  cosine_similarity [1] [-1] = Returned (-1) /\
  (-1 <? 0) = true /\
  fst (find_similar_articles "school bus routing"
         [Samples.opposite_post; Samples.blog_post] Samples.query_only_client 25
         Samples.fresh_world)
  = Returned ([Samples.blog_post; Samples.opposite_post],
              [Samples.opposite_post; Samples.blog_post]).
Proof. repeat split; vm_compute; reflexivity. Qed.

(** C1 does not hold of the code.  The blog post enters the call without
    an embedding, the model returns one, the article leaves with it, and
    the snapshot file still holds the corpus without it. *)
Theorem new_embedding_is_not_written_back :
  find_similar_articles "what is microtransit" [Samples.blog_post]
    Samples.steady_client 25 Samples.cached_world
  = (Returned ([set_embedding Samples.blog_post [0.6; 0.8]],
               [set_embedding Samples.blog_post [0.6; 0.8]]),
     {| cache_file := Some [Samples.blog_post]; disk_writable := true;
        api_calls := 2; rng_draws := 0 |}).
Proof. vm_compute. reflexivity. Qed.

(** ** Crawler *)

Lemma append_assoc (a b c : string) : (a ++ b) ++ c = a ++ b ++ c.
Proof. induction a as [|x a IH]; simpl; congruence. Qed.

Lemma prefix_spec p : forall s, String.prefix p s = true <-> exists b, s = p ++ b.
Proof.
  induction p as [|c p IH]; intros s; simpl.
  - destruct s; split; eauto.
  - destruct s as [|c' s]; simpl.
    + split; [discriminate|intros [b H]; discriminate].
    + destruct (ascii_dec c c') as [->|Hne].
      * rewrite IH. split; intros [b H]; exists b; congruence.
      * split; [discriminate|]. intros [b H]. congruence.
Qed.

Lemma py_in_spec needle : forall hay,
  PyStr.py_in needle hay = true <-> exists a b, hay = a ++ needle ++ b.
Proof.
  induction hay as [|c hay IH]; cbn [PyStr.py_in].
  - rewrite orb_false_r, prefix_spec. split.
    + intros [b H]. now exists "", b.
    + intros (a & b & H). destruct a; [eauto|discriminate].
  - rewrite orb_true_iff, prefix_spec, IH. split.
    + intros [[b H]|(a & b & H)].
      * now exists "", b.
      * exists (String c a), b. simpl. now rewrite H.
    + intros (a & b & H). destruct a as [|c' a]; simpl in H.
      * left. eauto.
      * right. exists a, b. congruence.
Qed.

Lemma py_in_infix needle inner outer :
  (exists a b, outer = a ++ inner ++ b) ->
  PyStr.py_in needle inner = true -> PyStr.py_in needle outer = true.
Proof.
  intros (a & b & ->). rewrite !py_in_spec. intros (a' & b' & ->).
  exists (a ++ a'), (b' ++ b). now rewrite !append_assoc.
Qed.

Lemma span_spec p : forall s, s = fst (Url.span p s) ++ snd (Url.span p s).
Proof.
  induction s as [|c s IH]; simpl; auto.
  destruct (p c); auto.
  destruct (Url.span p s); simpl in *. now rewrite IH at 1.
Qed.

Lemma split_scheme_suffix u : exists pre, u = pre ++ snd (Url.split_scheme u).
Proof.
  unfold Url.split_scheme.
  pose proof (span_spec Url.is_scheme_char u) as H.
  destruct (Url.span Url.is_scheme_char u) as [sch rest]; simpl in H.
  destruct sch as [|c sch]; [now exists ""|].
  destruct rest as [|c' rest]; [now exists ""|].
  destruct c' as [[] [] [] [] [] [] [] []]; try now exists "".
  exists (String c sch ++ ":"). rewrite H at 1. simpl. f_equal.
  now rewrite append_assoc.
Qed.

Lemma split_authority_suffix s : exists pre, s = pre ++ snd (Url.split_authority s).
Proof.
  unfold Url.split_authority.
  destruct s as [|c s]; [now exists ""|].
  destruct c as [[] [] [] [] [] [] [] []]; try now exists "".
  destruct s as [|c s]; [now exists ""|].
  destruct c as [[] [] [] [] [] [] [] []]; try now exists "".
  exists ("//" ++ fst (Url.span (fun c => negb (Url.ends_authority c)) s)).
  rewrite (span_spec (fun c => negb (Url.ends_authority c)) s) at 1.
  reflexivity.
Qed.

Lemma path_infix u : exists a b, u = a ++ Url.path u ++ b.
Proof.
  unfold Url.path.
  destruct (split_scheme_suffix u) as [p1 H1].
  destruct (split_authority_suffix (snd (Url.split_scheme u))) as [p2 H2].
  set (rest := snd (Url.split_authority (snd (Url.split_scheme u)))) in *.
  exists (p1 ++ p2), (snd (Url.span (fun c => negb (Url.ends_path c)) rest)).
  rewrite <- span_spec, append_assoc, <- H2. exact H1.
Qed.

Lemma py_in_path needle u :
  PyStr.py_in needle (Url.path u) = true -> PyStr.py_in needle u = true.
Proof. apply py_in_infix, path_infix. Qed.

(** C3 does not hold of the code.  The share button
    [Samples.share_link] points to the host [www.linkedin.com], not to
    [ridewithvia.com]; since its URL contains the text [ridewithvia.com]
    and [/blog/], the crawler puts it on the frontier, marks it seen and
    makes it an article of type [blog]. *)
Theorem share_link_of_foreign_host_is_kept (urljoin : string -> string -> string) :
  Url.netloc WEBSITE_URL = "ridewithvia.com" /\
  Url.netloc (Crawler.href Samples.share_link) = "www.linkedin.com" /\
  Crawler.discover_link urljoin (Some "Via blog") Samples.empty_crawl
    Samples.share_link
  = {| Crawler.urls_to_visit := [Crawler.href Samples.share_link];
       Crawler.seen_urls := [Crawler.href Samples.share_link];
       Crawler.articles :=
         [ {| url := Crawler.href Samples.share_link;
              title := "Share on LinkedIn"; content := ""; description := "";
              type := "blog"; thumbnail := ""; states := None;
              embedding := None |} ] |}.
Proof. repeat split. Qed.

(** C6 fails as stated: the path of this URL contains [/case-studies/],
    and the article is typed [resource]. *)
Lemma case_study_under_resources_is_resource :
  PyStr.py_in "/case-studies/"
    (Url.path "https://ridewithvia.com/resources/case-studies/arlington-tx") = true /\
  Crawler.article_type "https://ridewithvia.com/resources/case-studies/arlington-tx"
  = "resource".
Proof. split; reflexivity. Qed.
Lemma discover_link_types urljoin soup_title st link :
  Forall (fun a => type a = Crawler.article_type (url a)) (Crawler.articles st) ->
  Forall (fun a => type a = Crawler.article_type (url a))
    (Crawler.articles (Crawler.discover_link urljoin soup_title st link)).
Proof.
  intros H. unfold Crawler.discover_link.
  destruct (negb (PyStr.truthy (Crawler.href link))); auto.
  destruct (Crawler.normalize_url urljoin (Crawler.href link)) as [full_url|]; auto.
  destruct (PyStr.py_in "ridewithvia.com" full_url &&
            negb (Crawler.in_set full_url (Crawler.seen_urls st))); auto.
  destruct (existsb (fun p => PyStr.py_in p full_url) Crawler.content_paths); auto.
  cbn [Crawler.articles].
  destruct (PyStr.truthy _ && _ && _); auto.
  apply Forall_app. split; auto.
Qed.

(** C6, as amended.  The type of every discovered article is a function
    of its URL, [article_type]: a URL whose path contains [/blog/] is typed
    [blog]; a URL whose path contains [/case-studies/] is typed
    [case-study] provided the URL contains neither [/blog/] nor
    [/resources/], which are tested first; a URL that contains none of the
    five segments is typed [page]. *)
Theorem article_type_by_url :
  (forall urljoin soup_title links st,
     Forall (fun a => type a = Crawler.article_type (url a)) (Crawler.articles st) ->
     Forall (fun a => type a = Crawler.article_type (url a))
       (Crawler.articles (Crawler.discover_page urljoin soup_title links st))) /\
  (forall u, PyStr.py_in "/blog/" (Url.path u) = true ->
             Crawler.article_type u = "blog") /\
  (forall u, PyStr.py_in "/case-studies/" (Url.path u) = true ->
             PyStr.py_in "/blog/" u = false ->
             PyStr.py_in "/resources/" u = false ->
             Crawler.article_type u = "case-study") /\
  (forall u, PyStr.py_in "/blog/" u = false ->
             PyStr.py_in "/resources/" u = false ->
             PyStr.py_in "/case-studies/" u = false ->
             PyStr.py_in "/solutions/" u = false ->
             PyStr.py_in "/audience/" u = false ->
             Crawler.article_type u = "page").
Proof.
  repeat split.
  - intros urljoin soup_title links. unfold Crawler.discover_page.
    induction links as [|link links IH]; intros st H; simpl; auto.
    apply IH. now apply discover_link_types.
  - intros u H%py_in_path. unfold Crawler.article_type. now rewrite H.
  - intros u H%py_in_path Hb Hr. unfold Crawler.article_type.
    now rewrite Hb, Hr, H.
  - intros u Hb Hr Hc Hs Ha. unfold Crawler.article_type.
    now rewrite Hb, Hr, Hc, Hs, Ha.
Qed.

Lemma article_type_by_url_witness :
  Forall (fun a => type a = Crawler.article_type (url a))
    (Crawler.articles
       (Crawler.discover_page (fun base rel => base ++ rel) (Some "Via blog")
          [Samples.share_link;
           {| Crawler.href := "/case-studies/arlington-tx";
              Crawler.anchor_text := "Arlington, Texas";
              Crawler.title_attr := ""; Crawler.aria_label := "" |}]
          Samples.empty_crawl)) /\
  Crawler.article_type "https://ridewithvia.com/blog/microtransit-101" = "blog" /\
  Crawler.article_type "https://ridewithvia.com/case-studies/arlington-tx" = "case-study" /\
  Crawler.article_type "https://ridewithvia.com/about/team" = "page".
Proof.
  destruct article_type_by_url as (H1 & H2 & H3 & H4).
  split; [|split; [|split]].
  - apply H1. constructor.
  - apply H2. reflexivity.
  - apply H3; reflexivity.
  - apply H4; reflexivity.
Defined.

(** ** Geographic filter *)

Lemma dict_get_None {V} (d : list (string * V)) k :
  ~ In k (map fst d) -> dict_get d k = None.
Proof.
  induction d as [|[k' v] d IH]; simpl; auto.
  intros H. destruct (String.eqb_spec k k') as [->|Hne].
  - exfalso. auto.
  - apply IH. tauto.
Qed.

(** C10. For a [user_state] that is not a key of [STATE_COORDINATES],
    [get_articles_by_location] returns the very list it was given: nothing
    is filtered by distance, tagged articles are kept, and no bound of 10
    applies. *)
Theorem unknown_state_returns_input m rng articles user_state max_distance w :
  ~ In user_state (map fst STATE_COORDINATES) ->
  get_articles_by_location m rng articles user_state max_distance w
  = (Returned articles, w).
Proof.
  intros H. unfold get_articles_by_location.
  now rewrite (dict_get_None _ _ H).
Qed.

Lemma unknown_state_returns_input_witness :
  get_articles_by_location Samples.crude_libm Samples.reversing_rng
    [Samples.maine_study; Samples.untagged_study; Samples.blog_post] "PR" 500
    Samples.fresh_world
  = (Returned [Samples.maine_study; Samples.untagged_study; Samples.blog_post],
     Samples.fresh_world).
Proof.
  apply unknown_state_returns_input.
  simpl. intros H.
  repeat (destruct H as [H|H]; [discriminate H|]). exact H.
Defined.

Lemma any_state_within_beyond m user_lat user_lon max_distance sts :
  Forall (beyond_bound m user_lat user_lon max_distance) sts ->
  any_state_within m user_lat user_lon max_distance sts = Returned false.
Proof.
  induction 1 as [|state sts Hs _ IH]; cbn [any_state_within]; auto.
  unfold beyond_bound in Hs.
  destruct (dict_get STATE_COORDINATES state) as [[lat lon]|]; auto.
  destruct Hs as (d & Hd & Hle). rewrite Hd. cbn [obind]. now rewrite Hle.
Qed.

Lemma location_matches_none m user_lat user_lon max_distance l :
  (forall a sts, In a l -> states a = Some sts ->
     Forall (beyond_bound m user_lat user_lon max_distance) sts) ->
  location_matches m user_lat user_lon max_distance l = Returned [].
Proof.
  induction l as [|a l IH]; intros H; cbn [location_matches]; auto.
  rewrite any_state_within_beyond.
  - cbn [obind]. rewrite IH; auto. intros b sts Hb. apply H. now right.
  - destruct (states a) as [sts|] eqn:E; [|constructor].
    apply (H a); [now left|exact E].
Qed.

Lemma In_firstn {A} n (l : list A) x : In x (firstn n l) -> In x l.
Proof.
  intros H. rewrite <- (firstn_skipn n l). apply in_or_app. now left.
Qed.

(** C8, as amended.  For a region with known coordinates, when every state
    of every state-tagged article is further away than the bound (or has no
    coordinates), [get_articles_by_location] returns the first 10 of a
    shuffle of the untagged articles: at most 10 articles, each of them an
    article of the input without state tags, that is, without the key
    ['states'] or with an empty list under it. *)
Theorem no_location_match_samples_untagged
    m rng articles user_state max_distance w user_lat user_lon :
  (forall n l, Permutation l (random_shuffle rng n l)) ->
  dict_get STATE_COORDINATES user_state = Some (user_lat, user_lon) ->
  (forall a sts, In a articles -> has_states a = true -> states a = Some sts ->
     Forall (beyond_bound m user_lat user_lon max_distance) sts) ->
  exists result w',
    get_articles_by_location m rng articles user_state max_distance w
      = (Returned result, w') /\
    result = firstn 10 (random_shuffle rng (rng_draws w)
                          (filter (fun a => negb (has_states a)) articles)) /\
    (length result <= 10)%nat /\
    forall d, In d result -> In d articles /\ has_states d = false.
Proof.
  intros Hperm Hcoord Hfar.
  unfold get_articles_by_location. rewrite Hcoord.
  unfold bind, lift. rewrite location_matches_none.
  - cbn -[firstn]. unfold bind, shuffle, ret. eexists _, _.
    split; [reflexivity|]. split; [reflexivity|].
    split; [apply firstn_le_length|].
    intros d Hd%In_firstn.
    eapply Permutation_in in Hd; [|symmetry; apply Hperm].
    apply filter_In in Hd as [Hin Hun]. split; auto.
    now apply negb_true_iff.
  - intros a sts [Ha Hs]%filter_In. now apply Hfar.
Qed.

Lemma no_location_match_samples_untagged_witness :
  exists result w',
    get_articles_by_location Samples.crude_libm Samples.reversing_rng
      [Samples.far_study; Samples.untagged_study; Samples.maine_study;
       Samples.blog_post] "CA" 500 Samples.fresh_world
      = (Returned result, w') /\
    result = firstn 10 (random_shuffle Samples.reversing_rng
                          (rng_draws Samples.fresh_world)
                          (filter (fun a => negb (has_states a))
                             [Samples.far_study; Samples.untagged_study;
                              Samples.maine_study; Samples.blog_post])) /\
    (length result <= 10)%nat /\
    forall d, In d result ->
      In d [Samples.far_study; Samples.untagged_study; Samples.maine_study;
            Samples.blog_post] /\ has_states d = false.
Proof.
  apply (no_location_match_samples_untagged Samples.crude_libm
           Samples.reversing_rng _ "CA" 500 Samples.fresh_world
           36.116203 (-119.681564)).
  - intros n l. apply Permutation_rev.
  - reflexivity.
  - intros a sts Ha _ Hs. simpl in Ha.
    destruct Ha as [<-|[<-|[<-|[<-|[]]]]]; inversion Hs; subst.
    + repeat constructor.
    + repeat constructor. unfold beyond_bound. simpl.
      eexists. split; reflexivity.
Defined.

(** C8 fails as stated: the returned articles need not lack the field
    ['states'].  The test of line 444 is
    ['states' in article and article.get('states')], which an empty list
    fails: the case study below carries the key, counts as untagged and is
    returned. *)
Lemma empty_states_list_counts_as_untagged :
  states Samples.empty_tags_study = Some [] /\
  has_states Samples.empty_tags_study = false /\
  fst (get_articles_by_location Samples.crude_libm Samples.reversing_rng
         [Samples.empty_tags_study] "CA" 500 Samples.fresh_world)
  = Returned [Samples.empty_tags_study].
Proof. repeat split; vm_compute; reflexivity. Qed.

(** ** Recommender *)

(** C7 fails as stated: on the empty corpus the case-study component is
    the empty list, not [None]. *)
Lemma empty_corpus_case_studies_not_none :
  recommend_articles Samples.crude_libm Samples.reversing_rng [] "city" "CA"
    Samples.steady_client Samples.fresh_world
  = (Returned {| general := []; case_studies := Some [] |}, Samples.fresh_world) /\
  case_studies {| general := []; case_studies := Some [] |} <> None.
Proof. split; [reflexivity|discriminate]. Qed.

(** C7, as amended.  On an empty corpus [recommend_articles] returns
    without raising, with an empty general list and an empty case-study
    list, and leaves the world untouched. *)
Theorem recommend_articles_empty_corpus m rng user_type user_state client w :
  recommend_articles m rng [] user_type user_state client w
  = (Returned {| general := []; case_studies := Some [] |}, w).
Proof. reflexivity. Qed.

(** ** More on the similarity index *)

Lemma get_article_embedding_cases a client save_to_cache w :
  (has_embedding a = true /\
   get_article_embedding a client save_to_cache w = (Returned (embedding a, a), w)) \/
  (needs_request a = false /\ has_embedding a = false /\
   get_article_embedding a client save_to_cache w = (Returned (None, a), w)) \/
  (needs_request a = true /\
   exists e,
     embeddings_create client (api_calls w) EMBEDDING_MODEL (embedding_text a) = Some e /\
     get_article_embedding a client save_to_cache w
     = (Returned (Some e, if save_to_cache then set_embedding a e else a),
        count_request w)) \/
  (needs_request a = true /\
   embeddings_create client (api_calls w) EMBEDDING_MODEL (embedding_text a) = None /\
   get_article_embedding a client save_to_cache w = (Returned (None, a), count_request w)).
Proof.
  unfold get_article_embedding, needs_request.
  destruct (has_embedding a) eqn:Hhas; [now left|].
  destruct (PyStr.blank (embedding_text a)) eqn:Hb; [right; left; auto|].
  unfold try_except, bind, request_embedding, ret.
  destruct (embeddings_create client (api_calls w) EMBEDDING_MODEL (embedding_text a))
    as [e|] eqn:E.
  - right; right; left. split; auto. exists e. auto.
  - right; right; right. auto.
Qed.

(** X1.  [get_article_embedding] returns on every input: an exception of
    the embedding request is caught and gives [None].  It sends at most one
    request and leaves the snapshot file alone.  The article dict changes
    only when [save_to_cache] is set and a vector came back, and then only
    by storing that vector.  A stored, non-empty embedding is returned as
    it is, without a request. *)
Theorem get_article_embedding_never_raises a client save_to_cache w :
  exists emb a' w',
    get_article_embedding a client save_to_cache w = (Returned (emb, a'), w') /\
    (a' = a \/ save_to_cache = true /\ exists e, emb = Some e /\ a' = set_embedding a e) /\
    (save_to_cache = false -> a' = a) /\
    (has_embedding a = true -> emb = embedding a /\ a' = a /\ w' = w) /\
    cache_file w' = cache_file w /\
    (api_calls w <= api_calls w' <= api_calls w + 1)%nat.
Proof.
  destruct (get_article_embedding_cases a client save_to_cache w)
    as [[H E]|[(H1 & H2 & E)|[(H1 & e & He & E)|(H1 & He & E)]]];
    rewrite E; do 3 eexists; (split; [reflexivity|]).
  - repeat split; auto; simpl; lia.
  - repeat split; auto; try congruence; simpl; lia.
  - unfold needs_request in H1. apply andb_true_iff in H1 as [H1 _].
    apply negb_true_iff in H1.
    repeat split; simpl; try lia; try congruence.
    + destruct save_to_cache; [right; eauto|now left].
    + now intros ->.
  - unfold needs_request in H1. apply andb_true_iff in H1 as [H1 _].
    apply negb_true_iff in H1.
    repeat split; simpl; auto; try lia; congruence.
Qed.

Lemma score_articles_requests q client : forall articles w,
  Forall (fun a => scorable q (embedding a) = true) articles ->
  (forall n text, scorable q (embeddings_create client n EMBEDDING_MODEL text) = true) ->
  api_calls (snd (score_articles q client articles w))
  = (api_calls w + length (filter needs_request articles))%nat.
Proof.
  induction articles as [|a rest IH]; intros w Hs Hc.
  - simpl. lia.
  - inversion Hs as [|? ? Ha Hrest]; subst.
    destruct (score_articles_returns q client rest) with (w := w) as (arts0 & w0 & _); auto.
    rewrite score_articles_cons.
    destruct (get_article_embedding_cases a client true w)
      as [[H E]|[(H1 & H2 & E)|[(H1 & e & He & E)|(H1 & He & E)]]]; rewrite E.
    + assert (Hn : needs_request a = false) by (unfold needs_request; now rewrite H).
      cbn [filter]. rewrite Hn.
      unfold has_embedding in H. destruct (embedding a) as [[|x e]|] eqn:Ee; try discriminate.
      simpl in Ha.
      destruct (cosine_similarity q (x :: e)); [|discriminate].
      specialize (IH w Hrest Hc).
      destruct (score_articles_returns q client rest w Hrest Hc) as (arts & w' & E2 & _).
      rewrite E2 in *. simpl in *. exact IH.
    + cbn [filter]. rewrite H1.
      specialize (IH w Hrest Hc).
      destruct (score_articles_returns q client rest w Hrest Hc) as (arts & w' & E2 & _).
      rewrite E2 in *. simpl in *. exact IH.
    + cbn [filter]. rewrite H1. cbn [length].
      specialize (IH (count_request w) Hrest Hc).
      destruct (score_articles_returns q client rest (count_request w) Hrest Hc)
        as (arts & w' & E2 & _).
      rewrite E2 in *.
      pose proof (Hc (api_calls w) (embedding_text a)) as Hsc. rewrite He in Hsc.
      destruct e as [|x e]; simpl in *.
      * lia.
      * destruct (cosine_similarity q (x :: e)); [|discriminate]. simpl. lia.
    + cbn [filter]. rewrite H1. cbn [length].
      specialize (IH (count_request w) Hrest Hc).
      destruct (score_articles_returns q client rest (count_request w) Hrest Hc)
        as (arts & w' & E2 & _).
      rewrite E2 in *. simpl in *. lia.
Qed.

(** X2.  When the query is embedded and every vector can be scored, a
    ranking call returns after one request for the query and one request
    for each article that has no stored embedding and a text that is not
    blank; no other request is sent. *)
Theorem ranking_request_count query articles client top_k w q :
  embeddings_create client (api_calls w) EMBEDDING_MODEL query = Some q ->
  Forall (fun a => scorable q (embedding a) = true) articles ->
  (forall n text, scorable q (embeddings_create client n EMBEDDING_MODEL text) = true) ->
  exists result arts w',
    find_similar_articles query articles client top_k w = (Returned (result, arts), w') /\
    api_calls w' = (api_calls w + 1 + length (filter needs_request articles))%nat.
Proof.
  intros Hq Hs Hc.
  pose proof (score_articles_requests q client articles (count_request w) Hs Hc) as Hn.
  destruct (score_articles_returns q client articles (count_request w) Hs Hc)
    as (arts & w' & E & _).
  rewrite find_similar_articles_eq, Hq, E. rewrite E in Hn. simpl in *.
  do 3 eexists. split; [reflexivity|]. lia.
Qed.

Lemma ranking_request_count_witness :
  exists result arts w',
    find_similar_articles "school bus routing" MoreSamples.corpus
      Samples.steady_client 25 Samples.fresh_world = (Returned (result, arts), w') /\
    api_calls w'
    = (api_calls Samples.fresh_world + 1
       + length (filter needs_request MoreSamples.corpus))%nat.
Proof.
  apply (ranking_request_count "school bus routing" MoreSamples.corpus
           Samples.steady_client 25 Samples.fresh_world [0.6; 0.8]).
  - reflexivity.
  - repeat constructor.
  - intros n text. reflexivity.
Defined.

Lemma score_articles_stored q client : forall articles w,
  Forall (fun a => has_embedding a = true /\ scorable q (embedding a) = true) articles ->
  score_articles q client articles w
  = (Returned (map (fun a => (similarity_score q a, a)) articles, 0%nat, articles), w).
Proof.
  induction articles as [|a rest IH]; intros w H; [reflexivity|].
  inversion H as [|? ? [Ha Hsc] Hrest]; subst.
  assert (Hr : exists x e r, embedding a = Some (x :: e) /\
                 cosine_similarity q (x :: e) = Returned r /\
                 similarity_score q a = r).
  { unfold has_embedding, scorable, similarity_score in *.
    destruct (embedding a) as [[|x e]|]; try discriminate.
    destruct (cosine_similarity q (x :: e)) as [r|] eqn:Hcos; [|discriminate].
    exists x, e, r. auto. }
  destruct Hr as (x & e & r & Ee & Hcos & Hr).
  rewrite score_articles_cons.
  unfold get_article_embedding. rewrite Ha. unfold ret.
  rewrite Ee, Hcos, IH, Ha by assumption. cbn [map]. now rewrite Hr.
Qed.

(** X3.  When every article carries an embedding that can be scored, a
    ranking call sends the request for the query and nothing else, and
    leaves every article dict as it was. *)
Theorem ranking_reuses_stored_embeddings query articles client top_k w q :
  embeddings_create client (api_calls w) EMBEDDING_MODEL query = Some q ->
  Forall (fun a => has_embedding a = true /\ scorable q (embedding a) = true) articles ->
  exists result,
    find_similar_articles query articles client top_k w
    = (Returned (result, articles), count_request w).
Proof.
  intros Hq H. rewrite find_similar_articles_eq, Hq, score_articles_stored by assumption.
  simpl. eauto.
Qed.

Lemma ranking_reuses_stored_embeddings_witness :
  exists result,
    find_similar_articles "school bus routing"
      [Samples.aligned_post; MoreSamples.about_page] Samples.steady_client 25
      Samples.fresh_world
    = (Returned (result, [Samples.aligned_post; MoreSamples.about_page]),
       count_request Samples.fresh_world).
Proof.
  apply (ranking_reuses_stored_embeddings "school bus routing"
           [Samples.aligned_post; MoreSamples.about_page] Samples.steady_client 25
           Samples.fresh_world [0.6; 0.8]).
  - reflexivity.
  - repeat constructor.
Defined.

Lemma same_files_refl w : same_files w w.
Proof. unfold same_files. auto. Qed.

Lemma same_files_trans w1 w2 w3 :
  same_files w1 w2 -> same_files w2 w3 -> same_files w1 w3.
Proof. unfold same_files. intros (?&?&?&?) (?&?&?&?). repeat split; try congruence; lia. Qed.

Lemma same_files_count_request w : same_files w (count_request w).
Proof. unfold same_files. simpl. auto. Qed.

Lemma get_article_embedding_same_files a client flag w :
  same_files w (snd (get_article_embedding a client flag w)).
Proof.
  destruct (get_article_embedding_cases a client flag w)
    as [[H E]|[(H1 & H2 & E)|[(H1 & e & He & E)|(H1 & He & E)]]]; rewrite E;
    auto using same_files_refl, same_files_count_request.
Qed.

Lemma score_articles_same_files q client : forall articles w,
  same_files w (snd (score_articles q client articles w)).
Proof.
  induction articles as [|a rest IH]; intros w; [apply same_files_refl|].
  rewrite score_articles_cons.
  pose proof (get_article_embedding_same_files a client true w) as H1.
  destruct (get_article_embedding a client true w) as [[[emb a']|ex] w1]; auto.
  simpl in H1. specialize (IH w1).
  destruct emb as [[|x e]|].
  - destruct (score_articles q client rest w1) as [[[[sc g] ar]|ex] w2];
      simpl in *; eauto using same_files_trans.
  - destruct (cosine_similarity q (x :: e)); auto.
    destruct (score_articles q client rest w1) as [[[[sc g] ar]|ex] w2];
      simpl in *; eauto using same_files_trans.
  - destruct (score_articles q client rest w1) as [[[[sc g] ar]|ex] w2];
      simpl in *; eauto using same_files_trans.
Qed.

(** X4.  Whatever its arguments, and whether it returns or raises, a
    ranking call sends at least one request, never shuffles, and leaves the
    snapshot file and the state of the disk as they were. *)
Theorem ranking_only_counts_requests query articles client top_k w :
  cache_file (snd (find_similar_articles query articles client top_k w)) = cache_file w /\
  disk_writable (snd (find_similar_articles query articles client top_k w))
  = disk_writable w /\
  rng_draws (snd (find_similar_articles query articles client top_k w)) = rng_draws w /\
  (api_calls w < api_calls (snd (find_similar_articles query articles client top_k w)))%nat.
Proof.
  rewrite find_similar_articles_eq.
  destruct (embeddings_create client (api_calls w) EMBEDDING_MODEL query) as [q|].
  - pose proof (score_articles_same_files q client articles (count_request w)) as H.
    destruct (score_articles_inert q client articles (count_request w)) as (_ & _ & Hg).
    destruct (score_articles q client articles (count_request w))
      as [[[[sc g] ar]|ex] w2]; simpl in *.
    + subst g. simpl. destruct H as (?&?&?&?). repeat split; auto; lia.
    + destruct H as (?&?&?&?). repeat split; auto; lia.
  - simpl. repeat split; auto.
Qed.

(** ** Embeddings within a session *)

Lemma needs_request_set_embedding a x e :
  needs_request (set_embedding a (x :: e)) = false.
Proof. reflexivity. Qed.

(** The scoring loop on articles that need no request: nothing is sent and
    no dict changes. *)
Lemma score_articles_settled q client : forall articles w,
  Forall (fun a => needs_request a = false /\ scorable q (embedding a) = true) articles ->
  score_articles q client articles w
  = (Returned (map (fun a => (similarity_score q a, a)) articles, 0%nat, articles), w).
Proof.
  induction articles as [|a rest IH]; intros w H; [reflexivity|].
  inversion H as [|? ? [Hn Hsc] Hrest]; subst.
  rewrite score_articles_cons.
  destruct (get_article_embedding_cases a client true w)
    as [[Hhas E]|[(_ & Hhas & E)|[(Hn' & _)|(Hn' & _)]]]; try congruence; rewrite E.
  - assert (Hr : exists x e r, embedding a = Some (x :: e) /\
                   cosine_similarity q (x :: e) = Returned r /\
                   similarity_score q a = r).
    { unfold has_embedding, scorable, similarity_score in *.
      destruct (embedding a) as [[|x e]|]; try discriminate.
      destruct (cosine_similarity q (x :: e)) as [r|] eqn:Hcos; [|discriminate].
      exists x, e, r. auto. }
    destruct Hr as (x & e & r & Ee & Hcos & Hr).
    rewrite Ee, Hcos, IH, Hhas by assumption. cbn [map negb Nat.add]. now rewrite Hr.
  - rewrite IH by assumption. cbn [map].
    now rewrite (similarity_score_falsy q a Hhas).
Qed.

(** With a model that embeds every text, the scoring loop leaves no
    article that needs a request. *)
Lemma score_articles_settles q client :
  (forall n text, exists x e,
     embeddings_create client n EMBEDDING_MODEL text = Some (x :: e)) ->
  forall articles w scores g arts w',
    score_articles q client articles w = (Returned (scores, g, arts), w') ->
    Forall (fun a => needs_request a = false) arts.
Proof.
  intros Hc. induction articles as [|a rest IH]; intros w scores g arts w' E.
  - cbn in E. injection E as <- <- <- <-. constructor.
  - rewrite score_articles_cons in E.
    assert (Hstep : exists emb a' w1,
              get_article_embedding a client true w = (Returned (emb, a'), w1) /\
              needs_request a' = false).
    { destruct (get_article_embedding_cases a client true w)
        as [[Hhas E1]|[(Hn & _ & E1)|[(_ & e & He & E1)|(_ & He & _)]]].
      - do 3 eexists. split; [exact E1|]. unfold needs_request. now rewrite Hhas.
      - do 3 eexists. split; [exact E1|exact Hn].
      - destruct (Hc (api_calls w) (embedding_text a)) as (x & e' & He').
        rewrite He' in He. injection He as <-.
        do 3 eexists. split; [exact E1|]. apply needs_request_set_embedding.
      - destruct (Hc (api_calls w) (embedding_text a)) as (x & e' & He'). congruence. }
    destruct Hstep as (emb & a' & w1 & Eg & Hn). rewrite Eg in E.
    destruct emb as [[|x e]|].
    + destruct (score_articles q client rest w1) as [[[[sc g0] ar]|ex] w2] eqn:Er;
        [|discriminate].
      injection E as <- <- <- <-. constructor; [exact Hn|]. eapply IH. exact Er.
    + destruct (cosine_similarity q (x :: e)); [|discriminate].
      destruct (score_articles q client rest w1) as [[[[sc g0] ar]|ex] w2] eqn:Er;
        [|discriminate].
      injection E as <- <- <- <-. constructor; [exact Hn|]. eapply IH. exact Er.
    + destruct (score_articles q client rest w1) as [[[[sc g0] ar]|ex] w2] eqn:Er;
        [|discriminate].
      injection E as <- <- <- <-. constructor; [exact Hn|]. eapply IH. exact Er.
Qed.

(** X5.  Embeddings are requested once in a session: with a model that
    embeds every text, the list that a ranking call leaves behind needs no
    further embedding.  The next ranking of that list sends the request for
    its query and nothing else, and leaves the list as it is. *)
Theorem embeddings_are_requested_once
    query1 query2 articles client top_k1 top_k2 w r1 arts1 w1 q2 :
  (forall n text, exists x e,
     embeddings_create client n EMBEDDING_MODEL text = Some (x :: e)) ->
  find_similar_articles query1 articles client top_k1 w = (Returned (r1, arts1), w1) ->
  embeddings_create client (api_calls w1) EMBEDDING_MODEL query2 = Some q2 ->
  Forall (fun a => scorable q2 (embedding a) = true) arts1 ->
  Forall (fun a => needs_request a = false) arts1 /\
  exists r2,
    find_similar_articles query2 arts1 client top_k2 w1
    = (Returned (r2, arts1), count_request w1).
Proof.
  intros Hc E1 Hq2 Hsc.
  assert (Hsettled : Forall (fun a => needs_request a = false) arts1).
  { rewrite find_similar_articles_eq in E1.
    destruct (Hc (api_calls w) query1) as (x & e & Hq1). rewrite Hq1 in E1.
    destruct (score_articles (x :: e) client articles (count_request w))
      as [[[[scores g] arts]|ex] w2] eqn:Es; [|discriminate].
    injection E1 as _ <- _. eapply score_articles_settles; eassumption. }
  split; [exact Hsettled|].
  rewrite find_similar_articles_eq, Hq2, score_articles_settled.
  - cbn [Nat.ltb Nat.leb]. eauto.
  - rewrite Forall_forall in *. auto.
Qed.

Lemma embeddings_are_requested_once_witness :
  exists r1 arts1 w1,
    find_similar_articles "what is microtransit" MoreSamples.corpus
      Samples.steady_client 25 Samples.fresh_world = (Returned (r1, arts1), w1) /\
    Forall (fun a => needs_request a = false) arts1 /\
    exists r2,
      find_similar_articles "school bus routing" arts1 Samples.steady_client 5 w1
      = (Returned (r2, arts1), count_request w1).
Proof.
  eexists _, _, _.
  assert (E : find_similar_articles "what is microtransit" MoreSamples.corpus
                Samples.steady_client 25 Samples.fresh_world
              = (Returned (_, _), _)) by (vm_compute; reflexivity).
  split; [exact E|].
  refine (embeddings_are_requested_once "what is microtransit" "school bus routing"
            MoreSamples.corpus Samples.steady_client 25 5 Samples.fresh_world
            _ _ _ [0.6; 0.8] _ E _ _).
  - intros n text. exists 0.6, [0.8]. reflexivity.
  - reflexivity.
  - repeat constructor.
Defined.

(** ** Symmetry of the cosine *)

Lemma mul_comm (x y : float) : x * y = y * x.
Proof.
  apply Prim2SF_inj. rewrite !mul_spec. unfold SF64mul, SFmul.
  destruct (Prim2SF x) as [s|s| |s m e], (Prim2SF y) as [t|t| |t n f];
    try reflexivity; try (now rewrite xorb_comm).
  now rewrite xorb_comm, Pos.mul_comm, Z.add_comm.
Qed.

Lemma dot_value_comm a : forall b acc,
  fold_left (fun acc p => acc + fst p * snd p) (combine a b) acc
  = fold_left (fun acc p => acc + fst p * snd p) (combine b a) acc.
Proof.
  induction a as [|x a IH]; intros [|y b] acc; auto.
  simpl. now rewrite IH, (mul_comm x y).
Qed.

(** X6.  [cosine_similarity] is symmetric on binary64 floats: both orders
    of the arguments give the same float, or both raise. *)
Theorem cosine_similarity_symmetric (a b : vector) :
  cosine_similarity a b = cosine_similarity b a.
Proof.
  unfold cosine_similarity, np_dot, dot_value.
  rewrite (Nat.eqb_sym (length a)).
  destruct (length b =? length a)%nat; [|reflexivity].
  simpl. now rewrite dot_value_comm, (mul_comm (np_linalg_norm a)).
Qed.

(** ** More on the geographic filter *)

(** Computes the distances from given coordinates to the states of a list
    of sample articles. *)
Ltac sample_distances :=
  let a := fresh "a" in
  let Ha := fresh "Ha" in
  let Hs := fresh "Hs" in
  let Hin := fresh "Hin" in
  let Hc := fresh "Hc" in
  intros a ? ? ? ? Ha Hs Hin Hc;
  cbn [In MoreSamples.corpus] in Ha;
  repeat (destruct Ha as [<-|Ha];
          [cbn in Hs; try discriminate; injection Hs as <-;
           cbn [In] in Hin;
           repeat (destruct Hin as [<-|Hin];
                   [vm_compute in Hc; try discriminate;
                    injection Hc as <- <-; eexists; vm_compute; reflexivity|]);
           contradiction|]);
  contradiction.

Lemma any_state_within_spec m user_lat user_lon max_distance sts :
  (forall s lat lon, In s sts -> dict_get STATE_COORDINATES s = Some (lat, lon) ->
     exists d, calculate_distance m user_lat user_lon lat lon = Returned d) ->
  exists b,
    any_state_within m user_lat user_lon max_distance sts = Returned b /\
    (b = true <->
     exists s lat lon d,
       In s sts /\ dict_get STATE_COORDINATES s = Some (lat, lon) /\
       calculate_distance m user_lat user_lon lat lon = Returned d /\
       float_le_int d max_distance = true).
Proof.
  induction sts as [|s sts IH]; intros Hdef; cbn [any_state_within].
  - exists false. split; auto. split; [discriminate|].
    intros (s & lat & lon & d & [] & _).
  - destruct IH as (b & Hb & Hiff).
    { intros s' lat lon Hin. apply Hdef. now right. }
    destruct (dict_get STATE_COORDINATES s) as [[lat lon]|] eqn:Hs.
    + destruct (Hdef s lat lon (or_introl eq_refl) Hs) as [d Hd].
      rewrite Hd. cbn [obind].
      destruct (float_le_int d max_distance) eqn:Hle.
      * exists true. split; auto. split; auto. intros _.
        exists s, lat, lon, d. repeat split; auto. now left.
      * exists b. split; auto. rewrite Hiff. split.
        -- intros (s' & lat' & lon' & d' & Hin & H1 & H2 & H3).
           exists s', lat', lon', d'. repeat split; auto. now right.
        -- intros (s' & lat' & lon' & d' & [<-|Hin] & H1 & H2 & H3).
           ++ rewrite Hs in H1. injection H1 as <- <-. congruence.
           ++ exists s', lat', lon', d'. auto.
    + exists b. split; auto. rewrite Hiff. split.
      * intros (s' & lat' & lon' & d' & Hin & H1 & H2 & H3).
        exists s', lat', lon', d'. repeat split; auto. now right.
      * intros (s' & lat' & lon' & d' & [<-|Hin] & H1 & H2 & H3).
        -- congruence.
        -- exists s', lat', lon', d'. auto.
Qed.

Lemma location_match_spec m user_lat user_lon max_distance l a :
  distances_defined m user_lat user_lon l -> In a l ->
  (exists b, any_state_within m user_lat user_lon max_distance
               (match states a with Some sts => sts | None => [] end) = Returned b) /\
  (location_match m user_lat user_lon max_distance a = true <->
   within_bound m user_lat user_lon max_distance a).
Proof.
  intros Hdef Ha. unfold location_match, within_bound.
  destruct (states a) as [sts|] eqn:Hs.
  - destruct (any_state_within_spec m user_lat user_lon max_distance sts)
      as (b & Hb & Hiff).
    { intros s lat lon Hin. now apply (Hdef a sts). }
    rewrite Hb. split; [eauto|].
    split.
    + intros H. destruct b; [|discriminate].
      destruct (proj1 Hiff eq_refl) as (s & lat & lon & d & H1 & H2 & H3 & H4).
      exists sts, s, lat, lon, d. auto.
    + intros (sts' & s & lat & lon & d & [= <-] & H1 & H2 & H3 & H4).
      rewrite (proj2 Hiff); eauto 10.
  - cbn [any_state_within]. split; [eauto|].
    split; [discriminate|]. intros (sts' & s & lat & lon & d & [=] & _).
Qed.

Lemma location_matches_filter m user_lat user_lon max_distance l :
  distances_defined m user_lat user_lon l ->
  location_matches m user_lat user_lon max_distance l
  = Returned (filter (location_match m user_lat user_lon max_distance) l).
Proof.
  induction l as [|a l IH]; intros Hdef; cbn [location_matches filter]; auto.
  destruct (location_match_spec m user_lat user_lon max_distance (a :: l) a Hdef
              (or_introl eq_refl)) as [[b Hb] _].
  unfold location_match at 1. rewrite Hb. cbn [obind].
  rewrite IH.
  - cbn [obind]. now destruct b.
  - intros a' sts s lat lon Hin. apply Hdef. now right.
Qed.

Lemma distances_defined_incl m user_lat user_lon l l' :
  incl l' l -> distances_defined m user_lat user_lon l ->
  distances_defined m user_lat user_lon l'.
Proof. intros Hi H a sts s lat lon Ha. apply H. now apply Hi. Qed.

(** What the filter returns for a region with coordinates. *)
Lemma get_articles_by_location_known m rng articles user_state max_distance w
    user_lat user_lon :
  dict_get STATE_COORDINATES user_state = Some (user_lat, user_lon) ->
  distances_defined m user_lat user_lon articles ->
  get_articles_by_location m rng articles user_state max_distance w
  = let matches :=
      filter (location_match m user_lat user_lon max_distance)
        (filter has_states articles) in
    let untagged := filter (fun a => negb (has_states a)) articles in
    if (4 <=? length matches)%nat then (Returned matches, w)
    else if (0 <? length matches)%nat
    then (Returned (matches ++ firstn (4 - length matches) untagged)%list, w)
    else (Returned (firstn 10 (random_shuffle rng (rng_draws w) untagged)),
          count_shuffle w).
Proof.
  intros Hcoord Hdef. unfold get_articles_by_location. rewrite Hcoord.
  unfold bind, lift. rewrite location_matches_filter.
  - cbv zeta.
    destruct (4 <=? length _)%nat; [reflexivity|].
    destruct (0 <? length _)%nat; reflexivity.
  - eapply distances_defined_incl; [|exact Hdef]. apply incl_filter.
Qed.

Lemma float_le_int_mono x n n' :
  float_le_int x n = true -> (n <= n')%Z -> float_le_int x n' = true.
Proof.
  unfold float_le_int. intros H Hn.
  destruct (Prim2SF x) as [s|s| |s mant e]; auto.
  - apply Z.leb_le in H. apply Z.leb_le. lia.
  - destruct (0 <=? e)%Z.
    + apply Z.leb_le in H. apply Z.leb_le. lia.
    + apply Z.leb_le in H. apply Z.leb_le.
      assert (0 <= 2 ^ (- e))%Z by (apply Z.pow_nonneg; lia). nia.
Qed.

Lemma within_bound_mono m user_lat user_lon n n' a :
  (n <= n')%Z ->
  within_bound m user_lat user_lon n a -> within_bound m user_lat user_lon n' a.
Proof.
  intros Hn (sts & s & lat & lon & d & H1 & H2 & H3 & H4 & H5).
  exists sts, s, lat, lon, d. repeat split; auto.
  now apply float_le_int_mono with n.
Qed.

(** The tagged articles of the result are the location matches. *)
Lemma tagged_result_iff m rng articles user_state max_distance w user_lat user_lon :
  dict_get STATE_COORDINATES user_state = Some (user_lat, user_lon) ->
  distances_defined m user_lat user_lon articles ->
  (forall n l, Permutation l (random_shuffle rng n l)) ->
  exists result w',
    get_articles_by_location m rng articles user_state max_distance w
      = (Returned result, w') /\
    (forall a, In a result -> In a articles) /\
    (forall a, has_states a = true ->
       (In a result <->
        In a articles /\ location_match m user_lat user_lon max_distance a = true)).
Proof.
  intros Hcoord Hdef Hperm.
  rewrite (get_articles_by_location_known m rng articles user_state max_distance w
             user_lat user_lon Hcoord Hdef). cbv zeta.
  set (matches := filter (location_match m user_lat user_lon max_distance)
                    (filter has_states articles)).
  set (untagged := filter (fun a => negb (has_states a)) articles).
  assert (Hm : forall a, In a matches <->
             In a articles /\ has_states a = true /\
             location_match m user_lat user_lon max_distance a = true).
  { intros a. unfold matches. rewrite !filter_In. tauto. }
  assert (Hu : forall a, In a untagged <-> In a articles /\ has_states a = false).
  { intros a. unfold untagged. rewrite filter_In, negb_true_iff. tauto. }
  destruct (4 <=? length matches)%nat eqn:E4; [|destruct (0 <? length matches)%nat eqn:E0].
  - exists matches, w. split; [reflexivity|]. split.
    + intros a Ha. now apply Hm in Ha.
    + intros a Ht. rewrite Hm. tauto.
  - eexists _, w. split; [reflexivity|]. split.
    + intros a [Ha|Ha%In_firstn]%in_app_or; [now apply Hm in Ha|now apply Hu in Ha].
    + intros a Ht. rewrite in_app_iff, Hm. split.
      * intros [H|H%In_firstn]; [tauto|]. apply Hu in H. destruct H; congruence.
      * tauto.
  - eexists _, _. split; [reflexivity|].
    assert (Hs : forall a, In a (firstn 10 (random_shuffle rng (rng_draws w) untagged)) ->
                 In a articles /\ has_states a = false).
    { intros a Ha%In_firstn. apply Hu.
      eapply Permutation_in; [symmetry; apply Hperm|exact Ha]. }
    split.
    + intros a Ha. now apply Hs.
    + intros a Ht. split.
      * intros H%Hs. destruct H; congruence.
      * intros [Ha Hl]. exfalso.
        assert (In a matches) by (apply Hm; auto).
        apply Nat.ltb_ge in E0. destruct matches; [contradiction|simpl in E0; lia].
Qed.

(** X7.  For a region with coordinates, when every distance can be
    computed, the location filter returns, every article of the result is an
    article of the input, and an article with state tags is in the result
    exactly when it is in the input and one of its states lies within the
    bound. *)
Theorem location_filter_keeps_near_tagged_articles
    m rng articles user_state max_distance w user_lat user_lon :
  dict_get STATE_COORDINATES user_state = Some (user_lat, user_lon) ->
  distances_defined m user_lat user_lon articles ->
  (forall n l, Permutation l (random_shuffle rng n l)) ->
  exists result w',
    get_articles_by_location m rng articles user_state max_distance w
      = (Returned result, w') /\
    (forall a, In a result -> In a articles) /\
    (forall a, has_states a = true ->
       (In a result <->
        In a articles /\ within_bound m user_lat user_lon max_distance a)).
Proof.
  intros Hcoord Hdef Hperm.
  destruct (tagged_result_iff m rng articles user_state max_distance w user_lat
              user_lon Hcoord Hdef Hperm) as (result & w' & E & Hin & Hiff).
  exists result, w'. split; [exact E|]. split; [exact Hin|].
  intros a Ht. rewrite (Hiff a Ht). split.
  - intros [Ha Hm]. split; auto.
    now apply (location_match_spec m user_lat user_lon max_distance articles a Hdef Ha).
  - intros [Ha Hw]. split; auto.
    now apply (location_match_spec m user_lat user_lon max_distance articles a Hdef Ha).
Qed.

Lemma location_filter_keeps_near_tagged_articles_witness :
  exists result w',
    get_articles_by_location Samples.crude_libm Samples.reversing_rng
      MoreSamples.corpus "CA" 500 Samples.fresh_world = (Returned result, w') /\
    (forall a, In a result -> In a MoreSamples.corpus) /\
    (forall a, has_states a = true ->
       (In a result <->
        In a MoreSamples.corpus /\
        within_bound Samples.crude_libm 36.116203 (-119.681564) 500 a)).
Proof.
  apply (location_filter_keeps_near_tagged_articles Samples.crude_libm
           Samples.reversing_rng MoreSamples.corpus "CA" 500 Samples.fresh_world
           36.116203 (-119.681564)).
  - reflexivity.
  - sample_distances.
  - intros n l. apply Permutation_rev.
Defined.

(** X8.  The location filter is monotone in its bound on the articles
    with state tags: one that is returned for a bound is returned for every
    larger bound. *)
Theorem larger_bound_keeps_location_matches
    m rng articles user_state n n' w user_lat user_lon :
  dict_get STATE_COORDINATES user_state = Some (user_lat, user_lon) ->
  distances_defined m user_lat user_lon articles ->
  (forall k l, Permutation l (random_shuffle rng k l)) ->
  (n <= n')%Z ->
  exists result result' w1 w2,
    get_articles_by_location m rng articles user_state n w = (Returned result, w1) /\
    get_articles_by_location m rng articles user_state n' w = (Returned result', w2) /\
    forall a, has_states a = true -> In a result -> In a result'.
Proof.
  intros Hcoord Hdef Hperm Hn.
  destruct (tagged_result_iff m rng articles user_state n w user_lat
              user_lon Hcoord Hdef Hperm) as (r1 & w1 & E1 & _ & Hiff1).
  destruct (tagged_result_iff m rng articles user_state n' w user_lat
              user_lon Hcoord Hdef Hperm) as (r2 & w2 & E2 & _ & Hiff2).
  exists r1, r2, w1, w2. split; [exact E1|]. split; [exact E2|].
  intros a Ht Ha. apply (Hiff1 a Ht) in Ha as [Ha Hm]. apply (Hiff2 a Ht). split; auto.
  apply (location_match_spec m user_lat user_lon n' articles a Hdef Ha).
  apply within_bound_mono with n; auto.
  now apply (location_match_spec m user_lat user_lon n articles a Hdef Ha).
Qed.

Lemma larger_bound_keeps_location_matches_witness :
  exists result result' w1 w2,
    get_articles_by_location Samples.crude_libm Samples.reversing_rng
      MoreSamples.corpus "CA" 300 Samples.fresh_world = (Returned result, w1) /\
    get_articles_by_location Samples.crude_libm Samples.reversing_rng
      MoreSamples.corpus "CA" 500 Samples.fresh_world = (Returned result', w2) /\
    forall a, has_states a = true -> In a result -> In a result'.
Proof.
  apply (larger_bound_keeps_location_matches Samples.crude_libm
           Samples.reversing_rng MoreSamples.corpus "CA" 300 500 Samples.fresh_world
           36.116203 (-119.681564)).
  - reflexivity.
  - sample_distances.
  - intros n l. apply Permutation_rev.
  - lia.
Defined.

Lemma filter_all_false {A} (f : A -> bool) l :
  (forall x, In x l -> f x = false) -> filter f l = [].
Proof.
  induction l as [|x l IH]; intros H; simpl; auto.
  rewrite (H x (or_introl eq_refl)). apply IH. intros y Hy. apply H. now right.
Qed.

(** X9.  When the location filter returns an article with state tags,
    it has not shuffled, at most three articles of the result are without
    state tags, and the result has at most four articles or consists of
    tagged articles only. *)
Theorem location_matches_are_topped_up_to_four
    m rng articles user_state max_distance w user_lat user_lon :
  dict_get STATE_COORDINATES user_state = Some (user_lat, user_lon) ->
  distances_defined m user_lat user_lon articles ->
  (forall n l, Permutation l (random_shuffle rng n l)) ->
  exists result w',
    get_articles_by_location m rng articles user_state max_distance w
      = (Returned result, w') /\
    ((exists a, In a result /\ has_states a = true) ->
     w' = w /\
     (length (filter (fun a => negb (has_states a)) result) <= 3)%nat /\
     ((length result <= 4)%nat \/ Forall (fun a => has_states a = true) result)).
Proof.
  intros Hcoord Hdef Hperm.
  rewrite (get_articles_by_location_known m rng articles user_state max_distance w
             user_lat user_lon Hcoord Hdef). cbv zeta.
  set (matches := filter (location_match m user_lat user_lon max_distance)
                    (filter has_states articles)).
  set (untagged := filter (fun a => negb (has_states a)) articles).
  assert (Hm : Forall (fun a => has_states a = true) matches).
  { apply Forall_forall. intros a Ha. unfold matches in Ha.
    apply filter_In in Ha as [Ha _]. now apply filter_In in Ha. }
  assert (Hm0 : filter (fun a => negb (has_states a)) matches = []).
  { apply filter_all_false. rewrite Forall_forall in Hm. intros a Ha.
    now rewrite (Hm a Ha). }
  destruct (4 <=? length matches)%nat eqn:E4; [|destruct (0 <? length matches)%nat eqn:E0].
  - exists matches, w. split; [reflexivity|]. intros _. rewrite Hm0.
    split; [reflexivity|]. split; [simpl; lia|now right].
  - eexists _, w. split; [reflexivity|]. intros _. split; [reflexivity|].
    apply Nat.leb_gt in E4. apply Nat.ltb_lt in E0.
    rewrite filter_app, Hm0, length_app. cbn [app].
    pose proof (firstn_le_length (4 - length matches) untagged).
    pose proof (filter_length_le (fun a => negb (has_states a))
                  (firstn (4 - length matches) untagged)).
    cbn [length]. split; [lia|left; rewrite length_app; lia].
  - eexists _, _. split; [reflexivity|]. intros (a & Ha & Ht). exfalso.
    apply In_firstn in Ha.
    eapply Permutation_in in Ha; [|symmetry; apply Hperm].
    unfold untagged in Ha. apply filter_In in Ha as [_ Ha].
    rewrite Ht in Ha. discriminate.
Qed.

Lemma location_matches_are_topped_up_to_four_witness :
  exists result w',
    get_articles_by_location Samples.crude_libm Samples.reversing_rng
      MoreSamples.corpus "CA" 500 Samples.fresh_world = (Returned result, w') /\
    ((exists a, In a result /\ has_states a = true) ->
     w' = Samples.fresh_world /\
     (length (filter (fun a => negb (has_states a)) result) <= 3)%nat /\
     ((length result <= 4)%nat \/ Forall (fun a => has_states a = true) result)).
Proof.
  apply (location_matches_are_topped_up_to_four Samples.crude_libm
           Samples.reversing_rng MoreSamples.corpus "CA" 500 Samples.fresh_world
           36.116203 (-119.681564)).
  - reflexivity.
  - sample_distances.
  - intros n l. apply Permutation_rev.
Defined.

(** ** The distance from a state to itself *)

Lemma dict_get_In {V} (d : list (string * V)) k v :
  dict_get d k = Some v -> In (k, v) d.
Proof.
  induction d as [|[k' v'] d IH]; cbn [dict_get]; [discriminate|].
  destruct (String.eqb k k') eqn:E.
  - apply String.eqb_eq in E. intros [= ->]. subst. now left.
  - intros H. right. auto.
Qed.

(** The coordinates of the table are numbers: a difference of one with
    itself is [0.0], in radians too. *)
Lemma state_coordinates_subtract :
  Forall (fun kv => radians (fst (snd kv)) - radians (fst (snd kv)) = 0 /\
                    radians (snd (snd kv)) - radians (snd (snd kv)) = 0)
    STATE_COORDINATES.
Proof. repeat (constructor; [split; vm_compute; reflexivity|]). constructor. Qed.

Lemma state_latitudes_finite :
  Forall (fun kv => is_finite (radians (fst (snd kv))) = true) STATE_COORDINATES.
Proof. repeat (constructor; [vm_compute; reflexivity|]). constructor. Qed.

Lemma finite_mul_zero x : is_finite x = true -> sf_zero (x * 0).
Proof.
  intros H. unfold sf_zero. rewrite mul_spec.
  change (Prim2SF 0) with (S754_zero false).
  destruct (Prim2SF x) as [s|s| |s mant e] eqn:E.
  - cbn. eauto.
  - rewrite sf_not_finite_spec in H; [discriminate|].
    unfold sf_not_finite. now rewrite E.
  - rewrite sf_not_finite_spec in H; [discriminate|].
    unfold sf_not_finite. now rewrite E.
  - cbn. eauto.
Qed.

Lemma zero_add_zero x : sf_zero x -> 0 + x = 0.
Proof.
  intros [s H]. apply Prim2SF_inj. rewrite add_spec, H.
  change (Prim2SF 0) with (S754_zero false). now destruct s.
Qed.

Lemma calculate_distance_self m s lat lon :
  exact_at_zero m ->
  dict_get STATE_COORDINATES s = Some (lat, lon) ->
  calculate_distance m lat lon lat lon = Returned 0.
Proof.
  intros [Hsin Hpow Hatan Hcos] Hs.
  apply dict_get_In in Hs.
  pose proof state_coordinates_subtract as Hsub.
  rewrite Forall_forall in Hsub. destruct (Hsub _ Hs) as [Hlat Hlon].
  pose proof state_latitudes_finite as Hfin.
  rewrite Forall_forall in Hfin. specialize (Hfin _ Hs).
  cbn [fst snd] in Hlat, Hlon, Hfin.
  unfold calculate_distance. cbv zeta. rewrite Hlat, Hlon.
  change (0 / 2) with 0. rewrite Hsin, Hpow.
  rewrite (zero_add_zero _ (finite_mul_zero _ (Hcos _ _ Hfin Hfin))).
  change (math_sqrt 0) with (Returned (A := float) 0). cbn [obind].
  change (math_sqrt (1 - 0)) with (Returned (A := float) 1). cbn [obind].
  now rewrite Hatan.
Qed.

(** X10.  With a math library that is exact at zero and whose cosines of
    numbers have a product that is a number, an article tagged with the
    user's own state is always returned by the location filter, for every
    bound that is not negative: the distance from a state of the table to
    itself is computed as [0.0]. *)
Theorem own_state_is_always_returned
    m rng articles user_state max_distance w user_lat user_lon a sts :
  exact_at_zero m ->
  dict_get STATE_COORDINATES user_state = Some (user_lat, user_lon) ->
  distances_defined m user_lat user_lon articles ->
  (forall n l, Permutation l (random_shuffle rng n l)) ->
  (0 <= max_distance)%Z ->
  In a articles -> states a = Some sts -> In user_state sts ->
  calculate_distance m user_lat user_lon user_lat user_lon = Returned 0 /\
  exists result w',
    get_articles_by_location m rng articles user_state max_distance w
      = (Returned result, w') /\
    In a result.
Proof.
  intros Hm Hcoord Hdef Hperm Hmax Ha Hs Hin.
  pose proof (calculate_distance_self m user_state user_lat user_lon Hm Hcoord) as Hd.
  split; [exact Hd|].
  destruct (tagged_result_iff m rng articles user_state max_distance w user_lat
              user_lon Hcoord Hdef Hperm) as (result & w' & E & _ & Hiff).
  exists result, w'. split; [exact E|].
  apply Hiff.
  - unfold has_states. rewrite Hs. destruct sts; [destruct Hin|reflexivity].
  - split; [exact Ha|].
    apply (location_match_spec m user_lat user_lon max_distance articles a Hdef Ha).
    exists sts, user_state, user_lat, user_lon, 0. repeat split; auto.
    unfold float_le_int. change (Prim2SF 0) with (S754_zero false).
    now apply Z.leb_le.
Qed.

Lemma own_state_is_always_returned_witness :
  calculate_distance MoreSamples.guarded_libm 38.313515 (-117.055374)
    38.313515 (-117.055374) = Returned 0 /\
  exists result w',
    get_articles_by_location MoreSamples.guarded_libm Samples.reversing_rng
      MoreSamples.corpus "NV" 0 Samples.fresh_world = (Returned result, w') /\
    In MoreSamples.nevada_study result.
Proof.
  apply (own_state_is_always_returned MoreSamples.guarded_libm Samples.reversing_rng
           MoreSamples.corpus "NV" 0 Samples.fresh_world 38.313515 (-117.055374)
           MoreSamples.nevada_study ["NV"; "ZZ"]).
  - constructor; try reflexivity.
    intros x y Hx Hy. cbn [MoreSamples.guarded_libm libm_cos].
    rewrite Hx, Hy. reflexivity.
  - reflexivity.
  - sample_distances.
  - intros n l. apply Permutation_rev.
  - lia.
  - cbn. tauto.
  - reflexivity.
  - cbn. tauto.
Defined.

(** ** More on the recommender *)

Lemma list_eqb_eq {A} (eqb : A -> A -> bool) :
  (forall x y, eqb x y = true <-> x = y) ->
  forall l1 l2, list_eqb eqb l1 l2 = true <-> l1 = l2.
Proof.
  intros H. induction l1 as [|x l1 IH]; intros [|y l2]; simpl;
    try (split; [discriminate|discriminate]); try tauto.
  rewrite andb_true_iff, H, IH. split; [intros [-> ->]|intros [= -> ->]]; auto.
Qed.

Lemma option_eqb_eq {A} (eqb : A -> A -> bool) :
  (forall x y, eqb x y = true <-> x = y) ->
  forall o1 o2, option_eqb eqb o1 o2 = true <-> o1 = o2.
Proof.
  intros H [x|] [y|]; simpl; try (split; [discriminate|discriminate]); try tauto.
  rewrite H. split; [intros ->|intros [= ->]]; auto.
Qed.

Lemma article_eqb_eq a b : article_eqb a b = true <-> a = b.
Proof.
  unfold article_eqb. rewrite !andb_true_iff, !String.eqb_eq.
  rewrite (option_eqb_eq _ (list_eqb_eq _ String.eqb_eq)).
  rewrite (option_eqb_eq _ (list_eqb_eq _ FloatAxioms.Leibniz.eqb_spec)).
  destruct a, b; simpl. split.
  - intros [[[[[[[-> ->] ->] ->] ->] ->] ->] ->]. reflexivity.
  - intros [= -> -> -> -> -> -> -> ->]. repeat split.
Qed.

Lemma py_list_in_In a l : py_list_in a l = true <-> In a l.
Proof.
  unfold py_list_in. rewrite existsb_exists. split.
  - intros (b & Hb & He). apply article_eqb_eq in He. now subst.
  - intros H. exists a. split; auto. now apply article_eqb_eq.
Qed.

(** [a not in l'] for the list [l'] of the articles of [l] that pass a
    test selects the articles of [l] that fail it. *)
Lemma not_in_filter (f : article -> bool) (l : list article) :
  filter (fun a => negb (py_list_in a (filter f l))) l
  = filter (fun a => negb (f a)) l.
Proof.
  apply filter_ext_in. intros a Ha. f_equal.
  destruct (f a) eqn:E.
  - apply py_list_in_In, filter_In. auto.
  - destruct (py_list_in a (filter f l)) eqn:E'; auto.
    apply py_list_in_In, filter_In in E'. destruct E'; congruence.
Qed.

Lemma selected_indices_in_range n reply size :
  Forall (fun i => (i < size)%nat) (selected_indices n reply size).
Proof.
  unfold selected_indices. apply Forall_forall. intros i Hi.
  apply in_flat_map in Hi as (x & _ & Hx).
  destruct ((0 <=? int_of_digits x - 1)%Z && (int_of_digits x - 1 <? Z.of_nat size)%Z) eqn:E;
    [|contradiction].
  destruct Hx as [<-|[]].
  apply andb_true_iff in E as [E1 E2]. apply Z.leb_le in E1. apply Z.ltb_lt in E2. lia.
Qed.

Lemma pick_spec candidates : forall indices,
  Forall (fun i => (i < length candidates)%nat) indices ->
  length (pick candidates indices) = length indices /\
  incl (pick candidates indices) candidates.
Proof.
  induction indices as [|i indices IH]; intros H; simpl.
  - split; auto. intros x [].
  - inversion H as [|? ? Hi Hrest]; subst. destruct (IH Hrest) as [IH1 IH2].
    destruct (nth_error candidates i) as [a|] eqn:E.
    + simpl. split; [lia|]. intros x [<-|Hx]; auto.
      now apply nth_error_In with i.
    + apply nth_error_None in E. lia.
Qed.

Lemma select_from_reply_spec n candidates reply :
  (length (select_from_reply n candidates reply) <= n)%nat /\
  incl (select_from_reply n candidates reply) candidates /\
  (candidates <> [] -> (0 < n)%nat -> select_from_reply n candidates reply <> []).
Proof.
  unfold select_from_reply.
  pose proof (selected_indices_in_range n reply (length candidates)) as Hr.
  destruct (selected_indices n reply (length candidates)) as [|i indices] eqn:E.
  - split; [apply firstn_le_length|]. split.
    + intros x Hx. now apply In_firstn in Hx.
    + intros Hc Hn. destruct candidates; [congruence|]. destruct n; [lia|discriminate].
  - assert (Hf : Forall (fun i => (i < length candidates)%nat) (firstn n (i :: indices))).
    { apply Forall_forall. intros j Hj%In_firstn. rewrite Forall_forall in Hr. auto. }
    destruct (pick_spec candidates _ Hf) as [Hl Hi].
    split; [rewrite Hl; apply firstn_le_length|]. split; auto.
    intros _ Hn Hnil. apply (f_equal (@length _)) in Hnil. rewrite Hl in Hnil.
    destruct n; [lia|discriminate].
Qed.

Lemma try_chat_returns {A} client req (f : string -> A) (d : A) w :
  exists x,
    try_except (reply <- request_chat client req ;; ret (f reply)) (fun _ => ret d) w
    = (Returned x, count_request w) /\
    match chat_completions_create client (api_calls w) req with
    | Some reply => x = f reply
    | None => x = d
    end.
Proof.
  unfold try_except, bind, request_chat, ret.
  destruct (chat_completions_create client (api_calls w) req); eauto.
Qed.

(** The geographic filter sends no request and leaves the snapshot alone. *)
Lemma get_articles_by_location_world m rng l user_state max_distance w :
  api_calls (snd (get_articles_by_location m rng l user_state max_distance w))
  = api_calls w /\
  cache_file (snd (get_articles_by_location m rng l user_state max_distance w))
  = cache_file w.
Proof.
  unfold get_articles_by_location.
  destruct (dict_get STATE_COORDINATES user_state) as [[lat lon]|]; [|auto].
  unfold bind, lift.
  destruct (location_matches m lat lon max_distance (filter has_states l))
    as [filtered|e]; [|auto].
  destruct (4 <=? length filtered)%nat; [auto|].
  destruct (0 <? length filtered)%nat; auto.
Qed.

Lemma get_articles_by_location_returns m rng l user_state max_distance w :
  (forall n l, Permutation l (random_shuffle rng n l)) ->
  (forall lat lon, dict_get STATE_COORDINATES user_state = Some (lat, lon) ->
                   distances_defined m lat lon l) ->
  exists result w',
    get_articles_by_location m rng l user_state max_distance w = (Returned result, w') /\
    incl result l /\ api_calls w' = api_calls w /\ cache_file w' = cache_file w.
Proof.
  intros Hperm Hdef.
  pose proof (get_articles_by_location_world m rng l user_state max_distance w) as Hw.
  destruct (dict_get STATE_COORDINATES user_state) as [[lat lon]|] eqn:Hc.
  - destruct (tagged_result_iff m rng l user_state max_distance w lat lon Hc
                (Hdef lat lon eq_refl) Hperm) as (result & w' & E & Hin & _).
    rewrite E in Hw. exists result, w'. split; auto.
  - exists l, w. split; [|split; [apply incl_refl|auto]].
    unfold get_articles_by_location. now rewrite Hc.
Qed.

(** The two selections of [recommend_articles], as they come out of the
    two [if] statements. *)
Lemma selected_general_returns client user_type user_state G w :
  exists g w1,
    (if (length G <=? 3)%nat then ret G
     else try_except
            (reply <- request_chat client
                        (selection_request (general_prompt user_type user_state G)) ;;
             ret (select_from_reply 3 G reply))
            (fun _ => ret (firstn 3 G))) w = (Returned g, w1) /\
    (length g <= 3)%nat /\ incl g G /\
    ((forall n req, chat_completions_create client n req = None) -> g = firstn 3 G) /\
    cache_file w1 = cache_file w /\ rng_draws w1 = rng_draws w /\
    (api_calls w <= api_calls w1 <= api_calls w + 1)%nat.
Proof.
  destruct (length G <=? 3)%nat eqn:E3.
  - exists G, w. apply Nat.leb_le in E3.
    split; [reflexivity|]. split; [exact E3|]. split; [apply incl_refl|].
    split; [intros _; symmetry; now apply firstn_all2|].
    repeat split; lia.
  - destruct (try_chat_returns client
                (selection_request (general_prompt user_type user_state G))
                (select_from_reply 3 G) (firstn 3 G) w) as (x & Ex & Hx).
    exists x, (count_request w). split; [exact Ex|].
    assert (Hw : cache_file (count_request w) = cache_file w /\
                 rng_draws (count_request w) = rng_draws w /\
                 (api_calls w <= api_calls (count_request w) <= api_calls w + 1)%nat).
    { cbn. repeat split; lia. }
    destruct (chat_completions_create client (api_calls w) _) as [reply|] eqn:Ec; subst x.
    + destruct (select_from_reply_spec 3 G reply) as (H1 & H2 & _).
      split; [exact H1|]. split; [exact H2|]. split; [|exact Hw].
      intros Hnone. rewrite Hnone in Ec. discriminate.
    + split; [apply firstn_le_length|]. split.
      * intros y Hy. now apply In_firstn in Hy.
      * split; [reflexivity|exact Hw].
Qed.

Lemma selected_case_studies_returns client user_state lcs w :
  lcs <> [] ->
  exists l w2,
    (if (length lcs <=? 4)%nat then ret (Some lcs)
     else try_except
            (reply <- request_chat client
                        (selection_request (case_study_prompt user_state lcs)) ;;
             ret (Some (select_from_reply 4 lcs reply)))
            (fun _ => ret (Some (firstn 4 lcs)))) w = (Returned (Some l), w2) /\
    l <> [] /\ (length l <= 4)%nat /\ incl l lcs /\
    ((forall n req, chat_completions_create client n req = None) -> l = firstn 4 lcs) /\
    cache_file w2 = cache_file w /\
    (api_calls w <= api_calls w2 <= api_calls w + 1)%nat.
Proof.
  intros Hne.
  destruct (length lcs <=? 4)%nat eqn:E4.
  - exists lcs, w. apply Nat.leb_le in E4.
    split; [reflexivity|]. split; [exact Hne|]. split; [exact E4|].
    split; [apply incl_refl|].
    split; [intros _; symmetry; now apply firstn_all2|].
    repeat split; lia.
  - destruct (try_chat_returns client
                (selection_request (case_study_prompt user_state lcs))
                (fun reply => Some (select_from_reply 4 lcs reply))
                (Some (firstn 4 lcs)) w) as (x & Ex & Hx).
    assert (Hw : cache_file (count_request w) = cache_file w /\
                 (api_calls w <= api_calls (count_request w) <= api_calls w + 1)%nat).
    { cbn. repeat split; lia. }
    destruct (chat_completions_create client (api_calls w) _) as [reply|] eqn:Ec; subst x.
    + exists (select_from_reply 4 lcs reply), (count_request w).
      destruct (select_from_reply_spec 4 lcs reply) as (H1 & H2 & H3).
      split; [exact Ex|]. split; [apply H3; [exact Hne|lia]|].
      split; [exact H1|]. split; [exact H2|]. split; [|exact Hw].
      intros Hnone. rewrite Hnone in Ec. discriminate.
    + exists (firstn 4 lcs), (count_request w).
      split; [exact Ex|]. split.
      * destruct lcs; [congruence|discriminate].
      * split; [apply firstn_le_length|]. split.
        -- intros y Hy. now apply In_firstn in Hy.
        -- split; [reflexivity|exact Hw].
Qed.

(** [recommend_articles] on a non-empty corpus, step by step: the general
    selection [g] from the general articles, the location filter on the
    case studies, the selection from its result [lcs]. *)
Lemma recommend_articles_steps m rng articles user_type user_state client w :
  articles <> [] ->
  (forall n l, Permutation l (random_shuffle rng n l)) ->
  (forall lat lon, dict_get STATE_COORDINATES user_state = Some (lat, lon) ->
                   distances_defined m lat lon articles) ->
  exists g w1 lcs w2 r w',
    recommend_articles m rng articles user_type user_state client w = (Returned r, w') /\
    general r = g /\
    (length g <= 3)%nat /\
    incl g (general_candidates user_type articles) /\
    ((forall n req, chat_completions_create client n req = None) ->
     g = firstn 3 (general_candidates user_type articles)) /\
    rng_draws w1 = rng_draws w /\
    (case_study_candidates user_type articles <> [] ->
     get_articles_by_location m rng (case_study_candidates user_type articles)
       user_state 500 w1 = (Returned lcs, w2)) /\
    (case_study_candidates user_type articles = [] -> lcs = []) /\
    incl lcs (case_study_candidates user_type articles) /\
    match case_studies r with
    | None => lcs = []
    | Some l =>
        l <> [] /\ (length l <= 4)%nat /\ incl l lcs /\
        ((forall n req, chat_completions_create client n req = None) ->
         l = firstn 4 lcs)
    end /\
    cache_file w' = cache_file w /\
    (api_calls w <= api_calls w' <= api_calls w + 2)%nat.
Proof.
  intros Hne Hperm Hdef.
  destruct articles as [|a0 rest]; [congruence|].
  unfold recommend_articles, general_candidates, case_study_candidates.
  fold (relevant_articles user_type (a0 :: rest)).
  set (relevant := relevant_articles user_type (a0 :: rest)).
  assert (Hrel : incl relevant (a0 :: rest)).
  { unfold relevant, relevant_articles.
    destruct (String.eqb user_type "city"); [apply incl_filter|].
    destruct (String.eqb user_type "transit_agency"); [apply incl_filter|apply incl_refl]. }
  rewrite not_in_filter.
  set (G := filter (fun a => negb (is_case_study a)) relevant).
  remember (filter is_case_study relevant) as CS eqn:ECS.
  assert (HCS : incl CS (a0 :: rest)).
  { subst CS. intros x Hx. apply filter_In in Hx as [Hx _]. auto. }
  clear ECS.
  destruct (selected_general_returns client user_type user_state G w)
    as (g & w1 & EG & HG1 & HG2 & HG3 & Hc1 & Hr1 & Ha1).
  unfold bind at 1. rewrite EG.
  exists g, w1.
  destruct CS as [|s0 CS'].
  - exists [], w1. eexists _, w1. unfold bind, ret.
    split; [reflexivity|]. cbn [general case_studies].
    repeat split; auto; try congruence; try lia; try apply incl_refl.
  - destruct (get_articles_by_location_returns m rng (s0 :: CS') user_state 500 w1 Hperm)
      as (lcs & w2 & EL & HL & Ha2 & Hc2).
    { intros lat lon Hc. eapply distances_defined_incl; [exact HCS|].
      apply (Hdef lat lon Hc). }
    exists lcs, w2. unfold bind at 1. unfold bind at 1. rewrite EL.
    destruct lcs as [|l0 lcs'] eqn:El.
    + eexists _, w2. unfold ret. split; [reflexivity|]. cbn [general case_studies].
      repeat split; auto; try congruence; try lia.
    + destruct (selected_case_studies_returns client user_state (l0 :: lcs') w2)
        as (l & w3 & E3 & Hl1 & Hl2 & Hl3 & Hl4 & Hc3 & Ha3); [discriminate|].
      rewrite E3. unfold ret.
      eexists _, w3. split; [reflexivity|]. cbn [general case_studies].
      repeat split; auto; try congruence; try lia.
Qed.

(** X11.  On a non-empty corpus [recommend_articles] returns at most
    three general articles, and for the case studies either [None] or a
    list of one to four articles, never an empty list.  It sends at most two
    requests and leaves the snapshot file alone. *)
Theorem recommendation_sizes m rng articles user_type user_state client w :
  articles <> [] ->
  (forall n l, Permutation l (random_shuffle rng n l)) ->
  (forall lat lon, dict_get STATE_COORDINATES user_state = Some (lat, lon) ->
                   distances_defined m lat lon articles) ->
  exists r w',
    recommend_articles m rng articles user_type user_state client w = (Returned r, w') /\
    (length (general r) <= 3)%nat /\
    (case_studies r = None \/
     exists l, case_studies r = Some l /\ (1 <= length l <= 4)%nat) /\
    cache_file w' = cache_file w /\
    (api_calls w <= api_calls w' <= api_calls w + 2)%nat.
Proof.
  intros Hne Hperm Hdef.
  destruct (recommend_articles_steps m rng articles user_type user_state client w
              Hne Hperm Hdef)
    as (g & w1 & lcs & w2 & r & w' & E & Hg & Hlen & _ & _ & _ & _ & _ & _ & Hcs & Hc & Ha).
  exists r, w'. split; [exact E|]. split; [now rewrite Hg|].
  split; [|split; [exact Hc|exact Ha]].
  destruct (case_studies r) as [l|]; [right|now left].
  destruct Hcs as (Hnil & Hl & _). exists l. split; [reflexivity|].
  destruct l; [congruence|]. cbn [length] in *. lia.
Qed.

Lemma recommendation_sizes_witness :
  exists r w',
    recommend_articles Samples.crude_libm Samples.reversing_rng MoreSamples.corpus
      "city" "CA" MoreSamples.chatty_client Samples.fresh_world = (Returned r, w') /\
    (length (general r) <= 3)%nat /\
    (case_studies r = None \/
     exists l, case_studies r = Some l /\ (1 <= length l <= 4)%nat) /\
    cache_file w' = cache_file Samples.fresh_world /\
    (api_calls Samples.fresh_world <= api_calls w'
     <= api_calls Samples.fresh_world + 2)%nat.
Proof.
  apply (recommendation_sizes Samples.crude_libm Samples.reversing_rng
           MoreSamples.corpus "city" "CA" MoreSamples.chatty_client
           Samples.fresh_world).
  - discriminate.
  - intros n l. apply Permutation_rev.
  - intros lat lon Hu. vm_compute in Hu. injection Hu as <- <-. sample_distances.
Defined.

Lemma relevant_articles_spec user_type articles a :
  In a (relevant_articles user_type articles) <->
  In a articles /\
  (user_type = "city" -> mentions_any city_keywords a = true) /\
  (user_type = "transit_agency" -> mentions_any agency_keywords a = true).
Proof.
  unfold relevant_articles.
  destruct (String.eqb user_type "city") eqn:Ec.
  - apply String.eqb_eq in Ec. subst. rewrite filter_In. split.
    + intros [H1 H2]. repeat split; auto; discriminate.
    + intros (H1 & H2 & _). auto.
  - apply String.eqb_neq in Ec.
    destruct (String.eqb user_type "transit_agency") eqn:Et.
    + apply String.eqb_eq in Et. subst. rewrite filter_In. split.
      * intros [H1 H2]. repeat split; auto; congruence.
      * intros (H1 & _ & H2). auto.
    + apply String.eqb_neq in Et. split.
      * intros H. repeat split; auto; congruence.
      * now intros (H & _).
Qed.

(** X12.  What [recommend_articles] returns on a non-empty corpus comes
    from the corpus and passes the keyword filter of the user type; the
    general articles are not case studies and the case studies are, so that
    no article is listed on both sides. *)
Theorem recommendation_keeps_case_studies_apart
    m rng articles user_type user_state client w :
  articles <> [] ->
  (forall n l, Permutation l (random_shuffle rng n l)) ->
  (forall lat lon, dict_get STATE_COORDINATES user_state = Some (lat, lon) ->
                   distances_defined m lat lon articles) ->
  exists r w',
    recommend_articles m rng articles user_type user_state client w = (Returned r, w') /\
    (forall a, In a (general r) ->
       In a articles /\ is_case_study a = false /\
       (user_type = "city" -> mentions_any city_keywords a = true) /\
       (user_type = "transit_agency" -> mentions_any agency_keywords a = true)) /\
    (forall l a, case_studies r = Some l -> In a l ->
       In a articles /\ is_case_study a = true /\ ~ In a (general r) /\
       (user_type = "city" -> mentions_any city_keywords a = true) /\
       (user_type = "transit_agency" -> mentions_any agency_keywords a = true)).
Proof.
  intros Hne Hperm Hdef.
  destruct (recommend_articles_steps m rng articles user_type user_state client w
              Hne Hperm Hdef)
    as (g & w1 & lcs & w2 & r & w' & E & Hg & _ & Hgin & _ & _ & _ & _ & Hlcs & Hcs & _).
  assert (HG : forall a, In a (general r) ->
             In a (relevant_articles user_type articles) /\ is_case_study a = false).
  { intros a Ha. rewrite Hg in Ha. apply Hgin in Ha.
    unfold general_candidates in Ha. apply filter_In in Ha as [H1 H2].
    split; auto. now apply negb_true_iff in H2. }
  exists r, w'. split; [exact E|]. split.
  - intros a Ha. destruct (HG a Ha) as [H1 H2].
    apply relevant_articles_spec in H1. tauto.
  - intros l a El Ha. rewrite El in Hcs. destruct Hcs as (_ & _ & Hl & _).
    apply Hl, Hlcs in Ha. unfold case_study_candidates in Ha.
    apply filter_In in Ha as [H1 H2]. apply relevant_articles_spec in H1.
    repeat split; try tauto.
    intros Hgen. apply HG in Hgen as [_ Hgen]. congruence.
Qed.

Lemma recommendation_keeps_case_studies_apart_witness :
  exists r w',
    recommend_articles Samples.crude_libm Samples.reversing_rng MoreSamples.corpus
      "city" "CA" MoreSamples.chatty_client Samples.fresh_world = (Returned r, w') /\
    (forall a, In a (general r) ->
       In a MoreSamples.corpus /\ is_case_study a = false /\
       ("city" = "city" -> mentions_any city_keywords a = true) /\
       ("city" = "transit_agency" -> mentions_any agency_keywords a = true)) /\
    (forall l a, case_studies r = Some l -> In a l ->
       In a MoreSamples.corpus /\ is_case_study a = true /\ ~ In a (general r) /\
       ("city" = "city" -> mentions_any city_keywords a = true) /\
       ("city" = "transit_agency" -> mentions_any agency_keywords a = true)).
Proof.
  apply (recommendation_keeps_case_studies_apart Samples.crude_libm
           Samples.reversing_rng MoreSamples.corpus "city" "CA"
           MoreSamples.chatty_client Samples.fresh_world).
  - discriminate.
  - intros n l. apply Permutation_rev.
  - intros lat lon Hu. vm_compute in Hu. injection Hu as <- <-. sample_distances.
Defined.

(** X13.  When every request to the chat model fails, [recommend_articles]
    still returns on a non-empty corpus: the general articles are the first
    three candidates, and the case studies are the first four that the
    location filter returned, or [None] when there is no case study or the
    filter returned none. *)
Theorem recommendation_without_chat_model
    m rng articles user_type user_state client w :
  articles <> [] ->
  (forall n l, Permutation l (random_shuffle rng n l)) ->
  (forall lat lon, dict_get STATE_COORDINATES user_state = Some (lat, lon) ->
                   distances_defined m lat lon articles) ->
  (forall n req, chat_completions_create client n req = None) ->
  exists r w' lcs w1 w2,
    recommend_articles m rng articles user_type user_state client w = (Returned r, w') /\
    general r = firstn 3 (general_candidates user_type articles) /\
    rng_draws w1 = rng_draws w /\
    (case_study_candidates user_type articles <> [] ->
     get_articles_by_location m rng (case_study_candidates user_type articles)
       user_state 500 w1 = (Returned lcs, w2)) /\
    (case_study_candidates user_type articles = [] -> lcs = []) /\
    case_studies r = match lcs with
                     | [] => None
                     | _ :: _ => Some (firstn 4 lcs)
                     end.
Proof.
  intros Hne Hperm Hdef Hfail.
  destruct (recommend_articles_steps m rng articles user_type user_state client w
              Hne Hperm Hdef)
    as (g & w1 & lcs & w2 & r & w' & E & Hg & _ & _ & Hg3 & Hr & Hloc & Hnil & _ & Hcs & _).
  exists r, w', lcs, w1, w2. split; [exact E|].
  split; [rewrite Hg; now apply Hg3|]. split; [exact Hr|].
  split; [exact Hloc|]. split; [exact Hnil|].
  destruct (case_studies r) as [l|].
  - destruct Hcs as (Hl & _ & Hincl & Hl4). rewrite (Hl4 Hfail).
    destruct lcs; [|reflexivity].
    destruct l as [|a l]; [congruence|]. destruct (Hincl a (or_introl eq_refl)).
  - now rewrite Hcs.
Qed.

Lemma recommendation_without_chat_model_witness :
  exists r w' lcs w1 w2,
    recommend_articles Samples.crude_libm Samples.reversing_rng MoreSamples.corpus
      "city" "CA" Samples.steady_client Samples.fresh_world = (Returned r, w') /\
    general r = firstn 3 (general_candidates "city" MoreSamples.corpus) /\
    rng_draws w1 = rng_draws Samples.fresh_world /\
    (case_study_candidates "city" MoreSamples.corpus <> [] ->
     get_articles_by_location Samples.crude_libm Samples.reversing_rng
       (case_study_candidates "city" MoreSamples.corpus) "CA" 500 w1
     = (Returned lcs, w2)) /\
    (case_study_candidates "city" MoreSamples.corpus = [] -> lcs = []) /\
    case_studies r = match lcs with
                     | [] => None
                     | _ :: _ => Some (firstn 4 lcs)
                     end.
Proof.
  apply (recommendation_without_chat_model Samples.crude_libm Samples.reversing_rng
           MoreSamples.corpus "city" "CA" Samples.steady_client Samples.fresh_world).
  - discriminate.
  - intros n l. apply Permutation_rev.
  - intros lat lon Hu. vm_compute in Hu. injection Hu as <- <-. sample_distances.
  - intros n req. reflexivity.
Defined.

(** X14.  For a user whose state has coordinates, every case study that
    [recommend_articles] returns with state tags has one of its states
    within 500 miles: a tagged case study out of range is never
    recommended, whatever the chat model replies. *)
Theorem recommended_case_studies_are_near_or_untagged
    m rng articles user_type user_state client w user_lat user_lon :
  articles <> [] ->
  (forall n l, Permutation l (random_shuffle rng n l)) ->
  dict_get STATE_COORDINATES user_state = Some (user_lat, user_lon) ->
  distances_defined m user_lat user_lon articles ->
  exists r w',
    recommend_articles m rng articles user_type user_state client w = (Returned r, w') /\
    forall l a,
      case_studies r = Some l -> In a l -> has_states a = true ->
      within_bound m user_lat user_lon 500 a.
Proof.
  intros Hne Hperm Hcoord Hdef.
  assert (Hdef' : forall lat lon,
            dict_get STATE_COORDINATES user_state = Some (lat, lon) ->
            distances_defined m lat lon articles).
  { intros lat lon H. rewrite Hcoord in H. now injection H as <- <-. }
  destruct (recommend_articles_steps m rng articles user_type user_state client w
              Hne Hperm Hdef')
    as (g & w1 & lcs & w2 & r & w' & E & _ & _ & _ & _ & _ & Hloc & Hnil & _ & Hcs & _).
  exists r, w'. split; [exact E|].
  intros l a El Ha Htag. rewrite El in Hcs. destruct Hcs as (_ & _ & Hl & _).
  apply Hl in Ha.
  assert (Hcand : case_study_candidates user_type articles <> []).
  { intros Hc. rewrite (Hnil Hc) in Ha. destruct Ha. }
  assert (Hdefc : distances_defined m user_lat user_lon
                    (case_study_candidates user_type articles)).
  { eapply distances_defined_incl; [|exact Hdef].
    intros x Hx. unfold case_study_candidates in Hx. apply filter_In in Hx as [Hx _].
    now apply relevant_articles_spec in Hx. }
  destruct (tagged_result_iff m rng (case_study_candidates user_type articles)
              user_state 500 w1 user_lat user_lon Hcoord Hdefc Hperm)
    as (result & w3 & E3 & _ & Hiff).
  rewrite (Hloc Hcand) in E3. injection E3 as <- <-.
  apply (Hiff a Htag) in Ha as [Hin Hm].
  now apply (location_match_spec m user_lat user_lon 500
               (case_study_candidates user_type articles) a Hdefc Hin).
Qed.

Lemma recommended_case_studies_are_near_or_untagged_witness :
  exists r w',
    recommend_articles Samples.crude_libm Samples.reversing_rng MoreSamples.corpus
      "city" "CA" MoreSamples.chatty_client Samples.fresh_world = (Returned r, w') /\
    forall l a,
      case_studies r = Some l -> In a l -> has_states a = true ->
      within_bound Samples.crude_libm 36.116203 (-119.681564) 500 a.
Proof.
  apply (recommended_case_studies_are_near_or_untagged Samples.crude_libm
           Samples.reversing_rng MoreSamples.corpus "city" "CA"
           MoreSamples.chatty_client Samples.fresh_world 36.116203 (-119.681564)).
  - discriminate.
  - intros n l. apply Permutation_rev.
  - reflexivity.
  - sample_distances.
Defined.

Lemma lower_app a b : PyStr.lower (a ++ b) = PyStr.lower a ++ PyStr.lower b.
Proof. induction a as [|c a IH]; cbn [append PyStr.lower]; congruence. Qed.

Lemma py_in_lower needle s :
  PyStr.lower needle = needle ->
  PyStr.py_in needle s = true -> PyStr.py_in needle (PyStr.lower s) = true.
Proof.
  intros Hn. rewrite !py_in_spec. intros (a & b & ->).
  exists (PyStr.lower a), (PyStr.lower b). now rewrite !lower_app, Hn.
Qed.

(** X15.  An article whose URL contains [/case-studies/] counts as a case
    study for the recommender and for the answers, whatever type the
    crawler gave it: a page under [/resources/case-studies/], typed
    [resource], is still recommended and cited as a case study. *)
Theorem case_study_urls_are_case_studies (a : article) :
  PyStr.py_in "/case-studies/" (url a) = true ->
  is_case_study a = true /\ boosted a = true.
Proof.
  intros H. apply (py_in_lower "/case-studies/" (url a) eq_refl) in H.
  unfold is_case_study, boosted. rewrite H.
  rewrite !orb_true_r. cbn [orb]. split; reflexivity.
Qed.

Lemma case_study_urls_are_case_studies_witness :
  is_case_study MoreSamples.arlington_study = true /\
  boosted MoreSamples.arlington_study = true.
Proof.
  apply (case_study_urls_are_case_studies MoreSamples.arlington_study).
  reflexivity.
Defined.

(** ** Reading the numbers of a reply *)

Lemma int_of_digits_acc_uint d : forall acc,
  (0 <= acc)%Z ->
  int_of_digits_acc acc (NilEmpty.string_of_uint d)
  = Z.of_nat (Nat.of_uint_acc d (Z.to_nat acc)).
Proof.
  induction d; intros acc Hacc;
    cbn [NilEmpty.string_of_uint int_of_digits_acc Nat.of_uint_acc];
    [now rewrite Z2Nat.id by assumption|..];
    (rewrite IHd by lia; do 2 f_equal; rewrite Nat.tail_mul_spec;
     match goal with
     | |- context [Z.of_nat ?x] =>
         let v := eval vm_compute in (Z.of_nat x) in change (Z.of_nat x) with v
     end; lia).
Qed.

Lemma int_of_digits_decimal k : int_of_digits (decimal k) = Z.of_nat k.
Proof.
  unfold int_of_digits, decimal. rewrite int_of_digits_acc_uint by lia.
  change (Nat.of_uint_acc (Nat.to_uint k) (Z.to_nat 0)) with (Nat.of_uint (Nat.to_uint k)).
  now rewrite DecimalNat.Unsigned.of_to.
Qed.

Lemma string_of_uint_digits d :
  forallb_string is_digit (NilEmpty.string_of_uint d) = true.
Proof. induction d; cbn; auto. Qed.

Lemma decimal_truthy k : PyStr.truthy (decimal k) = true.
Proof.
  unfold decimal. destruct (Nat.to_uint k) eqn:E; try reflexivity.
  pose proof (DecimalNat.Unsigned.of_to k) as H. rewrite E in H. cbn in H. subst k.
  discriminate.
Qed.

Lemma append_empty_r (s : string) : s ++ "" = s.
Proof. induction s; cbn; congruence. Qed.

Lemma digit_runs_digits d : forall cur rest,
  forallb_string is_digit d = true ->
  digit_runs cur (d ++ rest) = digit_runs (cur ++ d) rest.
Proof.
  induction d as [|c d IH]; intros cur rest H.
  - cbn [append]. now rewrite append_empty_r.
  - cbn [forallb_string] in H. apply andb_true_iff in H as [Hc Hd].
    cbn [append digit_runs]. rewrite Hc, IH by assumption.
    f_equal. apply append_assoc.
Qed.

Lemma digit_runs_decimals ks :
  digit_runs "" (PyStr.join ", " (map decimal ks)) = map decimal ks.
Proof.
  induction ks as [|k ks IH]; [reflexivity|].
  assert (Hone : forall rest,
            digit_runs "" (decimal k ++ rest) = digit_runs (decimal k) rest).
  { intros rest. now rewrite digit_runs_digits by apply string_of_uint_digits. }
  destruct ks as [|k' ks].
  - cbn [map PyStr.join]. rewrite <- (append_empty_r (decimal k)) at 1.
    rewrite Hone. cbn [digit_runs]. now rewrite decimal_truthy.
  - change (PyStr.join ", " (map decimal (k :: k' :: ks)))
      with (decimal k ++ ", " ++ PyStr.join ", " (map decimal (k' :: ks))).
    rewrite Hone. cbn [append digit_runs].
    change (is_digit ",") with false. change (is_digit " ") with false.
    cbn iota. rewrite decimal_truthy. cbn [PyStr.truthy String.eqb negb app].
    now rewrite IH.
Qed.

Lemma selected_indices_numbers n size : forall idx,
  (length idx <= n)%nat ->
  Forall (fun i => (i < size)%nat) idx ->
  selected_indices n (PyStr.join ", " (map decimal (map S idx))) size = idx.
Proof.
  intros idx Hlen Hin. unfold selected_indices.
  rewrite digit_runs_decimals, firstn_all2 by now rewrite !length_map.
  clear Hlen. induction Hin as [|i idx Hi _ IH]; [reflexivity|].
  cbn [map flat_map]. rewrite IH, int_of_digits_decimal.
  replace (Z.of_nat (S i) - 1)%Z with (Z.of_nat i) by lia.
  assert (H : ((0 <=? Z.of_nat i)%Z && (Z.of_nat i <? Z.of_nat size)%Z) = true).
  { apply andb_true_iff. split; [apply Z.leb_le|apply Z.ltb_lt]; lia. }
  rewrite H, Nat2Z.id. reflexivity.
Qed.

(** X16.  The numbers of a reply are read back as they were written: when
    the model replies with the numbers of at most [n] candidates, counted
    from 1 and separated by a comma and a space, the selection is these
    candidates, in the order of the reply, repetitions included. *)
Theorem numbered_reply_selects_its_candidates n candidates idx :
  idx <> [] ->
  (length idx <= n)%nat ->
  Forall (fun i => (i < length candidates)%nat) idx ->
  selected_indices n (PyStr.join ", " (map decimal (map S idx))) (length candidates)
  = idx /\
  Forall2 (fun i a => nth_error candidates i = Some a) idx
    (select_from_reply n candidates (PyStr.join ", " (map decimal (map S idx)))).
Proof.
  intros Hne Hlen Hin.
  pose proof (selected_indices_numbers n (length candidates) idx Hlen Hin) as E.
  split; [exact E|].
  unfold select_from_reply. rewrite E.
  destruct idx as [|i0 idx0] eqn:Ei; [congruence|]. rewrite <- Ei in *.
  rewrite firstn_all2 by assumption. clear E Hlen Hne Ei.
  induction Hin as [|i idx Hi _ IH]; [constructor|].
  cbn [pick flat_map]. apply nth_error_Some in Hi.
  destruct (nth_error candidates i) as [a|] eqn:Ea; [|congruence].
  cbn [app]. constructor; [exact Ea|exact IH].
Qed.

Lemma numbered_reply_selects_its_candidates_witness :
  selected_indices 3 (PyStr.join ", " (map decimal (map S [2; 0; 2]%nat)))
    (length MoreSamples.corpus) = [2; 0; 2]%nat /\
  Forall2 (fun i a => nth_error MoreSamples.corpus i = Some a) [2; 0; 2]%nat
    (select_from_reply 3 MoreSamples.corpus
       (PyStr.join ", " (map decimal (map S [2; 0; 2]%nat)))).
Proof.
  apply (numbered_reply_selects_its_candidates 3 MoreSamples.corpus [2; 0; 2]%nat).
  - discriminate.
  - cbn. lia.
  - repeat constructor; cbn; lia.
Defined.

(** ** Answering questions *)

(** What the scoring loop returns, whenever it returns: one score for each
    article, in the order of the articles. *)
Lemma score_articles_shape q client : forall articles w scores g arts w',
  score_articles q client articles w = (Returned (scores, g, arts), w') ->
  map snd scores = arts /\ Forall2 same_document articles arts.
Proof.
  induction articles as [|a rest IH]; intros w scores g arts w' E.
  - cbn in E. injection E as <- <- <- <-. split; [reflexivity|constructor].
  - rewrite score_articles_cons in E.
    destruct (get_article_embedding_returns a client w)
      as (emb & a' & w1 & Eg & _ & _ & Hdoc & _).
    rewrite Eg in E.
    assert (Hrest : forall sc,
              match score_articles q client rest w1 with
              | (Returned (scores0, g0, arts0), w2) =>
                  (Returned ((sc, a') :: scores0, g0, a' :: arts0), w2)
              | (Raised ex, w2) => (Raised ex, w2)
              end = (Returned (scores, g, arts), w') \/
              (exists g1,
                 match score_articles q client rest w1 with
                 | (Returned (scores0, g0, arts0), w2) =>
                     (Returned ((sc, a') :: scores0, (g1 + g0)%nat, a' :: arts0), w2)
                 | (Raised ex, w2) => (Raised ex, w2)
                 end = (Returned (scores, g, arts), w')) ->
              map snd scores = arts /\ Forall2 same_document (a :: rest) arts).
    { intros sc H.
      destruct (score_articles q client rest w1) as [[[[scores0 g0] arts0]|ex] w2] eqn:Er.
      - destruct (IH w1 scores0 g0 arts0 w2 Er) as [Hm Hf].
        destruct H as [H|[g1 H]]; injection H as <- <- <- <-;
          (split; [cbn [map snd]; now rewrite Hm|now constructor]).
      - destruct H as [H|[g1 H]]; discriminate. }
    destruct emb as [[|x e]|].
    + apply (Hrest 0). now left.
    + destruct (cosine_similarity q (x :: e)) as [sim|ex]; [|discriminate].
      apply (Hrest sim). right. eexists. exact E.
    + apply (Hrest 0). now left.
Qed.

(** What a ranking call returns, whenever it returns: articles of the list
    as the call leaves it, at most [top_k] of them. *)
Lemma find_similar_articles_shape query articles client top_k w result arts w1 :
  (0 <= top_k)%Z ->
  find_similar_articles query articles client top_k w = (Returned (result, arts), w1) ->
  incl result arts /\ (length result <= Z.to_nat top_k)%nat /\
  Forall2 same_document articles arts.
Proof.
  intros Hk E. rewrite find_similar_articles_eq in E.
  destruct (embeddings_create client (api_calls w) EMBEDDING_MODEL query) as [q|].
  - destruct (score_articles q client articles (count_request w))
      as [[[[scores g] arts0]|ex] w2] eqn:Es; [|discriminate].
    destruct (score_articles_shape q client articles _ _ _ _ _ Es) as [Hm Hf].
    injection E as <- <- <-. rewrite py_slice_to_nonneg by assumption.
    split; [|split].
    + intros a Ha. apply in_map_iff in Ha as ((s & a0) & <- & Hin).
      apply In_firstn in Hin.
      eapply Permutation_in in Hin; [|apply sort_by_score_reverse_perm].
      rewrite <- Hm. apply in_map_iff. exists (s, a0). auto.
    + rewrite length_map. apply firstn_le_length.
    + exact Hf.
  - injection E as <- <- <-. rewrite py_slice_to_nonneg by assumption.
    split; [|split].
    + intros a Ha. now apply In_firstn in Ha.
    + apply firstn_le_length.
    + apply Forall2_same_document_refl.
Qed.

Lemma prioritize_eq query similar :
  prioritize query similar
  = if mentions_case_studies query
    then (filter boosted similar ++ filter (fun a => negb (boosted a)) similar)%list
    else similar.
Proof.
  unfold prioritize. destruct (mentions_case_studies query); [|reflexivity].
  cbv zeta. now rewrite not_in_filter.
Qed.

Lemma prioritize_perm query similar : Permutation (prioritize query similar) similar.
Proof.
  rewrite prioritize_eq. destruct (mentions_case_studies query); [|reflexivity].
  induction similar as [|a l IH]; [constructor|].
  cbn [filter]. destruct (boosted a); cbn [negb app].
  - now constructor.
  - symmetry. apply Permutation_cons_app. now symmetry.
Qed.

Lemma firstn_firstn_le {A} (n k : nat) (l : list A) :
  (n <= k)%nat -> firstn n (firstn k l) = firstn n l.
Proof. intros H. rewrite firstn_firstn. f_equal. lia. Qed.

Lemma log_qa_pair_logged_once lg question reply j :
  logged_once lg question reply (fst (log_qa_pair lg question reply j)) j
    (snd (log_qa_pair lg question reply j)).
Proof.
  unfold logged_once, log_qa_pair. cbn [fst snd session_qa_logs qa_log_file log_calls].
  split; [reflexivity|]. split; [reflexivity|]. split; [reflexivity|].
  destruct (sheets_logged lg (log_calls j) question reply).
  - split; [reflexivity|]. split; discriminate.
  - split; [discriminate|].
    destruct (csv_writable lg (log_calls j)).
    + split; [discriminate|]. intros _ _.
      destruct (qa_log_file j) as [old|].
      * exists old. auto.
      * exists [["timestamp"; "question"; "answer"]]. auto.
    + split; [reflexivity|discriminate].
Qed.

(** [query_website_content], case by case. *)
Lemma query_website_content_cases lg str_of query articles client w j :
  (exists e w1,
     find_similar_articles query articles client 25 w = (Raised e, w1) /\
     query_website_content lg str_of query articles client w j = (Raised e, w1, j)) \/
  (exists similar arts w1,
     find_similar_articles query articles client 25 w
       = (Returned (similar, arts), w1) /\
     ((exists reply,
         chat_completions_create client (api_calls w1)
           (answer_request
              (answer_prompt query (context_of (firstn 20 (prioritize query similar)))))
         = Some reply /\
         query_website_content lg str_of query articles client w j
         = (Returned ({| answer := reply;
                         sources := firstn 5 (prioritize query similar);
                         logged_to_sheets := fst (log_qa_pair lg query reply j) |},
                      arts),
            count_request w1, snd (log_qa_pair lg query reply j))) \/
      (chat_completions_create client (api_calls w1)
         (answer_request
            (answer_prompt query (context_of (firstn 20 (prioritize query similar)))))
       = None /\
       query_website_content lg str_of query articles client w j
       = (Returned ({| answer := "Error: " ++ str_of APIError;
                       sources := [];
                       logged_to_sheets :=
                         fst (log_qa_pair lg query ("Error: " ++ str_of APIError) j) |},
                    arts),
          count_request w1,
          snd (log_qa_pair lg query ("Error: " ++ str_of APIError) j))))).
Proof.
  unfold query_website_content.
  destruct (find_similar_articles query articles client 25 w)
    as [[[similar arts]|e] w1]; [right|left; eauto].
  exists similar, arts, w1. split; [reflexivity|].
  unfold request_chat.
  destruct (chat_completions_create client (api_calls w1) _) as [reply|].
  - left. exists reply. split; [reflexivity|].
    destruct (log_qa_pair lg query reply j) as [logged j'].
    cbn [fst snd]. now rewrite firstn_firstn_le by lia.
  - right. split; [reflexivity|].
    destruct (log_qa_pair lg query ("Error: " ++ str_of APIError) j) as [logged j'].
    reflexivity.
Qed.

(** X17.  When the ranking returns and the chat model replies,
    [query_website_content] returns the reply as its answer and cites the
    first five articles of the ranking; when the query mentions case
    studies or success stories, the ranking is first split, in order, into
    the articles that look like case studies and the others, the former put
    in front.  The sources are at most five articles of the corpus as the
    call leaves it, and no source that does not look like a case study comes
    before one that does when the query asks for case studies. *)
Theorem answer_cites_top_of_ranking
    lg str_of query articles client w j similar arts w1 reply :
  find_similar_articles query articles client 25 w = (Returned (similar, arts), w1) ->
  chat_completions_create client (api_calls w1)
    (answer_request
       (answer_prompt query (context_of (firstn 20 (prioritize query similar)))))
  = Some reply ->
  exists r j',
    query_website_content lg str_of query articles client w j
    = (Returned (r, arts), count_request w1, j') /\
    answer r = reply /\
    sources r
    = firstn 5 (if mentions_case_studies query
                then (filter boosted similar
                      ++ filter (fun a => negb (boosted a)) similar)%list
                else similar) /\
    (length (sources r) <= 5)%nat /\
    incl (sources r) arts /\
    (mentions_case_studies query = true ->
     exists studies others,
       sources r = (studies ++ others)%list /\
       Forall (fun a => boosted a = true) studies /\
       Forall (fun a => boosted a = false) others).
Proof.
  intros Es Ec.
  destruct (query_website_content_cases lg str_of query articles client w j)
    as [(e & w0 & Es' & _)|(similar' & arts' & w1' & Es' & H)]; [congruence|].
  rewrite Es in Es'. injection Es' as <- <- <-.
  destruct H as [(reply' & Ec' & E)|[Ec' _]]; [|congruence].
  rewrite Ec in Ec'. injection Ec' as <-.
  destruct (find_similar_articles_shape query articles client 25 w similar arts w1)
    as (Hincl & _ & _); [lia|exact Es|].
  eexists _, _. split; [exact E|]. cbn [answer sources].
  split; [reflexivity|]. split; [now rewrite prioritize_eq|].
  split; [apply firstn_le_length|]. split.
  - intros a Ha. apply In_firstn in Ha. apply Hincl.
    eapply Permutation_in; [apply prioritize_perm|exact Ha].
  - intros Hm. rewrite prioritize_eq, Hm, firstn_app.
    eexists _, _. split; [reflexivity|]. split.
    + apply Forall_forall. intros a Ha. apply In_firstn in Ha.
      now apply filter_In in Ha.
    + apply Forall_forall. intros a Ha. apply In_firstn in Ha.
      apply filter_In in Ha as [_ Ha]. now apply negb_true_iff.
Qed.

Lemma answer_cites_top_of_ranking_witness :
  exists similar arts w1 reply r j',
    find_similar_articles "Is there a case study from Reno?" MoreSamples.corpus
      MoreSamples.chatty_client 25 Samples.fresh_world
    = (Returned (similar, arts), w1) /\
    query_website_content MoreSamples.file_logger MoreSamples.str_of_exn
      "Is there a case study from Reno?" MoreSamples.corpus
      MoreSamples.chatty_client Samples.fresh_world MoreSamples.empty_journal
    = (Returned (r, arts), count_request w1, j') /\
    answer r = reply /\
    sources r
    = firstn 5 (if mentions_case_studies "Is there a case study from Reno?"
                then (filter boosted similar
                      ++ filter (fun a => negb (boosted a)) similar)%list
                else similar) /\
    (length (sources r) <= 5)%nat /\
    incl (sources r) arts /\
    (mentions_case_studies "Is there a case study from Reno?" = true ->
     exists studies others,
       sources r = (studies ++ others)%list /\
       Forall (fun a => boosted a = true) studies /\
       Forall (fun a => boosted a = false) others).
Proof.
  eexists _, _, _, "2, 1".
  assert (E : find_similar_articles "Is there a case study from Reno?"
                MoreSamples.corpus MoreSamples.chatty_client 25 Samples.fresh_world
              = (Returned (_, _), _)) by (vm_compute; reflexivity).
  destruct (answer_cites_top_of_ranking MoreSamples.file_logger
              MoreSamples.str_of_exn "Is there a case study from Reno?"
              MoreSamples.corpus MoreSamples.chatty_client Samples.fresh_world
              MoreSamples.empty_journal _ _ _ "2, 1" E eq_refl) as (r & j' & H).
  exists r, j'. split; [exact E|exact H].
Defined.

(** X18.  When the ranking returns and the request to the chat model
    fails, [query_website_content] does not raise: the answer is the text of
    the exception after ["Error: "], no source is cited, and the articles
    are left as the ranking left them. *)
Theorem failed_answer_is_an_error_message
    lg str_of query articles client w j similar arts w1 :
  find_similar_articles query articles client 25 w = (Returned (similar, arts), w1) ->
  chat_completions_create client (api_calls w1)
    (answer_request
       (answer_prompt query (context_of (firstn 20 (prioritize query similar)))))
  = None ->
  exists r j',
    query_website_content lg str_of query articles client w j
    = (Returned (r, arts), count_request w1, j') /\
    answer r = "Error: " ++ str_of APIError /\
    sources r = [] /\
    Forall2 same_document articles arts.
Proof.
  intros Es Hfail.
  destruct (query_website_content_cases lg str_of query articles client w j)
    as [(e & w0 & Es' & _)|(similar' & arts' & w1' & Es' & H)]; [congruence|].
  rewrite Es in Es'. injection Es' as <- <- <-.
  destruct H as [(reply' & Ec' & _)|[_ E]]; [congruence|].
  destruct (find_similar_articles_shape query articles client 25 w similar arts w1)
    as (_ & _ & Hdoc); [lia|exact Es|].
  eexists _, _. split; [exact E|]. cbn [answer sources]. auto.
Qed.

Lemma failed_answer_is_an_error_message_witness :
  exists similar arts w1 r j',
    find_similar_articles "what is microtransit" MoreSamples.corpus
      Samples.steady_client 25 Samples.fresh_world = (Returned (similar, arts), w1) /\
    query_website_content MoreSamples.file_logger MoreSamples.str_of_exn
      "what is microtransit" MoreSamples.corpus Samples.steady_client
      Samples.fresh_world MoreSamples.empty_journal
    = (Returned (r, arts), count_request w1, j') /\
    answer r = "Error: " ++ MoreSamples.str_of_exn APIError /\
    sources r = [] /\
    Forall2 same_document MoreSamples.corpus arts.
Proof.
  eexists _, _, _.
  assert (E : find_similar_articles "what is microtransit" MoreSamples.corpus
                Samples.steady_client 25 Samples.fresh_world
              = (Returned (_, _), _)) by (vm_compute; reflexivity).
  destruct (failed_answer_is_an_error_message MoreSamples.file_logger
              MoreSamples.str_of_exn "what is microtransit" MoreSamples.corpus
              Samples.steady_client Samples.fresh_world MoreSamples.empty_journal
              _ _ _ E eq_refl) as (r & j' & H).
  exists r, j'. split; [exact E|exact H].
Defined.

(** X19.  Every call of [query_website_content] that returns has logged
    its question and the answer it returns, the error message included,
    exactly once: one entry more in the session log, and one row more in the
    log file unless the row went to the spreadsheet or the file cannot be
    written; the file gets its header row when it is created.  A call that
    raises (the ranking raised) logs nothing. *)
Theorem every_answer_is_logged_once lg str_of query articles client w j :
  match query_website_content lg str_of query articles client w j with
  | (Returned (r, _), _, j') =>
      logged_once lg query (answer r) (logged_to_sheets r) j j'
  | (Raised _, _, j') => j' = j
  end.
Proof.
  destruct (query_website_content_cases lg str_of query articles client w j)
    as [(e & w0 & _ & E)|(similar & arts & w1 & _ & [(reply & _ & E)|[_ E]])];
    rewrite E; [reflexivity| |]; cbn [answer logged_to_sheets];
    apply log_qa_pair_logged_once.
Qed.

(** ** More on the crawler *)

Lemma in_set_In x s : Crawler.in_set x s = true <-> In x s.
Proof.
  unfold Crawler.in_set. rewrite existsb_exists. split.
  - intros (y & Hy & E). apply String.eqb_eq in E. now subst.
  - intros H. exists x. split; auto. apply String.eqb_refl.
Qed.

Lemma in_set_false x s : Crawler.in_set x s = false <-> ~ In x s.
Proof.
  rewrite <- in_set_In. destruct (Crawler.in_set x s); split; congruence.
Qed.

(** What one link does to the crawl state: nothing, or one new URL. *)
Lemma discover_link_cases urljoin soup_title st link :
  Crawler.discover_link urljoin soup_title st link = st \/
  exists full_url,
    ~ In full_url (Crawler.seen_urls st) /\
    PyStr.py_in "ridewithvia.com" full_url = true /\
    existsb (fun p => PyStr.py_in p full_url) Crawler.content_paths = true /\
    Crawler.urls_to_visit (Crawler.discover_link urljoin soup_title st link)
    = (Crawler.urls_to_visit st ++ [full_url])%list /\
    Crawler.seen_urls (Crawler.discover_link urljoin soup_title st link)
    = full_url :: Crawler.seen_urls st /\
    (Crawler.articles (Crawler.discover_link urljoin soup_title st link)
     = Crawler.articles st \/
     exists a,
       Crawler.articles (Crawler.discover_link urljoin soup_title st link)
       = (Crawler.articles st ++ [a])%list /\
       url a = full_url /\ stub_article a).
Proof.
  unfold Crawler.discover_link.
  destruct (negb (PyStr.truthy (Crawler.href link))); auto.
  destruct (Crawler.normalize_url urljoin (Crawler.href link)) as [full_url|]; auto.
  destruct (PyStr.py_in "ridewithvia.com" full_url) eqn:Hsite; auto.
  destruct (Crawler.in_set full_url (Crawler.seen_urls st)) eqn:Hseen; auto.
  cbn [andb negb].
  destruct (existsb (fun p => PyStr.py_in p full_url) Crawler.content_paths) eqn:Hpath; auto.
  right. exists full_url. apply in_set_false in Hseen.
  repeat (split; [assumption || reflexivity|]).
  cbn [Crawler.articles].
  set (t := Crawler.link_title soup_title link full_url).
  destruct (PyStr.truthy t && (5 <? String.length t)%nat &&
            (String.length t <? 300)%nat) eqn:Ht; auto.
  right. eexists. split; [reflexivity|]. split; [reflexivity|].
  apply andb_true_iff in Ht as [Ht H300]. apply andb_true_iff in Ht as [_ H5].
  apply Nat.ltb_lt in H5, H300.
  unfold stub_article. cbn. repeat split; auto.
Qed.

(** What the links of a page do to the crawl state: they append new URLs
    to the queue and stub articles to the list, and mark the URLs seen. *)
Lemma discover_page_appends urljoin soup_title links : forall st,
  exists new_urls new_articles,
    Crawler.urls_to_visit (Crawler.discover_page urljoin soup_title links st)
    = (Crawler.urls_to_visit st ++ new_urls)%list /\
    Crawler.seen_urls (Crawler.discover_page urljoin soup_title links st)
    = (rev new_urls ++ Crawler.seen_urls st)%list /\
    Crawler.articles (Crawler.discover_page urljoin soup_title links st)
    = (Crawler.articles st ++ new_articles)%list /\
    NoDup new_urls /\
    Forall (fun u => ~ In u (Crawler.seen_urls st)) new_urls /\
    Forall stub_article new_articles /\
    NoDup (map url new_articles) /\
    incl (map url new_articles) new_urls.
Proof.
  unfold Crawler.discover_page.
  induction links as [|link links IH]; intros st.
  - exists [], []. cbn. rewrite !app_nil_r.
    repeat split; try constructor. intros x [].
  - cbn [fold_left].
    destruct (IH (Crawler.discover_link urljoin soup_title st link))
      as (us & arts & Hq & Hs & Ha & Hnd & Hns & Hst & Hnda & Hincl).
    destruct (discover_link_cases urljoin soup_title st link)
      as [E|(u & Hu & _ & _ & Eq & Es & Ea)].
    + rewrite E in *. exists us, arts. auto 10.
    + rewrite Eq in Hq. rewrite Es in Hs, Hns.
      assert (Hus : ~ In u us).
      { intros H. rewrite Forall_forall in Hns. apply (Hns u H). now left. }
      assert (Hns' : Forall (fun v => ~ In v (Crawler.seen_urls st)) us).
      { eapply Forall_impl; [|exact Hns]. cbn. intros v Hv H. apply Hv. now right. }
      destruct Ea as [Ea|(a & Ea & Hau & Hastub)]; rewrite Ea in Ha.
      * exists (u :: us), arts. rewrite <- app_assoc in Hq. cbn [rev].
        rewrite <- app_assoc. cbn [app] in *.
        split; [exact Hq|]. split; [exact Hs|]. split; [exact Ha|].
        split; [now constructor|]. split; [now constructor|].
        split; [exact Hst|]. split; [exact Hnda|]. now apply incl_tl.
      * exists (u :: us), (a :: arts). rewrite <- app_assoc in Hq, Ha. cbn [rev].
        rewrite <- app_assoc. cbn [app map] in *.
        split; [exact Hq|]. split; [exact Hs|]. split; [exact Ha|].
        split; [now constructor|]. split; [now constructor|].
        split; [now constructor|].
        split.
        -- constructor; auto. rewrite Hau. intros H. apply Hus. now apply Hincl.
        -- intros x [<-|Hx]; [left; auto|right; now apply Hincl].
Qed.

(** X20.  Reading the links of a page only adds to the crawl state: the
    queue and the article list keep their entries and get new ones at the
    end.  The URLs added to the queue are pairwise distinct and were not
    marked as seen; they are the URLs that become marked.  The articles
    added are stubs with pairwise distinct URLs, each of them a URL added
    to the queue. *)
Theorem discover_page_only_appends urljoin soup_title links st :
  exists new_urls new_articles,
    Crawler.urls_to_visit (Crawler.discover_page urljoin soup_title links st)
    = (Crawler.urls_to_visit st ++ new_urls)%list /\
    Crawler.articles (Crawler.discover_page urljoin soup_title links st)
    = (Crawler.articles st ++ new_articles)%list /\
    (forall u, In u (Crawler.seen_urls
                       (Crawler.discover_page urljoin soup_title links st)) <->
               In u new_urls \/ In u (Crawler.seen_urls st)) /\
    NoDup new_urls /\
    Forall (fun u => ~ In u (Crawler.seen_urls st)) new_urls /\
    Forall stub_article new_articles /\
    NoDup (map url new_articles) /\
    incl (map url new_articles) new_urls.
Proof.
  destruct (discover_page_appends urljoin soup_title links st)
    as (us & arts & Hq & Hs & Ha & H).
  exists us, arts. split; [exact Hq|]. split; [exact Ha|]. split; [|exact H].
  intros u. rewrite Hs, in_app_iff, <- in_rev. tauto.
Qed.

Lemma discover_page_urls_unique urljoin soup_title links st :
  urls_unique st -> urls_unique (Crawler.discover_page urljoin soup_title links st).
Proof.
  intros [Hnd Hseen].
  destruct (discover_page_appends urljoin soup_title links st)
    as (us & arts & _ & Hs & Ha & Hndu & Hns & _ & Hnda & Hincl).
  unfold urls_unique. rewrite Ha, Hs, map_app. split.
  - apply NoDup_app; auto.
    intros x Hx Hx'.
    rewrite Forall_forall in Hns, Hseen.
    apply in_map_iff in Hx as (a & <- & Ha').
    apply (Hns (url a)); auto.
  - apply Forall_app. split.
    + eapply Forall_impl; [|exact Hseen]. cbn. intros a H. apply in_or_app. now right.
    + apply Forall_forall. intros a Ha'. apply in_or_app. left. apply in_rev.
      rewrite rev_involutive. apply Hincl. now apply in_map.
Qed.

Lemma crawl_invariant_skip queue st rest u n req :
  Crawler.urls_to_visit st = u :: rest ->
  crawl_invariant queue
    {| Crawl.crawl := st; Crawl.visited_count := n; Crawl.requested := req |} ->
  crawl_invariant queue
    {| Crawl.crawl :=
         {| Crawler.urls_to_visit := rest;
            Crawler.seen_urls := Crawler.seen_urls st;
            Crawler.articles := Crawler.articles st |};
       Crawl.visited_count := n; Crawl.requested := req |}.
Proof.
  intros Hq [H1 H2 H3 H4 H5 H6 H7]. cbn in *.
  constructor; cbn; auto.
  unfold queued_from in *. cbn. rewrite Hq in H3. now inversion H3.
Qed.

Lemma crawl_invariant_visit urljoin (site : Crawl.Site) queue st rest u n req :
  Crawler.urls_to_visit st = u :: rest ->
  ~ In u (Crawler.seen_urls st) ->
  crawl_invariant queue
    {| Crawl.crawl := st; Crawl.visited_count := n; Crawl.requested := req |} ->
  crawl_invariant queue
    {| Crawl.crawl :=
         match site u with
         | Some pg =>
             Crawler.discover_page urljoin (Crawl.page_title pg) (Crawl.page_links pg)
               {| Crawler.urls_to_visit := rest;
                  Crawler.seen_urls := u :: Crawler.seen_urls st;
                  Crawler.articles := Crawler.articles st |}
         | None =>
             {| Crawler.urls_to_visit := rest;
                Crawler.seen_urls := u :: Crawler.seen_urls st;
                Crawler.articles := Crawler.articles st |}
         end;
       Crawl.visited_count := S n; Crawl.requested := (req ++ [u])%list |}.
Proof.
  intros Hq Hu [[H1a H1b] H2 H3 H4 H5 H6 H7]. cbn in *.
  unfold queued_from in H3. rewrite Hq in H3.
  inversion H3 as [|? ? Hu_from Hrest]; subst.
  set (popped := {| Crawler.urls_to_visit := rest;
                    Crawler.seen_urls := u :: Crawler.seen_urls st;
                    Crawler.articles := Crawler.articles st |}).
  assert (Hin_q : In u queue) by (destruct Hu_from; [assumption|contradiction]).
  assert (Hpop_unique : urls_unique popped).
  { split; cbn; auto. eapply Forall_impl; [|exact H1b]. cbn. intros a Ha. now right. }
  assert (Hpop_queue : queued_from queue popped).
  { unfold queued_from. cbn. eapply Forall_impl; [|exact Hrest].
    cbn. intros v [Hv|Hv]; [now left|right; now right]. }
  assert (Hreq : incl (req ++ [u]) queue).
  { intros x [Hx|[<-|[]]]%in_app_or; auto. }
  assert (Hreq_nd : NoDup (req ++ [u])).
  { apply NoDup_app; auto.
    - repeat constructor. intros [].
    - intros x Hx [<-|[]]. apply Hu. now apply H5. }
  assert (Hlen : length (req ++ [u]) = S (length req)).
  { rewrite length_app. cbn. lia. }
  destruct (site u) as [pg|].
  - destruct (discover_page_appends urljoin (Crawl.page_title pg) (Crawl.page_links pg)
                popped) as (us & arts & Eq & Es & Ea & _ & _ & Hst & _ & _).
    constructor; cbn; auto; try congruence.
    + now apply discover_page_urls_unique.
    + rewrite Ea. apply Forall_app. split; auto.
    + unfold queued_from. rewrite Eq, Es. apply Forall_app. split.
      * eapply Forall_impl; [|exact Hpop_queue]. cbn.
        intros v [Hv|Hv]; [now left|right; apply in_or_app; now right].
      * apply Forall_forall. intros v Hv. right. apply in_or_app. left.
        now apply in_rev in Hv.
    + rewrite Es. intros x [Hx|[<-|[]]]%in_app_or; apply in_or_app; right.
      * right. now apply H5.
      * now left.
  - constructor; cbn; auto; try congruence.
    intros x [Hx|[<-|[]]]%in_app_or; [right; now apply H5|now left].
Qed.

Lemma discover_invariant urljoin site queue : forall fuel d d',
  Crawl.discover fuel urljoin site d = Some d' ->
  crawl_invariant queue d -> crawl_invariant queue d'.
Proof.
  induction fuel as [|fuel IH]; intros d d' E Hinv; [discriminate|].
  cbn [Crawl.discover] in E. destruct d as [st n req].
  cbn [Crawl.crawl Crawl.visited_count Crawl.requested] in E.
  destruct (Crawler.urls_to_visit st) as [|u rest] eqn:Hq;
    [injection E as <-; exact Hinv|].
  destruct (n <? Crawl.max_pages)%nat; [|injection E as <-; exact Hinv].
  destruct (Crawler.in_set u (Crawler.seen_urls st)) eqn:Hseen.
  - apply IH in E; auto. now apply crawl_invariant_skip with u.
  - apply IH in E; auto. apply in_set_false in Hseen.
    now apply crawl_invariant_visit.
Qed.

Lemma discover_terminates urljoin site : forall budget size d,
  (Crawl.max_pages - Crawl.visited_count d <= budget)%nat ->
  (length (Crawler.urls_to_visit (Crawl.crawl d)) <= size)%nat ->
  exists fuel d',
    Crawl.discover fuel urljoin site d = Some d' /\
    (Crawler.urls_to_visit (Crawl.crawl d') = [] \/
     (Crawl.max_pages <= Crawl.visited_count d')%nat).
Proof.
  induction budget as [|budget IHb].
  - intros size [st n req] Hb _.
    cbn [Crawl.crawl Crawl.visited_count Crawl.requested] in Hb.
    exists 1%nat. eexists.
    cbn [Crawl.discover Crawl.crawl Crawl.visited_count Crawl.requested].
    destruct (Crawler.urls_to_visit st) as [|u rest] eqn:Hq.
    + split; [reflexivity|]. now left.
    + assert (Hn : (n <? Crawl.max_pages)%nat = false) by (apply Nat.ltb_ge; lia).
      rewrite Hn. split; [reflexivity|]. right.
      cbn [Crawl.visited_count]. lia.
  - induction size as [|size IHs]; intros [st n req] Hb Hs;
      cbn [Crawl.crawl Crawl.visited_count Crawl.requested] in Hb, Hs.
    + exists 1%nat. eexists.
      cbn [Crawl.discover Crawl.crawl Crawl.visited_count Crawl.requested].
      destruct (Crawler.urls_to_visit st) eqn:Hq; [|cbn [length] in Hs; lia].
      split; [reflexivity|]. now left.
    + destruct (Crawler.urls_to_visit st) as [|u rest] eqn:Hq.
      { exists 1%nat. eexists.
        cbn [Crawl.discover Crawl.crawl Crawl.visited_count Crawl.requested].
        rewrite Hq. split; [reflexivity|]. now left. }
      cbn [length] in Hs.
      destruct (n <? Crawl.max_pages)%nat eqn:Hn.
      2:{ exists 1%nat. eexists.
          cbn [Crawl.discover Crawl.crawl Crawl.visited_count Crawl.requested].
          rewrite Hq, Hn. split; [reflexivity|]. right.
          cbn [Crawl.visited_count]. apply Nat.ltb_ge in Hn. lia. }
      destruct (Crawler.in_set u (Crawler.seen_urls st)) eqn:Hseen.
      * destruct (IHs {| Crawl.crawl :=
                           {| Crawler.urls_to_visit := rest;
                              Crawler.seen_urls := Crawler.seen_urls st;
                              Crawler.articles := Crawler.articles st |};
                         Crawl.visited_count := n; Crawl.requested := req |})
          as (fuel & d' & E & Hd');
          cbn [Crawl.crawl Crawl.visited_count Crawl.requested Crawler.urls_to_visit];
          try lia.
        exists (S fuel), d'.
        cbn [Crawl.discover Crawl.crawl Crawl.visited_count Crawl.requested].
        rewrite Hq, Hn, Hseen. auto.
      * set (next := {| Crawl.crawl :=
                          match site u with
                          | Some pg =>
                              Crawler.discover_page urljoin (Crawl.page_title pg)
                                (Crawl.page_links pg)
                                {| Crawler.urls_to_visit := rest;
                                   Crawler.seen_urls := u :: Crawler.seen_urls st;
                                   Crawler.articles := Crawler.articles st |}
                          | None =>
                              {| Crawler.urls_to_visit := rest;
                                 Crawler.seen_urls := u :: Crawler.seen_urls st;
                                 Crawler.articles := Crawler.articles st |}
                          end;
                        Crawl.visited_count := S n;
                        Crawl.requested := (req ++ [u])%list |}).
        destruct (IHb (length (Crawler.urls_to_visit (Crawl.crawl next))) next)
          as (fuel & d' & E & Hd').
        { subst next. cbn [Crawl.visited_count]. apply Nat.ltb_lt in Hn. lia. }
        { lia. }
        exists (S fuel), d'.
        cbn [Crawl.discover Crawl.crawl Crawl.visited_count Crawl.requested].
        rewrite Hq, Hn, Hseen. auto.
Qed.

Lemma discover_fuel_more urljoin site : forall fuel d d',
  Crawl.discover fuel urljoin site d = Some d' ->
  forall fuel', (fuel <= fuel')%nat -> Crawl.discover fuel' urljoin site d = Some d'.
Proof.
  induction fuel as [|fuel IH]; intros d d' E fuel' Hle; [discriminate|].
  destruct fuel' as [|fuel']; [lia|].
  cbn [Crawl.discover] in *.
  destruct (Crawler.urls_to_visit (Crawl.crawl d)) as [|u rest]; auto.
  destruct (Crawl.visited_count d <? Crawl.max_pages)%nat; auto.
  destruct (Crawler.in_set u (Crawler.seen_urls (Crawl.crawl d)));
    apply IH; auto; lia.
Qed.

Lemma crawl_invariant_start urljoin :
  crawl_invariant (map (urljoin WEBSITE_URL) Crawl.seed_urls) (Crawl.start urljoin).
Proof.
  constructor; cbn [Crawl.start Crawl.crawl Crawl.requested Crawl.visited_count
                    Crawler.articles Crawler.seen_urls Crawler.urls_to_visit].
  - split; cbn [map]; constructor.
  - constructor.
  - unfold queued_from. cbn [Crawler.urls_to_visit]. apply Forall_forall. auto.
  - intros x [].
  - intros x [].
  - constructor.
  - reflexivity.
Qed.

(** X21.  On every site the discovery loop comes to an end with an empty
    queue, long before its page budget is used: it requests seed URLs only,
    each of them at most once, at most ten pages in all.  A URL found on a
    page is marked as seen when it is queued, and is skipped when it comes
    up. *)
Theorem crawl_requests_only_seed_pages urljoin site :
  exists fuel d',
    (forall fuel', (fuel <= fuel')%nat ->
       Crawl.discover fuel' urljoin site (Crawl.start urljoin) = Some d') /\
    Crawler.urls_to_visit (Crawl.crawl d') = [] /\
    incl (Crawl.requested d') (map (urljoin WEBSITE_URL) Crawl.seed_urls) /\
    NoDup (Crawl.requested d') /\
    Crawl.visited_count d' = length (Crawl.requested d') /\
    (Crawl.visited_count d' <= 10)%nat.
Proof.
  destruct (discover_terminates urljoin site Crawl.max_pages
              (length (Crawler.urls_to_visit (Crawl.crawl (Crawl.start urljoin))))
              (Crawl.start urljoin)) as (fuel & d' & E & Hend); try lia.
  pose proof (discover_invariant urljoin site _ fuel _ d' E (crawl_invariant_start urljoin))
    as [_ _ _ Hreq _ Hnd Hcount].
  assert (Hlen : (length (Crawl.requested d') <= 10)%nat).
  { apply NoDup_incl_length with (l' := map (urljoin WEBSITE_URL) Crawl.seed_urls) in Hnd;
      auto. }
  exists fuel, d'. split; [|split; [|repeat split; auto; lia]].
  - intros fuel' Hle. now apply discover_fuel_more with fuel.
  - destruct Hend as [Hq|Hmax]; auto. unfold Crawl.max_pages in Hmax. lia.
Qed.

(** X22.  When the discovery loop has come to its end, no two of the
    articles it has listed share a URL, each of them is a stub (URL that
    mentions the site and a content path, title of 6 to 299 characters, type
    read off the URL, nothing else filled), and the URL of each is marked as
    seen. *)
Theorem crawl_articles_are_distinct_stubs urljoin site fuel d' :
  Crawl.discover fuel urljoin site (Crawl.start urljoin) = Some d' ->
  NoDup (map url (Crawler.articles (Crawl.crawl d'))) /\
  Forall stub_article (Crawler.articles (Crawl.crawl d')) /\
  Forall (fun a => In (url a) (Crawler.seen_urls (Crawl.crawl d')))
    (Crawler.articles (Crawl.crawl d')).
Proof.
  intros E.
  pose proof (discover_invariant urljoin site _ fuel _ d' E (crawl_invariant_start urljoin))
    as [[Hnd Hseen] Hstub _ _ _ _ _].
  auto.
Qed.

Lemma crawl_articles_are_distinct_stubs_witness :
  exists d',
    Crawl.discover 30 MoreSamples.join_path MoreSamples.small_site
      (Crawl.start MoreSamples.join_path) = Some d' /\
    NoDup (map url (Crawler.articles (Crawl.crawl d'))) /\
    Forall stub_article (Crawler.articles (Crawl.crawl d')) /\
    Forall (fun a => In (url a) (Crawler.seen_urls (Crawl.crawl d')))
      (Crawler.articles (Crawl.crawl d')).
Proof.
  eexists. split; [vm_compute; reflexivity|].
  apply (crawl_articles_are_distinct_stubs MoreSamples.join_path
           MoreSamples.small_site 30).
  vm_compute. reflexivity.
Defined.

(** ** Phase 2 of the crawler *)

(** An iteration that starts with [re] unbound leaves it unbound, does not
    reach line 412, and leaves the URL, the type, the state tags and the
    embedding of its article as they were. *)
Lemma scrape_page_unbound urljoin py_int list_of_set a response :
  exists a' e,
    Scrape.scrape_page urljoin py_int list_of_set false a response = (a', false, e) /\
    e <> Scrape.completed /\
    (e = Scrape.not_fetched <-> response = None) /\
    url a' = url a /\ type a' = type a /\ states a' = states a /\
    embedding a' = embedding a.
Proof.
  unfold Scrape.scrape_page. destruct response as [soup|].
  - destruct (Scrape.page_thumbnail urljoin py_int soup _) as [a'|e] eqn:E.
    + eexists _, _. split; [reflexivity|].
      split; [discriminate|]. split; [split; discriminate|].
      unfold Scrape.page_thumbnail in E.
      assert (Hid : forall b t, url (Scrape.set_thumbnail b t) = url b /\
                type (Scrape.set_thumbnail b t) = type b /\
                states (Scrape.set_thumbnail b t) = states b /\
                embedding (Scrape.set_thumbnail b t) = embedding b)
        by (intros; repeat split).
      assert (Hpre : forall b,
                b = Scrape.page_description soup
                      (Scrape.page_content soup (Scrape.page_title soup a)) ->
                url b = url a /\ type b = type a /\ states b = states a /\
                embedding b = embedding a).
      { intros b ->. unfold Scrape.page_description, Scrape.page_content,
          Scrape.page_title.
        destruct (Scrape.meta_desc soup), (Scrape.og_desc soup),
          (Scrape.main_content soup), (Scrape.title_elem soup),
          (negb (PyStr.truthy (title a)) || _)%bool; repeat split. }
      specialize (Hpre _ eq_refl).
      destruct (Scrape.attribute (Scrape.og_image soup)).
      { injection E as <-. exact Hpre. }
      destruct (Scrape.attribute (Scrape.twitter_image soup)).
      { injection E as <-. exact Hpre. }
      destruct (Scrape.first_large_image urljoin py_int _ _) as [[src|]|];
        cbn [obind] in E; try discriminate; injection E as <-; exact Hpre.
    + eexists _, _. split; [reflexivity|].
      split; [discriminate|]. split; [split; discriminate|].
      unfold Scrape.page_description, Scrape.page_content, Scrape.page_title.
      destruct (Scrape.meta_desc soup), (Scrape.og_desc soup),
        (Scrape.main_content soup), (Scrape.title_elem soup),
        (negb (PyStr.truthy (title a)) || _)%bool; repeat split.
  - eexists _, _. split; [reflexivity|]. repeat split; auto; discriminate.
Qed.

(** The loop of phase 2, started with [re] unbound, ends with [re] unbound:
    each of its iterations starts with [re] unbound. *)
Lemma scrape_pages_unbound urljoin py_int list_of_set pages articles :
  exists arts endings,
    Scrape.scrape_pages urljoin py_int list_of_set pages false articles
      = (arts, false, endings) /\
    arts = map (fun a => fst (fst (Scrape.scrape_page urljoin py_int list_of_set
                                     false a (pages (url a))))) articles /\
    endings = map (fun a => snd (Scrape.scrape_page urljoin py_int list_of_set
                                   false a (pages (url a)))) articles /\
    Forall (fun e => e <> Scrape.completed) endings /\
    Forall2 (fun a a' => url a' = url a /\ type a' = type a /\
                         states a' = states a /\ embedding a' = embedding a)
      articles arts.
Proof.
  induction articles as [|a rest IH].
  - exists [], []. repeat split; constructor.
  - destruct IH as (arts & endings & E & Ha & He & Hc & Hid).
    destruct (scrape_page_unbound urljoin py_int list_of_set a (pages (url a)))
      as (a' & e & E1 & Hne & _ & Hsame).
    exists (a' :: arts), (e :: endings).
    cbn [Scrape.scrape_pages map]. rewrite E1, E. cbn [fst snd].
    repeat split; try congruence; constructor; auto.
Qed.

Lemma untagged_filters (l : list article) :
  Forall (fun a => states a = None) l ->
  filter has_states l = [] /\ filter (fun a => negb (has_states a)) l = l.
Proof.
  induction 1 as [|a l Ha _ [IH1 IH2]]; [split; reflexivity|].
  assert (Hun : has_states a = false) by (unfold has_states; now rewrite Ha).
  cbn [filter]. rewrite Hun, IH1, IH2. split; reflexivity.
Qed.


(** Phase 2 on a small site.  The blog page gives its article a content,
    a description and the first picture that is large enough, and the
    iteration stops at line 324; the index page gives a content and a
    description, and the iteration stops at a width in percent; the third
    request fails.  None of the three articles is tagged, although the
    location of the first page reads West Virginia. *)
Example phase_two_on_small_pages :
  exists d a3,
    Crawl.discover 30 MoreSamples.join_path MoreSamples.small_site
      (Crawl.start MoreSamples.join_path) = Some d /\
    Scrape.phase_2 MoreSamples.join_path MoreSamples.decimal_int
      (nodup string_dec) MoreSamples.small_pages
      (Crawler.articles (Crawl.crawl d))
    = ([ {| url := "https://ridewithvia.com/blog/microtransit-101";
            title := "Microtransit 101";
            content :=
              "Microtransit in Charleston, West Virginia: how on-demand transit works.";
            description := "An introduction to microtransit";
            type := "blog";
            thumbnail := "https://ridewithvia.com/assets/shuttle.jpg";
            states := None; embedding := None |};
         {| url := "https://ridewithvia.com/blog/";
            title := "Via Transportation";
            content := "The Via blog.";
            description := "";
            type := "blog"; thumbnail := "";
            states := None; embedding := None |};
         a3 ],
       false,
       [Scrape.caught_UnboundLocalError; Scrape.caught_ValueError;
        Scrape.not_fetched]).
Proof.
  eexists _, _. split; [vm_compute; reflexivity|]. vm_compute. reflexivity.
Qed.

(** X24.  On a corpus that comes fresh from the crawler the location
    filter finds nothing to filter: the articles that discovery lists have
    no state tags, phase 2 adds none, and for every region with coordinates
    and every list of articles of the corpus [get_articles_by_location]
    returns the first 10 of a shuffle of the whole list, whatever the
    distance bound and without computing a distance. *)
Theorem fresh_corpus_is_not_filtered_by_location
    urljoin py_int list_of_set site pages fuel d' m rng user_state max_distance w
    user_lat user_lon :
  Crawl.discover fuel urljoin site (Crawl.start urljoin) = Some d' ->
  dict_get STATE_COORDINATES user_state = Some (user_lat, user_lon) ->
  exists corpus endings,
    Scrape.phase_2 urljoin py_int list_of_set pages
      (Crawler.articles (Crawl.crawl d')) = (corpus, false, endings) /\
    Forall (fun a => states a = None) corpus /\
    forall articles, incl articles corpus ->
      get_articles_by_location m rng articles user_state max_distance w
      = (Returned (firstn 10 (random_shuffle rng (rng_draws w) articles)),
         count_shuffle w).
Proof.
  intros E Hcoord.
  pose proof (discover_invariant urljoin site _ fuel _ d' E
                (crawl_invariant_start urljoin)) as Hinv.
  pose proof (inv_stubs _ _ Hinv) as Hstub.
  destruct (scrape_pages_unbound urljoin py_int list_of_set pages
              (Crawler.articles (Crawl.crawl d')))
    as (corpus & endings & E2 & _ & _ & _ & Hid).
  exists corpus, endings. split; [exact E2|].
  assert (Hnone : Forall (fun a => states a = None) corpus).
  { clear E2. revert Hstub. induction Hid as [|a a' l l' (_ & _ & Hs & _) _ IH];
      intros Hstub; constructor.
    - inversion Hstub as [|? ? Hst _]; subst.
      rewrite Hs. apply Hst.
    - apply IH. now inversion Hstub. }
  split; [exact Hnone|].
  intros articles Hincl.
  assert (Hsub : Forall (fun a => states a = None) articles).
  { rewrite Forall_forall in *. auto. }
  destruct (untagged_filters articles Hsub) as [Hwith Hwithout].
  unfold get_articles_by_location. rewrite Hcoord, Hwith, Hwithout.
  reflexivity.
Qed.

Lemma fresh_corpus_is_not_filtered_by_location_witness :
  exists d',
    Crawl.discover 30 MoreSamples.join_path MoreSamples.small_site
      (Crawl.start MoreSamples.join_path) = Some d' /\
    exists corpus endings,
      Scrape.phase_2 MoreSamples.join_path MoreSamples.decimal_int
        (nodup string_dec) MoreSamples.small_pages
        (Crawler.articles (Crawl.crawl d')) = (corpus, false, endings) /\
      Forall (fun a => states a = None) corpus /\
      forall articles, incl articles corpus ->
        get_articles_by_location Samples.crude_libm Samples.reversing_rng
          articles "WV" 500 Samples.fresh_world
        = (Returned (firstn 10 (random_shuffle Samples.reversing_rng
                                  (rng_draws Samples.fresh_world) articles)),
           count_shuffle Samples.fresh_world).
Proof.
  eexists. split; [vm_compute; reflexivity|].
  apply (fresh_corpus_is_not_filtered_by_location MoreSamples.join_path
           MoreSamples.decimal_int (nodup string_dec) MoreSamples.small_site
           MoreSamples.small_pages 30 _ Samples.crude_libm Samples.reversing_rng
           "WV" 500 Samples.fresh_world 38.491226 (-80.954453)).
  - vm_compute. reflexivity.
  - reflexivity.
Defined.

(** ** Exporting the snapshot *)

Lemma dict_append_get by_type t a : forall k,
  dict_get (ExportCacheList.dict_append by_type t a) k
  = if String.eqb k t
    then Some ((match dict_get by_type t with Some l => l | None => [] end) ++ [a])%list
    else dict_get by_type k.
Proof.
  induction by_type as [|[k' l] rest IH]; intros k; cbn [ExportCacheList.dict_append dict_get].
  - destruct (String.eqb k t); reflexivity.
  - destruct (String.eqb t k') eqn:E; cbn [dict_get].
    + apply String.eqb_eq in E. subst k'.
      destruct (String.eqb k t); reflexivity.
    + rewrite IH. destruct (String.eqb k k') eqn:E'; [|reflexivity].
      apply String.eqb_eq in E'. subst k'.
      rewrite String.eqb_sym, E. reflexivity.
Qed.

Lemma dict_append_keys by_type t a :
  map fst (ExportCacheList.dict_append by_type t a)
  = if Crawler.in_set t (map fst by_type) then map fst by_type
    else (map fst by_type ++ [t])%list.
Proof.
  unfold Crawler.in_set.
  induction by_type as [|[k' l] rest IH]; cbn [ExportCacheList.dict_append map existsb fst app].
  - reflexivity.
  - destruct (String.eqb t k') eqn:E; cbn [map fst orb]; [reflexivity|].
    rewrite IH. now destruct (existsb (String.eqb t) (map fst rest)).
Qed.

Lemma dict_append_sizes by_type t a :
  list_sum (map (fun kv => length (snd kv)) (ExportCacheList.dict_append by_type t a))
  = S (list_sum (map (fun kv => length (snd kv)) by_type)).
Proof.
  unfold list_sum.
  induction by_type as [|[k' l] rest IH]; cbn [ExportCacheList.dict_append].
  - reflexivity.
  - destruct (String.eqb t k'); cbn [map snd fold_right].
    + rewrite length_app. cbn [length]. lia.
    + rewrite IH. lia.
Qed.

Lemma grouped_step seen by_type a :
  grouped seen by_type ->
  grouped (seen ++ [a]) (ExportCacheList.dict_append by_type (type a) a).
Proof.
  intros (Hnd & Hget & Hsum). split; [|split].
  - rewrite dict_append_keys.
    destruct (Crawler.in_set (type a) (map fst by_type)) eqn:E; [exact Hnd|].
    apply in_set_false in E. apply NoDup_app; auto.
    + repeat constructor. intros [].
    + intros x Hx [<-|[]]. contradiction.
  - intros k. rewrite dict_append_get. unfold of_type. rewrite filter_app.
    cbn [filter]. destruct (String.eqb k (type a)) eqn:E.
    + apply String.eqb_eq in E. subst k. rewrite Hget. unfold of_type.
      destruct (filter (fun a0 => String.eqb (type a) (type a0)) seen); reflexivity.
    + rewrite app_nil_r. apply Hget.
  - rewrite dict_append_sizes, Hsum, length_app. cbn [length]. lia.
Qed.

Lemma fold_grouped articles : forall seen by_type,
  grouped seen by_type ->
  grouped (seen ++ articles)
    (fold_left (fun by_type a => ExportCacheList.dict_append by_type (type a) a) articles by_type).
Proof.
  induction articles as [|a rest IH]; intros seen by_type H; cbn [fold_left].
  - now rewrite app_nil_r.
  - replace (seen ++ a :: rest)%list with ((seen ++ [a]) ++ rest)%list
      by now rewrite <- app_assoc.
    apply IH. now apply grouped_step.
Qed.

Lemma group_by_type_grouped articles : grouped articles (ExportCacheList.group_by_type articles).
Proof.
  apply (fold_grouped articles [] []). repeat split; constructor.
Qed.

Lemma dict_get_NoDup_In {V} (d : list (string * V)) k v :
  NoDup (map fst d) -> (In (k, v) d <-> dict_get d k = Some v).
Proof.
  induction d as [|[k' v'] d IH]; intros Hnd; cbn [dict_get In].
  - split; [intros []|discriminate].
  - inversion Hnd as [|? ? Hk Hd]; subst.
    destruct (String.eqb k k') eqn:E.
    + apply String.eqb_eq in E. subst k'. split.
      * intros [[= ->]|Hin]; [reflexivity|].
        exfalso. apply Hk. now apply (in_map fst) in Hin.
      * intros [= ->]. now left.
    + apply String.eqb_neq in E. rewrite <- (IH Hd). split.
      * intros [[= -> ->]|Hin]; [congruence|exact Hin].
      * intros Hin. now right.
Qed.

Lemma insert_by_key_perm {V} (x : string * V) l :
  Permutation (ExportCacheList.insert_by_key x l) (x :: l).
Proof.
  induction l as [|y l IH]; cbn [ExportCacheList.insert_by_key]; [reflexivity|].
  destruct (String.ltb (fst y) (fst x)); [|reflexivity].
  rewrite IH. apply perm_swap.
Qed.

Lemma sorted_items_perm {V} (d : list (string * V)) :
  Permutation (ExportCacheList.sorted_items d) d.
Proof.
  induction d as [|x d IH]; cbn; [constructor|].
  rewrite insert_by_key_perm. now constructor.
Qed.

Lemma ltb_asym s1 s2 : String.ltb s1 s2 = true -> String.ltb s2 s1 = false.
Proof.
  unfold String.ltb. rewrite (String.compare_antisym s1 s2).
  destruct (String.compare s2 s1); cbn; congruence.
Qed.

Lemma not_ltb_neq s1 s2 : String.ltb s2 s1 = false -> s1 <> s2 -> String.ltb s1 s2 = true.
Proof.
  unfold String.ltb. rewrite (String.compare_antisym s1 s2). intros H Hne.
  destruct (String.compare s2 s1) eqn:E; cbn; try congruence.
  apply String.compare_eq_iff in E. congruence.
Qed.

Lemma insert_by_key_sorted {V} (x : string * V) l :
  Sorted (fun a b => String.ltb (fst b) (fst a) = false) l ->
  Sorted (fun a b => String.ltb (fst b) (fst a) = false) (ExportCacheList.insert_by_key x l).
Proof.
  induction l as [|y l IH]; intros Hs; cbn [ExportCacheList.insert_by_key].
  - repeat constructor.
  - destruct (String.ltb (fst y) (fst x)) eqn:E.
    + inversion Hs as [|? ? Hl Hhd]; subst. constructor; [now apply IH|].
      destruct l as [|z l]; cbn [ExportCacheList.insert_by_key].
      * constructor. now apply ltb_asym.
      * destruct (String.ltb (fst z) (fst x)).
        -- constructor. now inversion Hhd.
        -- constructor. now apply ltb_asym.
    + constructor; [exact Hs|]. now constructor.
Qed.

Lemma sorted_items_sorted {V} (d : list (string * V)) :
  Sorted (fun a b => String.ltb (fst b) (fst a) = false) (ExportCacheList.sorted_items d).
Proof.
  induction d as [|x d IH]; cbn; [constructor|]. now apply insert_by_key_sorted.
Qed.

Lemma sorted_distinct_ascending {V} (l : list (string * V)) :
  NoDup (map fst l) ->
  Sorted (fun a b => String.ltb (fst b) (fst a) = false) l ->
  Sorted (fun a b => String.ltb (fst a) (fst b) = true) l.
Proof.
  induction l as [|x l IH]; intros Hnd Hs; [constructor|].
  inversion Hnd as [|? ? Hx Hl]; inversion Hs as [|? ? Hsl Hhd]; subst.
  constructor; [now apply IH|].
  destruct l as [|y l]; constructor.
  inversion Hhd; subst. apply not_ltb_neq; auto.
  intros Heq. apply Hx. left. now symmetry.
Qed.

Lemma Sorted_map {A B} (R : A -> A -> Prop) (R' : B -> B -> Prop) (f : A -> B) l :
  (forall a b, R a b -> R' (f a) (f b)) -> Sorted R l -> Sorted R' (map f l).
Proof.
  intros Hf. induction 1 as [|x l Hl IH Hhd]; cbn [map]; constructor; auto.
  destruct Hhd; cbn [map]; constructor. auto.
Qed.

Lemma list_sum_perm l1 l2 : Permutation l1 l2 -> list_sum l1 = list_sum l2.
Proof. unfold list_sum. induction 1; cbn [fold_right]; lia. Qed.

(** X25.  The summary that [export_cache_to_file] writes has one row for
    each type that occurs in the snapshot and no other row, in ascending
    order of the types; the number of a row is the number of articles of
    that type, and the numbers add up to the total printed above them. *)
Theorem export_summary_counts_add_up (articles : list article) :
  NoDup (map fst (ExportCacheList.summary_by_type articles)) /\
  (forall t n,
     In (t, n) (ExportCacheList.summary_by_type articles) <->
     (0 < n)%nat /\ n = length (of_type t articles)) /\
  list_sum (map snd (ExportCacheList.summary_by_type articles)) = length articles /\
  Sorted (fun a b => String.ltb (fst a) (fst b) = true)
    (ExportCacheList.summary_by_type articles).
Proof.
  destruct (group_by_type_grouped articles) as (Hnd & Hget & Hsum).
  pose proof (sorted_items_perm (ExportCacheList.group_by_type articles)) as Hperm.
  assert (Hnd' : NoDup (map fst (ExportCacheList.sorted_items (ExportCacheList.group_by_type articles)))).
  { eapply Permutation_NoDup; [|exact Hnd]. symmetry. now apply Permutation_map. }
  assert (Hkeys : map fst (ExportCacheList.summary_by_type articles)
                  = map fst (ExportCacheList.sorted_items (ExportCacheList.group_by_type articles))).
  { unfold ExportCacheList.summary_by_type. rewrite map_map. reflexivity. }
  split; [now rewrite Hkeys|]. split; [|split].
  - intros t n. unfold ExportCacheList.summary_by_type. rewrite in_map_iff. split.
    + intros ([k l] & [= -> <-] & Hin). cbn [snd].
      eapply Permutation_in in Hin; [|exact Hperm].
      apply (dict_get_NoDup_In _ _ _ Hnd) in Hin. rewrite Hget in Hin.
      destruct (of_type t articles) as [|a l'] eqn:E; [discriminate|].
      injection Hin as <-. cbn [length]. split; [lia|reflexivity].
    + intros [Hn ->]. exists (t, of_type t articles). split; [reflexivity|].
      eapply Permutation_in; [symmetry; exact Hperm|].
      apply (dict_get_NoDup_In _ _ _ Hnd). rewrite Hget.
      destruct (of_type t articles); [cbn in Hn; lia|reflexivity].
  - unfold ExportCacheList.summary_by_type. rewrite map_map. cbn [snd]. rewrite <- Hsum.
    apply list_sum_perm. now apply Permutation_map.
  - pose proof (sorted_distinct_ascending _ Hnd'
                  (sorted_items_sorted (ExportCacheList.group_by_type articles))) as Hs.
    unfold ExportCacheList.summary_by_type.
    apply Sorted_map with (R := fun a b => String.ltb (fst a) (fst b) = true); auto.
Qed.
